(** * gym-mtsim: the trading environment [MtEnv] (gym_mtsim/envs/mt_env.py)

    A shallow embedding of [MtEnv.reset], [MtEnv.step] and the helpers they
    call, followed by the properties of the environment's specification.

    Modelling conventions.
    - Python floats are idealised as real numbers ([R]): rounding error
      and NaN are not modelled.  The quotient of the logarithmic reward is
      the one place where the range of a double is modelled: past that
      range the quotient is an infinity or zero, and the reward is not
      finite.  A float that may be NaN
      in the source ([fee] and [margin] of an intent record) is an
      [option R].
    - A Python exception is a value of [PyExn]; code that may raise returns
      a [Result].  A reward is an [option R], [None] standing for a float
      that is not finite.
    - [numpy.random.Generator] is the stream of raw 64-bit words it will
      produce, together with a cursor.  The integers it returns are
      [np.int64]: a sum with one of them wraps around at 64 bits.
    - [MtSimulator] lives outside this module: it is a record of operations
      ([Simulator]) over an abstract state. *)

From Stdlib Require Import Reals Lra Lia ZArith List String Bool.
From Stdlib Require Import Zfloor Permutation.
Import ListNotations.

Local Open Scope R_scope.

(** ** Python runtime *)

Inductive PyExn : Type :=
| IndexError
| KeyError
| ZeroDivisionError
| OverflowError
| ValueError (msg : string)
| GymnasiumError (msg : string).

Inductive Result (A : Type) : Type :=
| Ok (a : A)
| Raise (e : PyExn).

Arguments Ok {A} a.
Arguments Raise {A} e.

Definition bind {A B : Type} (c : Result A) (k : A -> Result B) : Result B :=
  match c with
  | Ok a => k a
  | Raise e => Raise e
  end.

Notation "x <- c ;; k" := (bind c (fun x => k))
  (at level 61, c at next level, right associativity).
Notation "' p <- c ;; k" := (bind c (fun x => let p := x in k))
  (at level 61, p pattern, c at next level, right associativity).

(** From [H : bind c k = Ok b]: the value [a] of [c], with [Ha : c = Ok a],
    and [H : k a = Ok b]. *)
Ltac inv_bind H :=
  match type of H with
  | bind ?c _ = Ok _ =>
      let a := fresh "a" in
      let Ha := fresh "Ha" in
      destruct c as [a |] eqn:Ha;
      [unfold bind at 1 in H; cbv beta iota zeta in H | discriminate H]
  end.

Definition is_ok {A : Type} (c : Result A) : bool :=
  match c with Ok _ => true | Raise _ => false end.

(** Comparisons of floats, as booleans. *)
Definition Rltb (x y : R) : bool := if Rlt_dec x y then true else false.
Definition Reqb (x y : R) : bool := if Req_dec_T x y then true else false.

(** [x / y] on Python floats: a zero divisor raises. *)
Definition py_div (x y : R) : Result R :=
  if Reqb y 0 then Raise ZeroDivisionError else Ok (x / y).

(** [round(x)] with no digits: the nearest integer, ties to the even one. *)
Definition py_round (x : R) : Z :=
  let f := Zfloor x in
  let d := x - IZR f in
  if Rlt_dec d (1 / 2) then f
  else if Rlt_dec (1 / 2) d then (f + 1)%Z
  else if Z.even f then f else (f + 1)%Z.

(** [np.clip(x, lo, hi)] is [minimum(maximum(x, lo), hi)]. *)
Definition np_clip (x lo hi : R) : R := Rmin (Rmax x lo) hi.

(** A list index as Python resolves it: a negative one counts from the end. *)
Definition py_index {A : Type} (l : list A) (i : Z) : Result A :=
  let n := Z.of_nat (List.length l) in
  let j := if (i <? 0)%Z then (i + n)%Z else i in
  if ((j <? 0) || (n <=? j))%Z then Raise IndexError
  else match nth_error l (Z.to_nat j) with
       | Some a => Ok a
       | None => Raise IndexError
       end.

(** A slice bound as Python resolves it against a length. *)
Definition slice_bound (n i : Z) : Z :=
  if (i <? 0)%Z then Z.max (i + n) 0 else Z.min i n.

(** [l[start:stop]]. *)
Definition py_slice {A : Type} (l : list A) (start stop : Z) : list A :=
  let n := Z.of_nat (List.length l) in
  let a := slice_bound n start in
  let b := slice_bound n stop in
  firstn (Z.to_nat (b - a)) (skipn (Z.to_nat a) l).

(** ** Symbol metadata and volumes *)

Record SymbolInfo : Type := {
  volume_min : R;
  volume_max : R;
  volume_step : R
}.

(** [MtEnv._get_modified_volume], given the symbol's metadata [si]
    ([self.simulator.symbols_info[symbol]]).  Dividing by a zero step gives
    an infinity or a NaN, which [round] refuses. *)
Definition modified_volume (si : SymbolInfo) (volume : R) : Result R :=
  let v := Rabs volume in
  let v := np_clip v (volume_min si) (volume_max si) in
  if Reqb (volume_step si) 0 then
    (if Reqb v 0 then Raise (ValueError "cannot convert float NaN to integer")
     else Raise OverflowError)
  else Ok (IZR (py_round (v / volume_step si)) * volume_step si).

(** ** Rewards and termination *)

(** [MtEnv._calculate_reward]; [prev_equity] is [self.history[-1]['equity']],
    [current_equity] is [self.simulator.equity]. *)
Definition _calculate_reward (prev_equity current_equity initial_balance : R)
  : Result R :=
  let step_reward := current_equity - prev_equity in
  q <- py_div step_reward initial_balance ;;
  Ok (q * 100).

(** [np.log]: finite exactly on the positive floats; [None] stands for a
    result that is not finite (an infinity or a NaN). *)
Definition np_log (x : R) : option R :=
  if Rltb 0 x then Some (ln x) else None.

(** The range of a double.  Rounding to nearest, a magnitude from
    [2^1024 - 2^970] on becomes an infinity and a magnitude up to
    [2^-1075], half the smallest subnormal, becomes zero. *)
Definition double_overflow : R := IZR (2 ^ 1024 - 2 ^ 970).
Definition double_underflow : R := / IZR (2 ^ 1075).

(** A real result as a double, as far as its range goes: [None] is an
    infinity. *)
Definition to_double (x : R) : option R :=
  if Rle_dec double_overflow (Rabs x) then None
  else if Rle_dec (Rabs x) double_underflow then Some 0
  else Some x.

(** [MtEnv._calculate_log_reward].  The quotient of two positive floats is
    a float again: it is an infinity when it overflows and zero when it
    underflows, and the logarithm of either is not finite. *)
Definition _calculate_log_reward (prev_equity current_equity : R)
  : Result (option R) :=
  if Rltb 0 prev_equity && Rltb 0 current_equity then
    q <- py_div current_equity prev_equity ;;
    Ok (match to_double q with
        | Some q' => np_log q'
        | None => None
        end)
  else Ok (Some (-10)).

(** The [terminal] flag of [MtEnv.step] (the two [if]s after the reward). *)
Definition terminal_flag (done_if_equity_zero : bool) (loss_cut : option R)
  (equity initial_balance : R) : Result bool :=
  let terminal := if done_if_equity_zero then Reqb equity 0 else false in
  match loss_cut with
  | Some lc =>
      q <- py_div equity initial_balance ;;
      Ok (Rltb q lc)
  | None => Ok terminal
  end.

(** ** The random generator ([numpy.random.Generator]) *)

Record Generator : Type := {
  words : nat -> Z;
  cursor : nat
}.

(** The next raw word. *)
Definition next_word (g : Generator) : Z * Generator :=
  (words g (cursor g), {| words := words g; cursor := S (cursor g) |}).

(** [Generator.random()]: the 53 high bits of a 64-bit word, scaled into
    [[0, 1)]. *)
Definition rng_random (g : Generator) : R * Generator :=
  let (w, g') := next_word g in
  (IZR ((w mod 2 ^ 64) / 2 ^ 11) / IZR (2 ^ 53), g').

(** The range of [np.int64]. *)
Definition int64_min : Z := (- 2 ^ 63)%Z.
Definition int64_max : Z := (2 ^ 63 - 1)%Z.

(** A sum of [np.int64] values wraps around. *)
Definition wrap64 (z : Z) : Z := ((z - int64_min) mod 2 ^ 64 + int64_min)%Z.

(** [a + b] for an [np.int64] [a] and a Python integer [b]: [b] is
    converted to [np.int64], which refuses an integer outside its range
    (NumPy 2), and the sum wraps around. *)
Definition int64_add (a b : Z) : Result Z :=
  if ((b <? int64_min) || (int64_max <? b))%Z then Raise OverflowError
  else Ok (wrap64 (a + b)).

(** [Generator.integers(low, high)]: an [np.int64] of [[low, high)], the
    upper bound excluded; bounds outside [np.int64] and an empty range
    raise.  The bounded sampler is modelled as the reduction of one raw
    word. *)
Definition rng_integers (g : Generator) (low high : Z)
  : Result (Z * Generator) :=
  if (low <? int64_min)%Z then
    Raise (ValueError "low is out of bounds for int64")
  else if (int64_max <? high - 1)%Z then
    Raise (ValueError "high is out of bounds for int64")
  else if (high <=? low)%Z then Raise (ValueError "low >= high")
  else let (w, g') := next_word g in
       Ok ((low + w mod (high - low))%Z, g').

(** [Generator.choice([False, True], p=[1 - p, p])]: one uniform variate,
    searched in the cumulative weights [[1 - p, 1]]. *)
Definition rng_choice (g : Generator) (p : R) : bool * Generator :=
  let (u, g') := rng_random g in
  (negb (Rltb u (1 - p)), g').

(** ** Decoding an action component *)

(** [np.arctanh]. *)
Definition arctanh (x : R) : R := / 2 * ln ((1 + x) / (1 - x)).

(** [scipy.special.expit]. *)
Definition expit (x : R) : R := 1 / (1 + exp (- x)).

(** [expit(np.arctanh(x.clip(-1 + 1e-3, 1 - 1e-3)))]. *)
Definition logit_probability (x : R) : R :=
  expit (arctanh (np_clip x (-1 + 1e-3) (1 - 1e-3))).

(** ** The simulator's interface *)

Inductive OrderType : Type := Buy | Sell.

Record Order : Type := {
  order_id : Z;
  order_symbol : string;
  order_type : OrderType;
  order_volume : R;
  order_fee : R;
  order_margin : R;
  order_profit : R;
  order_entry_price : R
}.

(** What [MtEnv] uses of an [MtSimulator] whose state has type [Sim].
    [close_order] also returns the order object as the call leaves it;
    [create_order] returns the new order, or the message of the [ValueError]
    with which the simulator refuses the request. *)
Record Simulator (Sim : Type) : Type := {
  hedge : Sim -> bool;
  balance : Sim -> R;
  equity : Sim -> R;
  margin : Sim -> R;
  free_margin : Sim -> R;
  margin_level : Sim -> R;
  set_balance : Sim -> R -> Sim;
  set_equity : Sim -> R -> Sim;
  set_current_time : Sim -> Z -> Sim;
  symbols_info : Sim -> string -> option SymbolInfo;
  symbol_orders : Sim -> string -> list Order;
  close_order : Sim -> Order -> Sim * Order;
  create_order : Sim -> OrderType -> string -> R -> R -> (Order * Sim) + string;
  tick : Sim -> Z -> Sim
}.

Arguments hedge {Sim} _ _.
Arguments balance {Sim} _ _.
Arguments equity {Sim} _ _.
Arguments margin {Sim} _ _.
Arguments free_margin {Sim} _ _.
Arguments margin_level {Sim} _ _.
Arguments set_balance {Sim} _ _ _.
Arguments set_equity {Sim} _ _ _.
Arguments set_current_time {Sim} _ _ _.
Arguments symbols_info {Sim} _ _ _.
Arguments symbol_orders {Sim} _ _ _.
Arguments close_order {Sim} _ _ _.
Arguments create_order {Sim} _ _ _ _ _ _.
Arguments tick {Sim} _ _ _.

(** ** Records of the environment *)

(** [self.fee]: a float, or a function of the symbol. *)
Inductive Fee : Type :=
| FixedFee (rate : R)
| SymbolFee (f : string -> R).

(** An entry of [orders_info]. *)
Record OrderIntent : Type := {
  i_order_id : option Z;
  i_symbol : string;
  i_hold_probability : R;
  i_hold : bool;
  i_volume : R;
  i_capacity : Z;
  i_order_type : option OrderType;
  i_modified_volume : R;
  i_fee : option R;
  i_margin : option R;
  i_error : string
}.

(** An entry of [closed_orders_info[symbol]]. *)
Record ClosedOrder : Type := {
  c_order_id : Z;
  c_symbol : string;
  c_order_type : OrderType;
  c_volume : R;
  c_fee : R;
  c_margin : R;
  c_profit : R;
  c_close_probability : R
}.

(** A Python [dict] with string keys, in insertion order. *)
Definition Dict (V : Type) : Type := list (string * V).

Fixpoint dict_get {V : Type} (d : Dict V) (k : string) : option V :=
  match d with
  | [] => None
  | (k', v) :: d' => if String.eqb k' k then Some v else dict_get d' k
  end.

Fixpoint dict_set {V : Type} (d : Dict V) (k : string) (v : V) : Dict V :=
  match d with
  | [] => [(k, v)]
  | (k', v') :: d' =>
      if String.eqb k' k then (k', v) :: d' else (k', v') :: dict_set d' k v
  end.

(** What [_create_info] returns. *)
Record Info : Type := {
  info_orders : option (Dict OrderIntent);
  info_closed_orders : option (Dict (list ClosedOrder));
  info_step_reward : option (option R);
  info_balance : R;
  info_equity : R;
  info_margin : R;
  info_free_margin : R;
  info_margin_level : R
}.

Record Observation : Type := {
  obs_balance : list R;
  obs_equity : list R;
  obs_margin : list R;
  obs_features : list (list R);
  obs_orders : list (list (list R))
}.

(** The attributes [__init__] fixes.  [symbol_max_orders] is the value kept
    after [__init__] has forced it to 1 for a simulator without hedging;
    [signal_features] is the array [_process_data] built. *)
Record Config (Sim : Type) : Type := {
  original_simulator : Sim;
  trading_symbols : list string;
  window_size : Z;
  time_points : list Z;
  fee : Fee;
  symbol_max_orders : nat;
  signal_features : list (list R);
  preprocess : option (R -> R);
  randomize_initial_balance : bool;
  initial_balance_kwargs : R * R;
  time_split : bool;
  min_time_split_length : Z;
  max_time_split_length : Z;
  risk_free_rate : R;
  risk_premium : bool;
  done_if_equity_zero : bool;
  loss_cut : option R;
  log_reward : bool;
  seed : Z
}.

Arguments original_simulator {Sim} _.
Arguments trading_symbols {Sim} _.
Arguments window_size {Sim} _.
Arguments time_points {Sim} _.
Arguments fee {Sim} _.
Arguments symbol_max_orders {Sim} _.
Arguments signal_features {Sim} _.
Arguments preprocess {Sim} _.
Arguments randomize_initial_balance {Sim} _.
Arguments initial_balance_kwargs {Sim} _.
Arguments time_split {Sim} _.
Arguments min_time_split_length {Sim} _.
Arguments max_time_split_length {Sim} _.
Arguments risk_free_rate {Sim} _.
Arguments risk_premium {Sim} _.
Arguments done_if_equity_zero {Sim} _.
Arguments loss_cut {Sim} _.
Arguments log_reward {Sim} _.
Arguments seed {Sim} _.

(** [self._initial_start_tick] and [self._max_end_tick]. *)
Definition initial_start_tick {Sim : Type} (cfg : Config Sim) : Z :=
  (window_size cfg - 1)%Z.
Definition max_end_tick {Sim : Type} (cfg : Config Sim) : Z :=
  (Z.of_nat (List.length (time_points cfg)) - 1)%Z.

(** The attributes [reset] and [step] assign. *)
Record MtEnv (Sim : Type) : Type := {
  np_rng : Generator;
  start_tick : Z;
  end_tick : Z;
  truncated : bool;
  current_tick : Z;
  simulator : Sim;
  history : list Info;
  initial_balance : R
}.

Arguments np_rng {Sim} _.
Arguments start_tick {Sim} _.
Arguments end_tick {Sim} _.
Arguments truncated {Sim} _.
Arguments current_tick {Sim} _.
Arguments simulator {Sim} _.
Arguments history {Sim} _.
Arguments initial_balance {Sim} _.

(** ** The methods of [MtEnv] *)

Fixpoint mapM {A B : Type} (f : A -> Result B) (l : list A) : Result (list B) :=
  match l with
  | [] => Ok []
  | a :: l' => b <- f a ;; bs <- mapM f l' ;; Ok (b :: bs)
  end.

(** The close decisions of one symbol: [prob] is cut to the number of open
    orders, one [choice] is drawn per probability, and the orders drawn
    [True] are kept, each with its close probability. *)
Fixpoint sample_closes (g : Generator) (prob : list R) (orders : list Order)
  : list (Order * R) * Generator :=
  match prob, orders with
  | p :: prob', o :: orders' =>
      let (c, g1) := rng_choice g p in
      let (sel, g2) := sample_closes g1 prob' orders' in
      (if c then (o, p) :: sel else sel, g2)
  | _, _ => ([], g)
  end.

Definition closed_record (o : Order) (p : R) : ClosedOrder :=
  {| c_order_id := order_id o; c_symbol := order_symbol o;
     c_order_type := order_type o; c_volume := order_volume o;
     c_fee := order_fee o; c_margin := order_margin o;
     c_profit := order_profit o; c_close_probability := p |}.

(** What one iteration of [_apply_action] knows when it reaches the
    capacity test: the decoded action, the sampled hold decision, the
    records of the orders it closed, and the simulator and the generator
    as the closes left them. *)
Record Prepared (Sim : Type) : Type := {
  p_hold_probability : R;
  p_hold : bool;
  p_volume : R;
  p_modified_volume : R;
  p_capacity : Z;
  p_closed : list ClosedOrder;
  p_sim : Sim;
  p_rng : Generator
}.

Arguments p_hold_probability {Sim} _.
Arguments p_hold {Sim} _.
Arguments p_volume {Sim} _.
Arguments p_modified_volume {Sim} _.
Arguments p_capacity {Sim} _.
Arguments p_closed {Sim} _.
Arguments p_sim {Sim} _.
Arguments p_rng {Sim} _.

(** What [step] returns. *)
Record StepResult : Type := {
  r_observation : Observation;
  r_reward : option R;
  r_terminated : bool;
  r_truncated : bool;
  r_info : Info
}.

Section Methods.

Context {Sim : Type} (S : Simulator Sim).

(** The standard normal variate numpy derives from a raw word, and the word
    stream of a generator seeded with a given integer. *)
Variable gauss : Z -> R.
Variable seed_words : Z -> nat -> Z.

Variable cfg : Config Sim.

(** [np.random.default_rng(seed)]. *)
Definition default_rng (s : Z) : Generator :=
  {| words := seed_words s; cursor := 0 |}.

(** [Generator.lognormal(mean, sigma)], which refuses a negative
    [sigma] before it draws. *)
Definition rng_lognormal (g : Generator) (mean sigma : R)
  : Result (R * Generator) :=
  if Rltb sigma 0 then Raise (ValueError "sigma < 0")
  else let (w, g') := next_word g in
       Ok (exp (mean + sigma * gauss w), g').

(** [MtEnv._create_info]. *)
Definition _create_info (sim : Sim) (orders : option (Dict OrderIntent))
  (closed_orders : option (Dict (list ClosedOrder)))
  (step_reward : option (option R)) : Info :=
  {| info_orders := orders; info_closed_orders := closed_orders;
     info_step_reward := step_reward;
     info_balance := balance S sim; info_equity := equity S sim;
     info_margin := margin S sim; info_free_margin := free_margin S sim;
     info_margin_level := margin_level S sim |}.

(** [MtEnv._get_modified_volume]. *)
Definition _get_modified_volume (sim : Sim) (symbol : string) (volume : R)
  : Result R :=
  match symbols_info S sim symbol with
  | Some si => modified_volume si volume
  | None => Raise KeyError
  end.

(** The rows [orders[i, j] = [entry_price, volume, profit]] of one symbol,
    over zeros; a row index past [symbol_max_orders] is out of bounds. *)
Definition order_rows (orders : list Order) : Result (list (list R)) :=
  let m := symbol_max_orders cfg in
  if (m <? List.length orders)%nat then Raise IndexError
  else Ok (map (fun o => [order_entry_price o; order_volume o; order_profit o])
             orders
           ++ repeat [0; 0; 0] (m - List.length orders)).

(** [MtEnv._get_observation] at tick [t].  [preprocess] is applied to every
    element of every component. *)
Definition _get_observation (sim : Sim) (t : Z) : Result Observation :=
  let features :=
    py_slice (signal_features cfg) (t - window_size cfg + 1) (t + 1) in
  orders <- mapM (fun symbol => order_rows (symbol_orders S sim symbol))
                 (trading_symbols cfg) ;;
  let f := match preprocess cfg with Some f => f | None => fun x => x end in
  Ok {| obs_balance := map f [balance S sim];
        obs_equity := map f [equity S sim];
        obs_margin := map f [margin S sim];
        obs_features := map (map f) features;
        obs_orders := map (map (map f)) orders |}.

(** The slot of symbol number [i] in the action vector, decoded: the close
    probabilities, the hold probability and the scaled volume. *)
Definition decode_action (action : list R) (i : nat) : Result (list R * R * R) :=
  let k := Z.of_nat (symbol_max_orders cfg + 2) in
  let symbol_action := py_slice action (k * Z.of_nat i) (k * (Z.of_nat i + 1)) in
  let close_orders_logit := py_slice symbol_action 0 (-2) in
  hold_logit <- py_index symbol_action (-2) ;;
  v <- py_index symbol_action (-1) ;;
  Ok (map logit_probability close_orders_logit,
      logit_probability hold_logit,
      v * 100).

(** Closing the selected orders, in order. *)
Fixpoint close_orders (sim : Sim) (sel : list (Order * R))
  : Sim * list ClosedOrder :=
  match sel with
  | [] => (sim, [])
  | (o, p) :: sel' =>
      let (sim1, o') := close_order S sim o in
      let (sim2, recs) := close_orders sim1 sel' in
      (sim2, closed_record o' p :: recs)
  end.

(** One iteration of the loop of [_apply_action], up to [orders_capacity]. *)
Definition prepare (action : list R) (i : nat) (symbol : string)
  (sim : Sim) (g : Generator) : Result (Prepared Sim) :=
  '(close_orders_probability, hold_probability, volume) <-
     decode_action action i ;;
  let (hold, g1) := rng_choice g hold_probability in
  modified_volume <- _get_modified_volume sim symbol volume ;;
  let orders := symbol_orders S sim symbol in
  let (orders_to_close, g2) :=
    sample_closes g1 close_orders_probability orders in
  let (sim1, closed) := close_orders sim orders_to_close in
  let orders_capacity :=
    (Z.of_nat (symbol_max_orders cfg)
     - (Z.of_nat (List.length orders)
        - Z.of_nat (List.length orders_to_close)))%Z in
  Ok {| p_hold_probability := hold_probability; p_hold := hold;
        p_volume := volume; p_modified_volume := modified_volume;
        p_capacity := orders_capacity; p_closed := closed;
        p_sim := sim1; p_rng := g2 |}.

(** The entry [orders_info[symbol]] starts with. *)
Definition base_intent (symbol : string) (p : Prepared Sim) : OrderIntent :=
  {| i_order_id := None; i_symbol := symbol;
     i_hold_probability := p_hold_probability p; i_hold := p_hold p;
     i_volume := p_volume p; i_capacity := p_capacity p;
     i_order_type := None; i_modified_volume := p_modified_volume p;
     i_fee := None; i_margin := None; i_error := EmptyString |}.

Definition set_error (it : OrderIntent) (e : string) : OrderIntent :=
  {| i_order_id := i_order_id it; i_symbol := i_symbol it;
     i_hold_probability := i_hold_probability it; i_hold := i_hold it;
     i_volume := i_volume it; i_capacity := i_capacity it;
     i_order_type := i_order_type it;
     i_modified_volume := i_modified_volume it;
     i_fee := i_fee it; i_margin := i_margin it; i_error := e |}.

Definition set_order (it : OrderIntent) (o : Order) (ty : OrderType) (f : R)
  : OrderIntent :=
  {| i_order_id := Some (order_id o); i_symbol := i_symbol it;
     i_hold_probability := i_hold_probability it; i_hold := i_hold it;
     i_volume := i_volume it; i_capacity := i_capacity it;
     i_order_type := Some ty;
     i_modified_volume := i_modified_volume it;
     i_fee := Some f; i_margin := Some (order_margin o);
     i_error := i_error it |}.

(** [self.fee if type(self.fee) is float else self.fee(symbol)]. *)
Definition resolve_fee (symbol : string) : R :=
  match fee cfg with
  | FixedFee rate => rate
  | SymbolFee f => f symbol
  end.

(** [OrderType.Buy if volume > 0. else OrderType.Sell]. *)
Definition direction (volume : R) : OrderType :=
  if Rltb 0 volume then Buy else Sell.

(** The [try] block: the request, and what its outcome writes into the
    entry.  A refusal leaves the simulator as it was. *)
Definition request_order (symbol : string) (p : Prepared Sim)
  (ty : OrderType) (f : R) : OrderIntent * Sim :=
  match create_order S (p_sim p) ty symbol (p_modified_volume p) f with
  | inl (o, sim') => (set_order (base_intent symbol p) o ty f, sim')
  | inr e => (set_error (base_intent symbol p) e, p_sim p)
  end.

(** The rest of the iteration: the capacity test, and the request when the
    symbol is not held. *)
Definition open_order (symbol : string) (p : Prepared Sim)
  : OrderIntent * Sim :=
  if hedge S (p_sim p) && (p_capacity p =? 0)%Z then
    (set_error (base_intent symbol p) "cannot add more orders", p_sim p)
  else if negb (p_hold p) then
    request_order symbol p (direction (p_volume p)) (resolve_fee symbol)
  else (base_intent symbol p, p_sim p).

(** The loop of [_apply_action] over [enumerate(self.trading_symbols)],
    from symbol number [i] on. *)
Fixpoint apply_symbols (action : list R) (i : nat) (symbols : list string)
  (sim : Sim) (g : Generator)
  (orders_info : Dict OrderIntent) (closed_orders_info : Dict (list ClosedOrder))
  : Result (Dict OrderIntent * Dict (list ClosedOrder) * Sim * Generator) :=
  match symbols with
  | [] => Ok (orders_info, closed_orders_info, sim, g)
  | symbol :: symbols' =>
      p <- prepare action i symbol sim g ;;
      let before :=
        match dict_get closed_orders_info symbol with
        | Some l => l
        | None => []
        end in
      let closed_orders_info :=
        dict_set closed_orders_info symbol (before ++ p_closed p) in
      let (intent, sim') := open_order symbol p in
      apply_symbols action (Datatypes.S i) symbols' sim' (p_rng p)
        (dict_set orders_info symbol intent) closed_orders_info
  end.

(** [MtEnv._apply_action]. *)
Definition _apply_action (action : list R) (sim : Sim) (g : Generator)
  : Result (Dict OrderIntent * Dict (list ClosedOrder) * Sim * Generator) :=
  let closed_orders_info :=
    fold_left (fun d symbol => dict_set d symbol [])
              (trading_symbols cfg) [] in
  apply_symbols action 0 (trading_symbols cfg) sim g [] closed_orders_info.

(** The state [__init__] leaves.  The attributes it sets to
    [NotImplemented] hold placeholders: [reset] assigns every one of them
    before it reads any. *)
Definition init : MtEnv Sim :=
  {| np_rng := default_rng (seed cfg);
     start_tick := initial_start_tick cfg;
     end_tick := max_end_tick cfg;
     truncated := false;
     current_tick := 0;
     simulator := original_simulator cfg;
     history := [];
     initial_balance := 0 |}.

(** The random sub-window of [reset]: [(start_tick, end_tick)] and the
    generator after the two draws. *)
Definition sample_window (g : Generator) : Result (Z * Z * Generator) :=
  '(start, g1) <- rng_integers g (initial_start_tick cfg)
                    (max_end_tick cfg - min_time_split_length cfg) ;;
  far <- int64_add start (max_time_split_length cfg) ;;
  let high := Z.min (max_end_tick cfg) far in
  low <- int64_add start (min_time_split_length cfg) ;;
  '(stop, g2) <- rng_integers g1 low high ;;
  Ok (start, stop, g2).

(** The copy of the simulator [reset] starts from, with the initial
    balance: the configured one, or a log-normal draw. *)
Definition initial_conditions (g : Generator)
  : Result (Sim * R * Generator) :=
  let sim := original_simulator cfg in
  let initial := balance S sim in
  if randomize_initial_balance cfg then
    '(x, g1) <-
       rng_lognormal g (fst (initial_balance_kwargs cfg))
                       (snd (initial_balance_kwargs cfg)) ;;
    let sim := set_equity S sim x in
    let sim := set_balance S sim (equity S sim) in
    Ok (sim, balance S sim, g1)
  else Ok (sim, initial, g).

(** [super().reset(seed=seed)]: gymnasium seeds a generator of its own,
    which this environment never reads, and refuses a negative seed. *)
Definition gym_reset (seed : option Z) : Result unit :=
  match seed with
  | Some s =>
      if (s <? 0)%Z then
        Raise (GymnasiumError "Seed must be greater or equal to zero")
      else Ok tt
  | None => Ok tt
  end.

(** The generator [reset] draws from: a new one when a seed is given. *)
Definition reset_rng (env : MtEnv Sim) (seed : option Z) : Generator :=
  match seed with
  | Some s => default_rng s
  | None => np_rng env
  end.

(** [MtEnv.reset]. *)
Definition reset (env : MtEnv Sim) (seed : option Z)
  : Result (MtEnv Sim * (Observation * Info)) :=
  _ <- gym_reset seed ;;
  let g := reset_rng env seed in
  '(sim, initial, g) <- initial_conditions g ;;
  '(start, stop, g) <-
     (if time_split cfg then sample_window g
      else Ok (start_tick env, end_tick env, g)) ;;
  let current := start in
  time <- py_index (time_points cfg) current ;;
  let sim := set_current_time S sim time in
  let history := [_create_info sim None None None] in
  observation <- _get_observation sim current ;;
  let info := _create_info sim None None None in
  Ok ({| np_rng := g; start_tick := start; end_tick := stop;
         truncated := false; current_tick := current; simulator := sim;
         history := history; initial_balance := initial |},
      (observation, info)).

(** [MtEnv.step]. *)
Definition step (env : MtEnv Sim) (action : list R)
  : Result (MtEnv Sim * StepResult) :=
  '(orders_info, closed_orders_info, sim, g) <-
     _apply_action action (simulator env) (np_rng env) ;;
  let current := (current_tick env + 1)%Z in
  let trunc := if (current =? end_tick env)%Z then true else truncated env in
  now <- py_index (time_points cfg) current ;;
  before <- py_index (time_points cfg) (current - 1) ;;
  let dt := (now - before)%Z in
  let sim := tick S sim dt in
  last <- py_index (history env) (-1) ;;
  step_reward <-
    (if log_reward cfg then
       _calculate_log_reward (info_equity last) (equity S sim)
     else
       r <- _calculate_reward (info_equity last) (equity S sim)
                              (initial_balance env) ;;
       Ok (Some r)) ;;
  terminal <- terminal_flag (done_if_equity_zero cfg) (loss_cut cfg)
                            (equity S sim) (initial_balance env) ;;
  let info :=
    _create_info sim (Some orders_info) (Some closed_orders_info)
                 (Some step_reward) in
  observation <- _get_observation sim current ;;
  let history := history env ++ [info] in
  let step_reward :=
    if risk_premium cfg then
      option_map
        (fun r => r - balance S sim * risk_free_rate cfg / 365.25) step_reward
    else step_reward in
  Ok ({| np_rng := g; start_tick := start_tick env; end_tick := end_tick env;
         truncated := trunc; current_tick := current; simulator := sim;
         history := history; initial_balance := initial_balance env |},
      {| r_observation := observation; r_reward := step_reward;
         r_terminated := terminal; r_truncated := trunc; r_info := info |}).

(** The states of an episode: what [reset] returns, and what [step]
    returns from one of them. *)
Inductive episode : MtEnv Sim -> Prop :=
| episode_reset : forall env seed env' out,
    reset env seed = Ok (env', out) -> episode env'
| episode_step : forall env action env' out,
    episode env -> step env action = Ok (env', out) -> episode env'.

(** The states of an environment: the one [__init__] builds, and those
    [reset] and [step] return from them. *)
Inductive reachable : MtEnv Sim -> Prop :=
| reachable_init : reachable init
| reachable_reset : forall env seed env' out,
    reachable env -> reset env seed = Ok (env', out) -> reachable env'
| reachable_step : forall env action env' out,
    reachable env -> step env action = Ok (env', out) -> reachable env'.

(** A run of [step] over a list of actions: the results, in order, up to
    and including the first exception if there is one. *)
Fixpoint run (env : MtEnv Sim) (actions : list (list R))
  : list (Result StepResult) :=
  match actions with
  | [] => []
  | a :: actions' =>
      match step env a with
      | Ok (env', r) => Ok r :: run env' actions'
      | Raise e => [Raise e]
      end
  end.

End Methods.

(** ** The simulator's contract *)

(** Modelled from the spec: [MtSimulator] (gym_mtsim/simulator) is not part
    of these sources.  The specification gives its interface as
    [symbolOrders(instrument)], the ordered list of open orders,
    [createOrder(...)], which returns the order or fails,
    [closeOrder(order)] and [advanceTime(delta)], and defines hedge mode as
    whether more than one concurrent order per instrument is permitted.
    Read on the open orders of a symbol: closing an open order takes that
    one order off its list and adds none to any list; a created order is
    the one order added; without hedging a symbol that had at most one
    open order still has at most one after a creation; advancing the time
    and assigning the balance, the equity or the current time open no
    order; and the mode is fixed. *)
Record SimulatorContract {Sim : Type} (S : Simulator Sim) : Prop := {
  close_removes : forall sim o s,
    In o (symbol_orders S sim s) ->
    Permutation (symbol_orders S sim s)
      (o :: symbol_orders S (fst (close_order S sim o)) s);
  close_adds_none : forall sim o s,
    (List.length (symbol_orders S (fst (close_order S sim o)) s)
     <= List.length (symbol_orders S sim s))%nat;
  create_adds_one : forall sim ty s v f o sim' s',
    create_order S sim ty s v f = inl (o, sim') ->
    (List.length (symbol_orders S sim' s')
     <= List.length (symbol_orders S sim s')
        + (if String.eqb s s' then 1 else 0))%nat;
  create_unhedged : forall sim ty s v f o sim' s',
    hedge S sim = false ->
    create_order S sim ty s v f = inl (o, sim') ->
    (List.length (symbol_orders S sim s') <= 1)%nat ->
    (List.length (symbol_orders S sim' s') <= 1)%nat;
  tick_adds_none : forall sim dt s,
    (List.length (symbol_orders S (tick S sim dt) s)
     <= List.length (symbol_orders S sim s))%nat;
  set_balance_orders : forall sim x s,
    symbol_orders S (set_balance S sim x) s = symbol_orders S sim s;
  set_equity_orders : forall sim x s,
    symbol_orders S (set_equity S sim x) s = symbol_orders S sim s;
  set_current_time_orders : forall sim t s,
    symbol_orders S (set_current_time S sim t) s = symbol_orders S sim s;
  close_hedge : forall sim o, hedge S (fst (close_order S sim o)) = hedge S sim;
  create_hedge : forall sim ty s v f o sim',
    create_order S sim ty s v f = inl (o, sim') -> hedge S sim' = hedge S sim;
  tick_hedge : forall sim dt, hedge S (tick S sim dt) = hedge S sim;
  set_balance_hedge : forall sim x, hedge S (set_balance S sim x) = hedge S sim;
  set_equity_hedge : forall sim x, hedge S (set_equity S sim x) = hedge S sim;
  set_current_time_hedge : forall sim t,
    hedge S (set_current_time S sim t) = hedge S sim
}.

(** The bound on the open orders of one symbol. *)
Definition order_bound {Sim : Type} (S : Simulator Sim) (cfg : Config Sim)
  (sim : Sim) : nat :=
  if hedge S sim then symbol_max_orders cfg else 1%nat.

(** The words [reset] draws: one for a random balance, two for a random
    sub-window. *)
Definition reset_draws {Sim : Type} (cfg : Config Sim) : nat :=
  (if randomize_initial_balance cfg then 1 else 0)
  + (if time_split cfg then 2 else 0).

(** The symbol [s] has at most [order_bound] open orders. *)
Definition within_bound {Sim : Type} (S : Simulator Sim) (cfg : Config Sim)
  (s : string) (sim : Sim) : Prop :=
  (List.length (symbol_orders S sim s) <= order_bound S cfg sim)%nat.

(** The window, the lengths of the sub-windows and the time axis are
    within [2^61] in magnitude: the bounds of the two draws of [reset] are
    [np.int64] values and no sum of [reset] wraps around. *)
Definition window_fits {Sim : Type} (cfg : Config Sim) : Prop :=
  (- 2 ^ 61 <= initial_start_tick cfg
   /\ max_end_tick cfg <= 2 ^ 61
   /\ - 2 ^ 61 <= min_time_split_length cfg <= 2 ^ 61
   /\ - 2 ^ 61 <= max_time_split_length cfg <= 2 ^ 61)%Z.

(** The sub-windows [reset] can sample: the upper bound of each draw is
    excluded. *)
Definition in_window {Sim : Type} (cfg : Config Sim) (start stop : Z) : Prop :=
  (initial_start_tick cfg <= start
     < max_end_tick cfg - min_time_split_length cfg
   /\ start + min_time_split_length cfg <= stop
      < Z.min (max_end_tick cfg) (start + max_time_split_length cfg))%Z.

(** A generator whose next two words are [a] and [b]. *)
Definition two_words (a b : Z) : Generator :=
  {| words := fun n => match n with O => a | _ => b end; cursor := 0 |}.

(** ** A small simulator

    An instance of the interface on which the statements below are tried:
    a balance, a list of open orders and a clock.  Every symbol has the
    same metadata, a request with a negative fee is refused, and without
    hedging a new order replaces the open order of its symbol. *)

Record Book : Type := {
  b_hedge : bool;
  b_balance : R;
  b_orders : list Order;
  b_time : Z;
  b_info : SymbolInfo
}.

Definition order_eq_dec (o1 o2 : Order) : {o1 = o2} + {o1 <> o2}.
Proof.
  decide equality;
    auto using Req_dec_T, Z.eq_dec, string_dec; decide equality.
Defined.

Fixpoint remove_first (o : Order) (l : list Order) : list Order :=
  match l with
  | [] => []
  | o' :: l' => if order_eq_dec o o' then l' else o' :: remove_first o l'
  end.

Definition of_symbol (s : string) (o : Order) : bool :=
  String.eqb (order_symbol o) s.

Definition book_create (b : Book) (ty : OrderType) (s : string) (v f : R)
  : (Order * Book) + string :=
  if Rltb f 0 then inr "negative fee"%string
  else
    let o := {| order_id := Z.of_nat (List.length (b_orders b)) + 1;
                order_symbol := s; order_type := ty; order_volume := v;
                order_fee := f; order_margin := v; order_profit := 0;
                order_entry_price := 1 |} in
    let kept :=
      if b_hedge b then b_orders b
      else filter (fun o' => negb (of_symbol s o')) (b_orders b) in
    inl (o, {| b_hedge := b_hedge b; b_balance := b_balance b;
               b_orders := kept ++ [o]; b_time := b_time b;
               b_info := b_info b |}).

Definition BookSimulator : Simulator Book :=
  {| hedge := b_hedge;
     balance := b_balance;
     equity := b_balance;
     margin := fun _ => 0;
     free_margin := b_balance;
     margin_level := fun _ => 0;
     set_balance := fun b x =>
       {| b_hedge := b_hedge b; b_balance := x; b_orders := b_orders b;
          b_time := b_time b; b_info := b_info b |};
     set_equity := fun b x =>
       {| b_hedge := b_hedge b; b_balance := x; b_orders := b_orders b;
          b_time := b_time b; b_info := b_info b |};
     set_current_time := fun b t =>
       {| b_hedge := b_hedge b; b_balance := b_balance b;
          b_orders := b_orders b; b_time := t; b_info := b_info b |};
     symbols_info := fun b _ => Some (b_info b);
     symbol_orders := fun b s => filter (of_symbol s) (b_orders b);
     close_order := fun b o =>
       ({| b_hedge := b_hedge b; b_balance := b_balance b + order_profit o;
           b_orders := remove_first o (b_orders b); b_time := b_time b;
           b_info := b_info b |}, o);
     create_order := book_create;
     tick := fun b dt =>
       {| b_hedge := b_hedge b; b_balance := b_balance b;
          b_orders := b_orders b; b_time := (b_time b + dt)%Z;
          b_info := b_info b |} |}.

(** Metadata of a symbol, as MetaTrader gives it for a currency pair. *)
Definition lot_info : SymbolInfo :=
  {| volume_min := 0.01; volume_max := 500; volume_step := 0.01 |}.

(** Metadata whose smallest volume is not a multiple of the step. *)
Definition coarse_info : SymbolInfo :=
  {| volume_min := 0.01; volume_max := 100; volume_step := 0.1 |}.

Definition empty_book (h : bool) (si : SymbolInfo) : Book :=
  {| b_hedge := h; b_balance := 10000; b_orders := []; b_time := 0;
     b_info := si |}.

(** A configuration over the small simulator: two symbols, a window of one
    tick, twenty time points, and the defaults of [__init__] elsewhere. *)
Definition book_config (si : SymbolInfo) (h : bool) (f : Fee) (split : bool)
  : Config Book :=
  {| original_simulator := empty_book h si;
     trading_symbols := ["EURUSD"%string; "GBPCAD"%string];
     window_size := 1;
     time_points := map Z.of_nat (seq 0 20);
     fee := f;
     symbol_max_orders := 1;
     signal_features := repeat [1; 1; 1; 1] 20;
     preprocess := Some arcsinh;
     randomize_initial_balance := false;
     initial_balance_kwargs := (9, 1 / 10);
     time_split := split;
     min_time_split_length := 10;
     max_time_split_length := 200;
     risk_free_rate := 0.02;
     risk_premium := false;
     done_if_equity_zero := false;
     loss_cut := None;
     log_reward := false;
     seed := 42 |}.

(** The default fee; full episodes. *)
Definition plain_config : Config Book :=
  book_config lot_info true (FixedFee 0.0005) false.

(** Random sub-windows. *)
Definition split_config : Config Book :=
  book_config lot_info true (FixedFee 0.0005) true.

(** A fee the small simulator refuses. *)
Definition refusing_config : Config Book :=
  book_config lot_info true (FixedFee (-1)) false.

(** Symbols with the coarse metadata. *)
Definition coarse_config : Config Book :=
  book_config coarse_info true (FixedFee 0.0005) false.

(** A word stream that is zero everywhere, a generator on it, a variate of
    zero for every word, and the seeding that gives that stream. *)
Definition zero_words : nat -> Z := fun _ => 0%Z.
Definition zero_rng : Generator := {| words := zero_words; cursor := 0 |}.
Definition zero_gauss : Z -> R := fun _ => 0.
Definition zero_seed : Z -> nat -> Z := fun _ => zero_words.

(** The action that is zero in every component, for two symbols with one
    order slot each. *)
Definition zero_action : list R := [0; 0; 0; 0; 0; 0].

(** The environment of a result, or [otherwise] when it is an exception. *)
Definition state_of {Sim A : Type} (r : Result (MtEnv Sim * A))
  (otherwise : MtEnv Sim) : MtEnv Sim :=
  match r with
  | Ok (env, _) => env
  | Raise _ => otherwise
  end.

(** The small environment after its first [reset]. *)
Definition book_start (cfg : Config Book) : MtEnv Book :=
  state_of (reset BookSimulator zero_gauss zero_seed cfg (init zero_seed cfg) None)
           (init zero_seed cfg).

(** The small environment after its first [reset] and one [step] on the
    zero action. *)
Definition book_next (cfg : Config Book) : MtEnv Book :=
  state_of (step BookSimulator cfg (book_start cfg) zero_action)
           (book_start cfg).

(** What [prepare] finds for a symbol of the small environment that has no
    open order, on the zero action and the zero stream read from word [n],
    over the metadata [si]: the symbol is not held and nothing is closed. *)
Definition zero_prepared (si : SymbolInfo) (n : nat) : Prepared Book :=
  {| p_hold_probability := logit_probability 0;
     p_hold := false;
     p_volume := 0 * 100;
     p_modified_volume :=
       IZR (py_round (np_clip (Rabs (0 * 100)) (volume_min si) (volume_max si)
                      / volume_step si))
       * volume_step si;
     p_capacity := 1;
     p_closed := [];
     p_sim := empty_book true si;
     p_rng := {| words := zero_words; cursor := S n |} |}.

Definition first_prepared (si : SymbolInfo) : Prepared Book :=
  zero_prepared si 0.

(** The dictionary [_apply_action] starts [closed_orders_info] with. *)
Definition no_closed_orders {Sim : Type} (cfg : Config Sim)
  : Dict (list ClosedOrder) :=
  fold_left (fun d symbol => dict_set d symbol []) (trading_symbols cfg) [].

(** [p] with another hold decision. *)
Definition with_hold {Sim : Type} (p : Prepared Sim) (h : bool) : Prepared Sim :=
  {| p_hold_probability := p_hold_probability p; p_hold := h;
     p_volume := p_volume p; p_modified_volume := p_modified_volume p;
     p_capacity := p_capacity p; p_closed := p_closed p;
     p_sim := p_sim p; p_rng := p_rng p |}.

(** ** The initial balance ([gym_mtsim/envs/misc.py]) *)

(** [make_log_normal_parameter]: the parameters of the log-normal
    distribution with the given mean and standard deviation.  [mu] is a
    [np.log], finite on a positive argument only; the quotient
    [stddev / mean] is a division of Python numbers. *)
Definition make_log_normal_parameter (mean stddev : R)
  : Result (option R * R) :=
  let mu := np_log (mean ^ 2 / sqrt (mean ^ 2 + stddev ^ 2)) in
  q <- py_div stddev mean ;;
  let sigma := sqrt (ln (1 + q ^ 2)) in
  Ok (mu, sigma).

(** ** Reading the history *)



(** ** More configurations of the small environment *)

(** A random initial balance, with the parameters [__init__] takes from
    [make_log_normal_parameter]; the other fields are [plain_config]'s. *)
Definition random_config : Config Book :=
  {| original_simulator := original_simulator plain_config;
     trading_symbols := trading_symbols plain_config;
     window_size := window_size plain_config;
     time_points := time_points plain_config;
     fee := fee plain_config;
     symbol_max_orders := symbol_max_orders plain_config;
     signal_features := signal_features plain_config;
     preprocess := preprocess plain_config;
     randomize_initial_balance := true;
     initial_balance_kwargs :=
       (ln (10000 ^ 2 / sqrt (10000 ^ 2 + 1000 ^ 2)),
        sqrt (ln (1 + (1000 / 10000) ^ 2)));
     time_split := time_split plain_config;
     min_time_split_length := min_time_split_length plain_config;
     max_time_split_length := max_time_split_length plain_config;
     risk_free_rate := risk_free_rate plain_config;
     risk_premium := risk_premium plain_config;
     done_if_equity_zero := done_if_equity_zero plain_config;
     loss_cut := loss_cut plain_config;
     log_reward := log_reward plain_config;
     seed := seed plain_config |}.

(** ** The markers of [_render_simple_figure] *)

(** The five lists of ticks the figure marks for one symbol. *)
Record Markers : Type := {
  buy_ticks : list Z;
  buy_error_ticks : list Z;
  sell_ticks : list Z;
  sell_error_ticks : list Z;
  close_ticks : list Z
}.

Definition no_markers : Markers :=
  {| buy_ticks := []; buy_error_ticks := []; sell_ticks := [];
     sell_error_ticks := []; close_ticks := [] |}.

(** A string as a condition: the empty string is false. *)
Definition py_bool (s : string) : bool :=
  match s with
  | EmptyString => false
  | _ => true
  end.

(** [d[key]] on the optional entries of an info record. *)
Definition info_key {A : Type} (entry : option A) : Result A :=
  match entry with
  | Some a => Ok a
  | None => Raise KeyError
  end.

(** The marker of an entry of [orders_info]: none for a held symbol; for a
    symbol that is not held, by [order_type == OrderType.Buy] and then by
    [error]. *)
Definition mark_order (order : OrderIntent) (tick : Z) (m : Markers)
  : Markers :=
  if negb (i_hold order) then
    match i_order_type order with
    | Some Buy =>
        if py_bool (i_error order) then
          {| buy_ticks := buy_ticks m;
             buy_error_ticks := buy_error_ticks m ++ [tick];
             sell_ticks := sell_ticks m;
             sell_error_ticks := sell_error_ticks m;
             close_ticks := close_ticks m |}
        else
          {| buy_ticks := buy_ticks m ++ [tick];
             buy_error_ticks := buy_error_ticks m;
             sell_ticks := sell_ticks m;
             sell_error_ticks := sell_error_ticks m;
             close_ticks := close_ticks m |}
    | _ =>
        if py_bool (i_error order) then
          {| buy_ticks := buy_ticks m;
             buy_error_ticks := buy_error_ticks m;
             sell_ticks := sell_ticks m;
             sell_error_ticks := sell_error_ticks m ++ [tick];
             close_ticks := close_ticks m |}
        else
          {| buy_ticks := buy_ticks m;
             buy_error_ticks := buy_error_ticks m;
             sell_ticks := sell_ticks m ++ [tick];
             sell_error_ticks := sell_error_ticks m;
             close_ticks := close_ticks m |}
    end
  else m.

(** The body of the loop over the history, for the record [self.history[i]]
    and [tick = self._start_tick + i - 1]. *)
Definition mark_record (symbol : string) (tick : Z) (record : Info)
  (m : Markers) : Result Markers :=
  orders <- info_key (info_orders record) ;;
  let m :=
    match dict_get orders symbol with
    | Some order => mark_order order tick m
    | None => m
    end in
  closed <- info_key (info_closed_orders record) ;;
  let closed_orders :=
    match dict_get closed symbol with
    | Some l => l
    | None => []
    end in
  Ok (if (0 <? List.length closed_orders)%nat then
        {| buy_ticks := buy_ticks m;
           buy_error_ticks := buy_error_ticks m;
           sell_ticks := sell_ticks m;
           sell_error_ticks := sell_error_ticks m;
           close_ticks := close_ticks m ++ [tick] |}
      else m).

(** The loop [for i in range(1, len(self.history))], from the record
    number [i] on. *)
Fixpoint mark_records (symbol : string) (start : Z) (i : nat)
  (records : list Info) (m : Markers) : Result Markers :=
  match records with
  | [] => Ok m
  | record :: records' =>
      m' <- mark_record symbol (start + Z.of_nat i - 1) record m ;;
      mark_records symbol start (S i) records' m'
  end.

(** The markers [_render_simple_figure] computes for one symbol. *)
Definition simple_figure_markers {Sim : Type} (env : MtEnv Sim)
  (symbol : string) : Result Markers :=
  mark_records symbol (start_tick env) 1 (tl (history env)) no_markers.

(** Every tick the figure marks for the symbol. *)
Definition marked_ticks (m : Markers) : list Z :=
  buy_ticks m ++ buy_error_ticks m ++ sell_ticks m ++ sell_error_ticks m
  ++ close_ticks m.

(** ** The markers of [_render_advanced_figure]

    The hover texts are formatted from numbers and strings that every
    record has, and are left out. *)

Inductive MarkerSymbol : Type := TriangleUp | TriangleDown.

Inductive MarkerColor : Type := Gray | Green | Red.

(** One entry of [trade_ticks], [trade_markers], [trade_colors] and
    [trade_sizes]. *)
Record Trade : Type := {
  t_tick : Z;
  t_marker : MarkerSymbol;
  t_color : MarkerColor;
  t_size : R
}.

(** [max] of a list, which raises on the empty list. *)
Definition py_max (l : list R) : Result R :=
  match l with
  | [] => Raise (ValueError "max() arg is an empty sequence")
  | x :: l' => Ok (fold_left Rmax l' x)
  end.

(** [h.get('orders', {}).get(symbol, {}).get('modified_volume') or 0]. *)
Definition entry_volume (symbol : string) (h : Info) : R :=
  match info_orders h with
  | Some orders =>
      match dict_get orders symbol with
      | Some order => i_modified_volume order
      | None => 0
      end
  | None => 0
  end.

(** The marker of an entry that is not held: its size from the modified
    volume over [trade_max_volume], its symbol by
    [order_type == OrderType.Buy], its colour by [error]. *)
Definition trade_marker (order : OrderIntent) (tick : Z)
  (trade_max_volume : R) : Result Trade :=
  q <- py_div (i_modified_volume order) trade_max_volume ;;
  let size := 8 + 22 * q in
  Ok (match i_order_type order with
      | Some Buy =>
          {| t_tick := tick; t_marker := TriangleUp;
             t_color := if py_bool (i_error order) then Gray else Green;
             t_size := size |}
      | _ =>
          {| t_tick := tick; t_marker := TriangleDown;
             t_color := if py_bool (i_error order) then Gray else Red;
             t_size := size |}
      end).

(** The loop [for i in range(1, len(self.history))] of the advanced
    figure, from the record number [i] on: the trades and the close
    ticks. *)
Fixpoint trade_records (symbol : string) (start : Z) (i : nat)
  (records : list Info) (trade_max_volume : R)
  (trades : list Trade) (closes : list Z) : Result (list Trade * list Z) :=
  match records with
  | [] => Ok (trades, closes)
  | record :: records' =>
      let tick := (start + Z.of_nat i - 1)%Z in
      orders <- info_key (info_orders record) ;;
      trades <-
        match dict_get orders symbol with
        | Some order =>
            if negb (i_hold order) then
              t <- trade_marker order tick trade_max_volume ;;
              Ok (trades ++ [t])
            else Ok trades
        | None => Ok trades
        end ;;
      closed <- info_key (info_closed_orders record) ;;
      let closed_orders :=
        match dict_get closed symbol with
        | Some l => l
        | None => []
        end in
      let closes :=
        if (0 <? List.length closed_orders)%nat then closes ++ [tick]
        else closes in
      trade_records symbol start (S i) records' trade_max_volume trades closes
  end.

(** The markers [_render_advanced_figure] computes for one symbol. *)
Definition advanced_figure_markers {Sim : Type} (env : MtEnv Sim)
  (symbol : string) : Result (list Trade * list Z) :=
  trade_max_volume <- py_max (map (entry_volume symbol) (history env)) ;;
  trade_records symbol (start_tick env) 1 (tl (history env))
    trade_max_volume [] [].

(** ** The small environment with open orders *)

(** A risk premium on the returned reward; the other fields are
    [plain_config]'s. *)
Definition premium_config : Config Book :=
  {| original_simulator := original_simulator plain_config;
     trading_symbols := trading_symbols plain_config;
     window_size := window_size plain_config;
     time_points := time_points plain_config;
     fee := fee plain_config;
     symbol_max_orders := symbol_max_orders plain_config;
     signal_features := signal_features plain_config;
     preprocess := preprocess plain_config;
     randomize_initial_balance := randomize_initial_balance plain_config;
     initial_balance_kwargs := initial_balance_kwargs plain_config;
     time_split := time_split plain_config;
     min_time_split_length := min_time_split_length plain_config;
     max_time_split_length := max_time_split_length plain_config;
     risk_free_rate := risk_free_rate plain_config;
     risk_premium := true;
     done_if_equity_zero := done_if_equity_zero plain_config;
     loss_cut := loss_cut plain_config;
     log_reward := log_reward plain_config;
     seed := seed plain_config |}.

(** Two time points under a window of two ticks, so that an episode
    starts on the last time point; the other fields are [plain_config]'s. *)
Definition brief_config : Config Book :=
  {| original_simulator := original_simulator plain_config;
     trading_symbols := trading_symbols plain_config;
     window_size := 2;
     time_points := [0; 1]%Z;
     fee := fee plain_config;
     symbol_max_orders := symbol_max_orders plain_config;
     signal_features := repeat [1; 1; 1; 1] 2;
     preprocess := preprocess plain_config;
     randomize_initial_balance := randomize_initial_balance plain_config;
     initial_balance_kwargs := initial_balance_kwargs plain_config;
     time_split := time_split plain_config;
     min_time_split_length := min_time_split_length plain_config;
     max_time_split_length := max_time_split_length plain_config;
     risk_free_rate := risk_free_rate plain_config;
     risk_premium := risk_premium plain_config;
     done_if_equity_zero := done_if_equity_zero plain_config;
     loss_cut := loss_cut plain_config;
     log_reward := log_reward plain_config;
     seed := seed plain_config |}.

(** The small hedging simulator at time [t], with no open order. *)
Definition idle_book (t : Z) : Book :=
  {| b_hedge := true; b_balance := 10000; b_orders := []; b_time := t;
     b_info := lot_info |}.

(** A word stream of 64 one bits everywhere. *)
Definition ones_words : nat -> Z := fun _ => (2 ^ 64 - 1)%Z.

(** Random sub-windows of at least nineteen ticks, for which twenty time
    points leave no start; the other fields are [split_config]'s. *)
Definition cramped_config : Config Book :=
  {| original_simulator := original_simulator split_config;
     trading_symbols := trading_symbols split_config;
     window_size := window_size split_config;
     time_points := time_points split_config;
     fee := fee split_config;
     symbol_max_orders := symbol_max_orders split_config;
     signal_features := signal_features split_config;
     preprocess := preprocess split_config;
     randomize_initial_balance := randomize_initial_balance split_config;
     initial_balance_kwargs := initial_balance_kwargs split_config;
     time_split := true;
     min_time_split_length := 19;
     max_time_split_length := max_time_split_length split_config;
     risk_free_rate := risk_free_rate split_config;
     risk_premium := risk_premium split_config;
     done_if_equity_zero := done_if_equity_zero split_config;
     loss_cut := loss_cut split_config;
     log_reward := log_reward split_config;
     seed := seed split_config |}.

(** The size the zero action asks for over the metadata [si]. *)
Definition zero_volume (si : SymbolInfo) : R :=
  IZR (py_round (np_clip (Rabs (0 * 100)) (volume_min si) (volume_max si)
                 / volume_step si))
  * volume_step si.

(** What [prepare] finds on the zero action and the zero stream for a
    symbol of the simulator [sim] that has [n] open orders: the symbol is
    not held and no order is closed; [c] is the cursor afterwards. *)
Definition still_prepared (si : SymbolInfo) (sim : Book) (n c : nat)
  : Prepared Book :=
  {| p_hold_probability := logit_probability 0;
     p_hold := false;
     p_volume := 0 * 100;
     p_modified_volume := zero_volume si;
     p_capacity := (1 - (Z.of_nat n - 0))%Z;
     p_closed := [];
     p_sim := sim;
     p_rng := {| words := zero_words; cursor := c |} |}.

(** The order the small simulator creates for the zero action: a Sell of
    [zero_volume]. *)
Definition zero_order (si : SymbolInfo) (f : R) (id : Z) (s : string)
  : Order :=
  {| order_id := id; order_symbol := s; order_type := Sell;
     order_volume := zero_volume si; order_fee := f;
     order_margin := zero_volume si; order_profit := 0;
     order_entry_price := 1 |}.

(** The small simulator at time [t] with one such order per symbol. *)
Definition traded_book (t : Z) : Book :=
  {| b_hedge := true; b_balance := 10000;
     b_orders := [zero_order lot_info 0.0005 1 "EURUSD";
                  zero_order lot_info 0.0005 2 "GBPCAD"];
     b_time := t; b_info := lot_info |}.

(** * Properties *)

(** ** Floats, division and rounding *)

Lemma Rltb_true (x y : R) : Rltb x y = true <-> x < y.
Proof. unfold Rltb; destruct (Rlt_dec x y); split; intros; congruence || assumption. Qed.

Lemma Rltb_false (x y : R) : Rltb x y = false <-> y <= x.
Proof.
  unfold Rltb; destruct (Rlt_dec x y); split; intros; try congruence; lra.
Qed.

Lemma Reqb_true (x y : R) : Reqb x y = true <-> x = y.
Proof. unfold Reqb; destruct (Req_dec_T x y); split; intros; congruence. Qed.

Lemma Reqb_false (x y : R) : Reqb x y = false <-> x <> y.
Proof. unfold Reqb; destruct (Req_dec_T x y); split; intros; congruence. Qed.

Lemma py_div_ok (x y : R) : y <> 0 -> py_div x y = Ok (x / y).
Proof. intros H; unfold py_div; apply Reqb_false in H; now rewrite H. Qed.

Lemma py_round_floor_or_next (x : R) :
  py_round x = Zfloor x \/ py_round x = (Zfloor x + 1)%Z.
Proof.
  unfold py_round.
  destruct (Rlt_dec _ _); [now left|].
  destruct (Rlt_dec _ _); [now right|].
  destruct (Z.even _); [now left | now right].
Qed.

Lemma py_round_ge (a : Z) (x : R) : IZR a <= x -> (a <= py_round x)%Z.
Proof.
  intros H. apply Zfloor_lub in H.
  destruct (py_round_floor_or_next x) as [-> | ->]; lia.
Qed.

Lemma py_round_le (b : Z) (x : R) : x <= IZR b -> (py_round x <= b)%Z.
Proof.
  intros H.
  pose proof (Zfloor_bound x) as [Hlo Hhi].
  assert (Hfb : (Zfloor x <= b)%Z) by (apply le_IZR; lra).
  destruct (Z.eq_dec (Zfloor x) b) as [E | NE].
  - unfold py_round. rewrite E in *.
    destruct (Rlt_dec (x - IZR b) (1 / 2)); [lia | lra].
  - destruct (py_round_floor_or_next x) as [-> | ->]; lia.
Qed.

Lemma py_round_near (z : Z) (x : R) :
  IZR z - 1 / 2 < x < IZR z + 1 / 2 -> py_round x = z.
Proof.
  intros [Hlo Hhi].
  pose proof (Zfloor_bound x) as [Flo Fhi].
  assert (Hc : (Zfloor x = z \/ Zfloor x = z - 1)%Z).
  { assert (IZR (Zfloor x) < IZR (z + 1)) by (rewrite plus_IZR; lra).
    assert (IZR (z - 2) < IZR (Zfloor x)) by (rewrite minus_IZR; lra).
    apply lt_IZR in H, H0. lia. }
  unfold py_round.
  destruct Hc as [E | E]; rewrite E in *.
  - destruct (Rlt_dec (x - IZR z) (1 / 2)); [reflexivity | lra].
  - rewrite minus_IZR in *.
    destruct (Rlt_dec (x - (IZR z - 1)) (1 / 2)); [lra |].
    destruct (Rlt_dec (1 / 2) (x - (IZR z - 1))); [lia | lra].
Qed.

(** ** Termination *)

Lemma terminal_flag_spec (dez : bool) (lc : option R) (eq0 ib : R) :
  ib <> 0 ->
  terminal_flag dez lc eq0 ib =
  Ok match lc with
     | Some r => Rltb (eq0 / ib) r
     | None => dez && Reqb eq0 0
     end.
Proof.
  intros H. unfold terminal_flag. destruct lc.
  - rewrite py_div_ok by assumption. reflexivity.
  - destruct dez; reflexivity.
Qed.

Lemma terminal_flag_agrees (dez : bool) (lc : option R) (eq0 ib : R) (b : bool) :
  ib <> 0 ->
  (forall r, lc = Some r -> 0 < r) ->
  terminal_flag dez lc eq0 ib = Ok b ->
  (b = true
   <-> (dez = true /\ eq0 = 0) \/ (exists r, lc = Some r /\ eq0 / ib < r)).
Proof.
  intros Hib Hpos H. rewrite terminal_flag_spec in H by assumption.
  inversion H as [Hb]; clear H. destruct lc as [r |].
  - specialize (Hpos r eq_refl). rewrite Rltb_true. split.
    + intros Hlt. right. eauto.
    + intros [[_ Hz] | (r' & Hr' & Hlt)].
      * subst eq0. unfold Rdiv. rewrite Rmult_0_l. exact Hpos.
      * now inversion Hr'; subst.
  - rewrite andb_true_iff, Reqb_true. split.
    + intros [? ?]. left. now split.
    + intros [? | (r & Hr & _)]; [assumption | discriminate].
Qed.

Lemma np_clip_bounds (x lo hi : R) : lo <= hi -> lo <= np_clip x lo hi <= hi.
Proof.
  intros H. unfold np_clip, Rmin, Rmax.
  destruct (Rle_dec x lo); destruct (Rle_dec _ hi); lra.
Qed.

Lemma modified_volume_step (si : SymbolInfo) (volume : R) :
  volume_step si <> 0 ->
  modified_volume si volume =
  Ok (IZR (py_round (np_clip (Rabs volume) (volume_min si) (volume_max si)
                     / volume_step si)) * volume_step si).
Proof.
  intros H. unfold modified_volume. apply Reqb_false in H. now rewrite H.
Qed.

Lemma coarse_volume_zero : modified_volume coarse_info (0 * 100) = Ok 0.
Proof.
  rewrite modified_volume_step by (simpl; lra).
  replace (np_clip (Rabs (0 * 100)) (volume_min coarse_info)
             (volume_max coarse_info)) with 0.01.
  2:{ unfold np_clip, Rmin, Rmax; simpl. rewrite Rmult_0_l, Rabs_R0.
      destruct (Rle_dec 0 0.01); [|lra]. destruct (Rle_dec 0.01 100); lra. }
  rewrite (py_round_near 0) by (simpl; lra).
  f_equal. lra.
Qed.

(** Claim C2, as stated, fails: for a symbol whose smallest volume 0.01 is
    not a multiple of its step 0.1, the raw volume 0 is clipped to 0.01 and
    rounded to 0, which is below the smallest volume. *)
Theorem modified_volume_below_volume_min :
  _get_modified_volume BookSimulator (empty_book true coarse_info) "EURUSD"
    (0 * 100) = Ok 0
  /\ ~ (volume_min coarse_info <= 0 <= volume_max coarse_info).
Proof.
  split; [exact coarse_volume_zero | simpl; lra].
Qed.

Lemma modified_volume_lower (si : SymbolInfo) (volume : R) (a : Z) :
  0 < volume_step si ->
  volume_min si = IZR a * volume_step si ->
  volume_min si <= volume_max si ->
  volume_min si
  <= IZR (py_round (np_clip (Rabs volume) (volume_min si) (volume_max si)
                    / volume_step si)) * volume_step si.
Proof.
  intros Hstep Hmin Hle.
  set (v := np_clip (Rabs volume) (volume_min si) (volume_max si)).
  pose proof (np_clip_bounds (Rabs volume) _ _ Hle) as [Hlo _]. fold v in Hlo.
  assert (Ha : IZR a <= v / volume_step si).
  { apply Rmult_le_reg_r with (volume_step si); [lra|].
    unfold Rdiv. rewrite Rmult_assoc, Rinv_l by lra. lra. }
  apply py_round_ge, IZR_le in Ha.
  rewrite Hmin. apply Rmult_le_compat_r; lra.
Qed.

Lemma modified_volume_upper (si : SymbolInfo) (volume : R) (b : Z) :
  0 < volume_step si ->
  volume_max si = IZR b * volume_step si ->
  volume_min si <= volume_max si ->
  IZR (py_round (np_clip (Rabs volume) (volume_min si) (volume_max si)
                 / volume_step si)) * volume_step si
  <= volume_max si.
Proof.
  intros Hstep Hmax Hle.
  set (v := np_clip (Rabs volume) (volume_min si) (volume_max si)).
  pose proof (np_clip_bounds (Rabs volume) _ _ Hle) as [_ Hhi]. fold v in Hhi.
  assert (Hb : v / volume_step si <= IZR b).
  { apply Rmult_le_reg_r with (volume_step si); [lra|].
    unfold Rdiv. rewrite Rmult_assoc, Rinv_l by lra. lra. }
  apply py_round_le, IZR_le in Hb.
  rewrite Hmax. apply Rmult_le_compat_r; lra.
Qed.

Section Volumes.
Context {Sim : Type} (S : Simulator Sim).

(** Claim C2, amended.  For a symbol whose step is positive and whose
    smallest and largest volumes are integer multiples of the step, the
    smallest not above the largest, [_get_modified_volume] returns, for
    every raw volume, an integer multiple of the step within
    [[volume_min, volume_max]]. *)
Theorem modified_volume_within_bounds (sim : Sim) (symbol : string)
  (si : SymbolInfo) (volume : R) (a b : Z) :
  symbols_info S sim symbol = Some si ->
  0 < volume_step si ->
  volume_min si = IZR a * volume_step si ->
  volume_max si = IZR b * volume_step si ->
  volume_min si <= volume_max si ->
  exists k : Z,
    _get_modified_volume S sim symbol volume = Ok (IZR k * volume_step si)
    /\ volume_min si <= IZR k * volume_step si <= volume_max si.
Proof.
  intros Hsi Hstep Hmin Hmax Hle.
  unfold _get_modified_volume. rewrite Hsi.
  rewrite modified_volume_step by lra.
  eexists. split; [reflexivity|]. split.
  - now apply modified_volume_lower with a.
  - now apply modified_volume_upper with b.
Qed.
End Volumes.

(** The boundary action value 1, scaled to 100, on a currency pair. *)
Lemma modified_volume_within_bounds_example :
  exists k : Z,
    _get_modified_volume BookSimulator (empty_book true lot_info) "EURUSD" (1 * 100)
    = Ok (IZR k * volume_step lot_info)
    /\ volume_min lot_info <= IZR k * volume_step lot_info <= volume_max lot_info.
Proof.
  apply (modified_volume_within_bounds BookSimulator (empty_book true lot_info)
           "EURUSD" lot_info (1 * 100) 1 50000); simpl; try reflexivity; lra.
Defined.

(** ** Rewards *)

Lemma double_range : 0 < double_underflow < / 4 /\ 4 < double_overflow.
Proof.
  unfold double_underflow, double_overflow.
  assert (H : 4 < IZR (2 ^ 1075)) by (apply (IZR_lt 4); reflexivity).
  split; [split|].
  - apply Rinv_0_lt_compat. lra.
  - apply Rinv_lt_contravar; [| exact H].
    apply Rmult_lt_0_compat; lra.
  - apply (IZR_lt 4). reflexivity.
Qed.

Lemma to_double_finite (x : R) :
  double_underflow < Rabs x < double_overflow -> to_double x = Some x.
Proof.
  intros [Hl Hu]. unfold to_double.
  destruct (Rle_dec double_overflow (Rabs x)); [lra|].
  destruct (Rle_dec (Rabs x) double_underflow); [lra | reflexivity].
Qed.

Lemma log_reward_positive (prev cur : R) :
  0 < prev -> 0 < cur ->
  double_underflow < cur / prev < double_overflow ->
  _calculate_log_reward prev cur = Ok (Some (ln (cur / prev))).
Proof.
  intros Hp Hc Hq. unfold _calculate_log_reward.
  apply Rltb_true in Hp as Hp', Hc as Hc'. rewrite Hp', Hc'. simpl.
  rewrite py_div_ok by lra. simpl.
  assert (H : 0 < cur / prev) by (apply Rdiv_lt_0_compat; assumption).
  rewrite to_double_finite by (rewrite Rabs_pos_eq; lra).
  unfold np_log. apply Rltb_true in H. now rewrite H.
Qed.

Lemma log_reward_out_of_range (prev cur : R) :
  0 < prev -> 0 < cur ->
  cur / prev <= double_underflow \/ double_overflow <= cur / prev ->
  _calculate_log_reward prev cur = Ok None.
Proof.
  intros Hp Hc Hq. unfold _calculate_log_reward.
  apply Rltb_true in Hp as Hp', Hc as Hc'. rewrite Hp', Hc'. simpl.
  rewrite py_div_ok by lra. simpl.
  assert (H : 0 < cur / prev) by (apply Rdiv_lt_0_compat; assumption).
  pose proof double_range as [[Hu0 Hu] Ho].
  unfold to_double. rewrite Rabs_pos_eq by lra.
  destruct (Rle_dec double_overflow (cur / prev)); [reflexivity|].
  destruct (Rle_dec (cur / prev) double_underflow); [| lra].
  unfold np_log.
  replace (Rltb 0 0) with false; [reflexivity|].
  symmetry. apply Rltb_false. lra.
Qed.

Lemma log_reward_floor (prev cur : R) :
  prev <= 0 \/ cur <= 0 ->
  _calculate_log_reward prev cur = Ok (Some (-10)).
Proof.
  intros H. unfold _calculate_log_reward.
  destruct H as [H | H]; apply Rltb_false in H; rewrite H; simpl.
  - reflexivity.
  - now rewrite andb_false_r.
Qed.

Lemma log_reward_cases (prev cur : R) :
  (0 < prev /\ 0 < cur
   /\ double_underflow < cur / prev < double_overflow
   /\ _calculate_log_reward prev cur = Ok (Some (ln (cur / prev))))
  \/ (0 < prev /\ 0 < cur
      /\ (cur / prev <= double_underflow \/ double_overflow <= cur / prev)
      /\ _calculate_log_reward prev cur = Ok None)
  \/ ((prev <= 0 \/ cur <= 0)
      /\ _calculate_log_reward prev cur = Ok (Some (-10))).
Proof.
  destruct (Rlt_dec 0 prev) as [Hp | Hp]; destruct (Rlt_dec 0 cur) as [Hc | Hc].
  - destruct (Rle_dec (cur / prev) double_underflow) as [Hu | Hu].
    + right. left. repeat split; try assumption; [now left|].
      apply log_reward_out_of_range; try assumption. now left.
    + destruct (Rle_dec double_overflow (cur / prev)) as [Ho | Ho].
      * right. left. repeat split; try assumption; [now right|].
        apply log_reward_out_of_range; try assumption. now right.
      * left. repeat split; try assumption; try lra.
        apply log_reward_positive; try assumption. lra.
  - right. right. split; [right; lra | apply log_reward_floor; right; lra].
  - right. right. split; [left; lra | apply log_reward_floor; left; lra].
  - right. right. split; [left; lra | apply log_reward_floor; left; lra].
Qed.

(** Claim C4, amended.  The logarithmic reward is [ln (current / previous)]
    when both equities are positive and their quotient is within the range
    of a double, and the floor -10 when either equity is not positive; it
    is [ln 0.5] at (100, 50) and the floor at (100, 0); it never raises;
    and it is not finite exactly when both equities are positive and their
    quotient overflows to an infinity or underflows to zero. *)
Theorem log_reward_total :
  (forall prev cur : R,
      (0 < prev /\ 0 < cur
       /\ double_underflow < cur / prev < double_overflow
       /\ _calculate_log_reward prev cur = Ok (Some (ln (cur / prev))))
      \/ (0 < prev /\ 0 < cur
          /\ (cur / prev <= double_underflow
              \/ double_overflow <= cur / prev)
          /\ _calculate_log_reward prev cur = Ok None)
      \/ ((prev <= 0 \/ cur <= 0)
          /\ _calculate_log_reward prev cur = Ok (Some (-10))))
  /\ _calculate_log_reward 100 50 = Ok (Some (ln 0.5))
  /\ _calculate_log_reward 100 0 = Ok (Some (-10))
  /\ (forall prev cur : R,
        exists r : option R, _calculate_log_reward prev cur = Ok r)
  /\ (forall prev cur : R,
        _calculate_log_reward prev cur = Ok None
        <-> 0 < prev /\ 0 < cur
            /\ (cur / prev <= double_underflow
                \/ double_overflow <= cur / prev)).
Proof.
  pose proof double_range as [[Hu0 Hu] Ho].
  split; [exact log_reward_cases|]. split; [| split; [| split]].
  - rewrite log_reward_positive by lra. do 3 f_equal. lra.
  - apply log_reward_floor. right. lra.
  - intros prev cur.
    destruct (log_reward_cases prev cur)
      as [(_ & _ & _ & ->) | [(_ & _ & _ & ->) | (_ & ->)]]; eauto.
  - intros prev cur. split.
    + intros H.
      destruct (log_reward_cases prev cur)
        as [(_ & _ & _ & E) | [(Hp & Hc & Hq & _) | (_ & E)]];
        [rewrite E in H; discriminate | auto | rewrite E in H; discriminate].
    + intros (Hp & Hc & Hq). now apply log_reward_out_of_range.
Qed.

(** Claim C4, as stated, fails: the quotient of the positive equities
    1e308 and 1e-308 overflows, and the reward is its logarithm, an
    infinity. *)
Theorem log_reward_overflows :
  _calculate_log_reward 1e-308 1e308 = Ok None.
Proof.
  assert (HP : 0 < IZR (Z.pow_pos 10 308)) by (apply (IZR_lt 0); reflexivity).
  apply log_reward_out_of_range.
  - apply Rdiv_lt_0_compat; lra.
  - lra.
  - right. unfold double_overflow.
    replace (1e308 / 1e-308)
      with (IZR (Z.pow_pos 10 308 * Z.pow_pos 10 308))
      by (rewrite mult_IZR; field; lra).
    apply IZR_le. apply Z.leb_le. vm_compute. reflexivity.
Qed.



(** ** The sub-window of an episode *)

Lemma bind_ok {A B : Type} (c : Result A) (k : A -> Result B) (b : B) :
  bind c k = Ok b -> exists a, c = Ok a /\ k a = Ok b.
Proof. destruct c; simpl; intros H; [eauto | discriminate]. Qed.

Lemma int64_bounds :
  int64_min = (-9223372036854775808)%Z /\ int64_max = 9223372036854775807%Z.
Proof. split; reflexivity. Qed.

Lemma pow_2_61 : (2 ^ 61 = 2305843009213693952)%Z.
Proof. reflexivity. Qed.

Lemma wrap64_small (z : Z) :
  (int64_min <= z <= int64_max)%Z -> wrap64 z = z.
Proof.
  destruct int64_bounds as [Hmin Hmax]. rewrite Hmin, Hmax. intros H.
  unfold wrap64. rewrite Hmin.
  change (2 ^ 64)%Z with 18446744073709551616%Z.
  rewrite Z.mod_small by lia. lia.
Qed.

Lemma int64_add_small (a b : Z) :
  (int64_min <= b <= int64_max)%Z ->
  (int64_min <= a + b <= int64_max)%Z ->
  int64_add a b = Ok (a + b)%Z.
Proof.
  intros Hb Hs. unfold int64_add.
  destruct (Z.ltb_spec b int64_min); [lia|].
  destruct (Z.ltb_spec int64_max b); [lia|].
  simpl. now rewrite wrap64_small.
Qed.

Lemma rng_integers_range (g : Generator) (low high v : Z) (g' : Generator) :
  rng_integers g low high = Ok (v, g') -> (low <= v < high)%Z.
Proof.
  unfold rng_integers.
  destruct (low <? int64_min)%Z; [discriminate|].
  destruct (int64_max <? high - 1)%Z; [discriminate|].
  destruct (Z.leb_spec high low); [discriminate|].
  intros E. inversion E; subst.
  pose proof (Z.mod_pos_bound (words g (cursor g)) (high - low)). lia.
Qed.

Lemma rng_integers_ok (g : Generator) (low high : Z) :
  (int64_min <= low)%Z -> (high - 1 <= int64_max)%Z ->
  (low < high)%Z ->
  rng_integers g low high
  = Ok ((low + words g (cursor g) mod (high - low))%Z,
        {| words := words g; cursor := S (cursor g) |}).
Proof.
  intros Hl Hh H. unfold rng_integers.
  destruct (Z.ltb_spec low int64_min); [lia|].
  destruct (Z.ltb_spec int64_max (high - 1)); [lia|].
  destruct (Z.leb_spec high low); [lia | reflexivity].
Qed.

Lemma rng_integers_empty (g : Generator) (low high : Z) :
  (high <= low)%Z ->
  exists msg, rng_integers g low high = Raise (ValueError msg).
Proof.
  intros H. unfold rng_integers.
  destruct (low <? int64_min)%Z; [eauto|].
  destruct (int64_max <? high - 1)%Z; [eauto|].
  destruct (Z.leb_spec high low); [eauto | lia].
Qed.

Section TimeWindow.
Context {Sim : Type} (S : Simulator Sim).
Variable gauss : Z -> R.
Variable seed_words : Z -> nat -> Z.
Variable cfg : Config Sim.

(** Within [window_fits] no sum of [sample_window] wraps around. *)
Lemma sample_window_fits (g : Generator) :
  window_fits cfg ->
  sample_window cfg g
  = ('(start, g1) <- rng_integers g (initial_start_tick cfg)
                       (max_end_tick cfg - min_time_split_length cfg) ;;
     '(stop, g2) <- rng_integers g1 (start + min_time_split_length cfg)
                      (Z.min (max_end_tick cfg)
                         (start + max_time_split_length cfg)) ;;
     Ok (start, stop, g2)).
Proof.
  intros (H1 & H2 & H3 & H4). rewrite pow_2_61 in *.
  destruct int64_bounds as [Hmin Hmax].
  unfold sample_window.
  destruct (rng_integers g _ _) as [[start g1] | e] eqn:E; [| reflexivity].
  apply rng_integers_range in E.
  cbv beta iota zeta delta [bind].
  rewrite !int64_add_small by (rewrite Hmin, Hmax; lia).
  reflexivity.
Qed.

Lemma window_fits_first_draw :
  window_fits cfg ->
  (int64_min <= initial_start_tick cfg)%Z
  /\ (max_end_tick cfg - min_time_split_length cfg - 1 <= int64_max)%Z.
Proof.
  intros (H1 & H2 & H3 & H4). rewrite pow_2_61 in *.
  destruct int64_bounds as [-> ->]. lia.
Qed.

Lemma window_fits_second_draw (start : Z) :
  window_fits cfg ->
  (initial_start_tick cfg <= start
   < max_end_tick cfg - min_time_split_length cfg)%Z ->
  (int64_min <= start + min_time_split_length cfg)%Z
  /\ (Z.min (max_end_tick cfg) (start + max_time_split_length cfg) - 1
      <= int64_max)%Z.
Proof.
  intros (H1 & H2 & H3 & H4) Hs. rewrite pow_2_61 in *.
  destruct int64_bounds as [-> ->]. lia.
Qed.

Lemma sample_window_range (g g' : Generator) (start stop : Z) :
  window_fits cfg ->
  sample_window cfg g = Ok (start, stop, g') -> in_window cfg start stop.
Proof.
  intros Hfit H. rewrite sample_window_fits in H by exact Hfit.
  inv_bind H. destruct a as [s g1]. inv_bind H. destruct a as [e g2].
  inversion H; subst.
  apply rng_integers_range in Ha, Ha0. split; lia.
Qed.

Lemma sample_window_onto (start stop : Z) :
  window_fits cfg ->
  in_window cfg start stop ->
  exists g g', sample_window cfg g = Ok (start, stop, g').
Proof.
  intros Hfit [[H1 H2] [H3 H4]].
  destruct (window_fits_first_draw Hfit) as [Hl1 Hh1].
  destruct (window_fits_second_draw start Hfit (conj H1 H2)) as [Hl2 Hh2].
  exists (two_words (start - initial_start_tick cfg)
                    (stop - (start + min_time_split_length cfg))).
  eexists. rewrite sample_window_fits by exact Hfit.
  rewrite rng_integers_ok by lia. simpl.
  rewrite Z.mod_small by lia.
  replace (initial_start_tick cfg + (start - initial_start_tick cfg))%Z with start by lia.
  rewrite rng_integers_ok by lia. simpl.
  rewrite Z.mod_small by lia.
  replace (start + min_time_split_length cfg + (stop - (start + min_time_split_length cfg)))%Z
    with stop by lia.
  reflexivity.
Qed.

Lemma sample_window_returns (g : Generator) :
  window_fits cfg ->
  (initial_start_tick cfg < max_end_tick cfg - min_time_split_length cfg)%Z ->
  (min_time_split_length cfg < max_time_split_length cfg)%Z ->
  exists start stop g', sample_window cfg g = Ok (start, stop, g').
Proof.
  intros Hfit H1 H2.
  destruct (window_fits_first_draw Hfit) as [Hl1 Hh1].
  rewrite sample_window_fits by exact Hfit.
  rewrite rng_integers_ok by lia. simpl.
  set (start := (initial_start_tick cfg + _)%Z).
  assert (Hs : (initial_start_tick cfg <= start
                < max_end_tick cfg - min_time_split_length cfg)%Z).
  { subst start.
    pose proof (Z.mod_pos_bound (words g (cursor g))
                  (max_end_tick cfg - min_time_split_length cfg
                   - initial_start_tick cfg)). lia. }
  destruct (window_fits_second_draw start Hfit Hs) as [Hl2 Hh2].
  rewrite rng_integers_ok by lia. simpl. eauto.
Qed.

Lemma sample_window_empty (g : Generator) :
  window_fits cfg ->
  (max_end_tick cfg - min_time_split_length cfg <= initial_start_tick cfg
   \/ max_time_split_length cfg <= min_time_split_length cfg)%Z ->
  exists msg, sample_window cfg g = Raise (ValueError msg).
Proof.
  intros Hfit H. rewrite sample_window_fits by exact Hfit.
  destruct (rng_integers g (initial_start_tick cfg) _)
    as [[start g1] | e] eqn:E.
  - apply rng_integers_range in E as Hs.
    destruct H as [H | H]; [lia|].
    cbv beta iota zeta delta [bind].
    destruct (rng_integers_empty g1 (start + min_time_split_length cfg)
                (Z.min (max_end_tick cfg)
                   (start + max_time_split_length cfg))) as [msg ->];
      [lia | eauto].
  - cbv beta iota zeta delta [bind].
    destruct (window_fits_first_draw Hfit) as [Hl1 Hh1].
    unfold rng_integers in E.
    destruct (Z.ltb_spec (initial_start_tick cfg) int64_min); [lia|].
    destruct (Z.ltb_spec int64_max
                (max_end_tick cfg - min_time_split_length cfg - 1)); [lia|].
    destruct (Z.leb_spec (max_end_tick cfg - min_time_split_length cfg)
                (initial_start_tick cfg)); [| discriminate].
    inversion E. eauto.
Qed.

(** What a returned [reset] has computed. *)
Lemma reset_inv (env env' : MtEnv Sim) (sd : option Z) (out : Observation * Info) :
  reset S gauss seed_words cfg env sd = Ok (env', out) ->
  current_tick env' = start_tick env'
  /\ List.length (history env') = 1%nat
  /\ truncated env' = false
  /\ exists sim ib g0,
       initial_conditions S gauss cfg (reset_rng seed_words env sd)
       = Ok (sim, ib, g0)
       /\ (if time_split cfg
           then sample_window cfg g0
                = Ok (start_tick env', end_tick env', np_rng env')
           else start_tick env' = start_tick env
                /\ end_tick env' = end_tick env
                /\ np_rng env' = g0).
Proof.
  unfold reset. intros H.
  inv_bind H. inv_bind H. destruct a0 as [[sim ib] g0].
  inv_bind H. destruct a0 as [[s e] g2]. inv_bind H. inv_bind H.
  inversion H; subst; simpl. repeat split; trivial.
  exists sim, ib, g0. split; [reflexivity|].
  destruct (time_split cfg); [assumption | now inversion Ha1].
Qed.

(** With the largest sub-window length an [np.int64] holds, the sum
    [start_tick + max_time_split_length] wraps around below zero for every
    start tick from 1 on, and the second draw raises. *)
Lemma sample_window_wraps_around (g : Generator) :
  max_time_split_length cfg = int64_max ->
  (1 <= initial_start_tick cfg)%Z ->
  (max_end_tick cfg <= 2 ^ 61)%Z ->
  (0 <= min_time_split_length cfg)%Z ->
  exists msg, sample_window cfg g = Raise (ValueError msg).
Proof.
  intros Hmax Hstart Hend Hmin. rewrite pow_2_61 in Hend.
  destruct int64_bounds as [Emin Emax].
  unfold sample_window.
  destruct (rng_integers g _ _) as [[start g1] | e] eqn:E.
  - apply rng_integers_range in E.
    cbv beta iota zeta delta [bind].
    assert (Hfar : int64_add start (max_time_split_length cfg)
                   = Ok (start + int64_min - 1)%Z).
    { unfold int64_add. rewrite Hmax.
      destruct (Z.ltb_spec int64_max int64_min); [lia|].
      destruct (Z.ltb_spec int64_max int64_max); [lia|]. simpl.
      f_equal. unfold wrap64. rewrite Emin, Emax.
      change (2 ^ 64)%Z with 18446744073709551616%Z.
      replace (start + 9223372036854775807 - -9223372036854775808)%Z
        with (start - 1 + 1 * 18446744073709551616)%Z by lia.
      rewrite Z.mod_add by lia. rewrite Z.mod_small by lia. lia. }
    rewrite Hfar. cbv beta iota zeta delta [bind].
    rewrite int64_add_small by lia.
    cbv beta iota zeta delta [bind].
    destruct (rng_integers_empty g1 (start + min_time_split_length cfg)
                (Z.min (max_end_tick cfg) (start + int64_min - 1)))
      as [msg ->]; [lia | eauto].
  - cbv beta iota zeta delta [bind].
    unfold rng_integers in E.
    destruct (_ <? _)%Z; [inversion E; eauto|].
    destruct (_ <? _)%Z; [inversion E; eauto|].
    destruct (_ <=? _)%Z; [inversion E; eauto | discriminate].
Qed.

(** Claim C3, amended.  With time-windowing enabled, and the window, the
    sub-window lengths and the time axis small enough for the 64-bit sums
    of [reset] not to wrap around, a [reset] that returns has sampled
    [start_tick] in [[initial_start_tick, max_end_tick - min_length - 1]]
    and [end_tick] in
    [[start_tick + min_length, min (max_end_tick, start_tick + max_length) - 1]]:
    the upper bound of each draw is excluded.  So
    [end_tick - start_tick >= min_length] and [end_tick < max_end_tick].
    Every pair of these intervals is sampled by some generator; the
    sampling returns whenever both intervals are not empty, and raises
    [ValueError] when one of them is empty. *)
Theorem reset_time_window :
  time_split cfg = true ->
  window_fits cfg ->
  (forall env sd env' out,
      reset S gauss seed_words cfg env sd = Ok (env', out) ->
      in_window cfg (start_tick env') (end_tick env')
      /\ current_tick env' = start_tick env'
      /\ (end_tick env' - start_tick env' >= min_time_split_length cfg)%Z
      /\ (end_tick env' < max_end_tick cfg)%Z)
  /\ (forall start stop,
        in_window cfg start stop ->
        exists g g', sample_window cfg g = Ok (start, stop, g'))
  /\ (forall g,
        (initial_start_tick cfg
         < max_end_tick cfg - min_time_split_length cfg)%Z ->
        (min_time_split_length cfg < max_time_split_length cfg)%Z ->
        exists start stop g', sample_window cfg g = Ok (start, stop, g'))
  /\ (forall g,
        (max_end_tick cfg - min_time_split_length cfg
         <= initial_start_tick cfg
         \/ max_time_split_length cfg <= min_time_split_length cfg)%Z ->
        exists msg, sample_window cfg g = Raise (ValueError msg)).
Proof.
  intros Hsplit Hfit. split; [| split; [| split]].
  - intros env sd env' out H.
    apply reset_inv in H as (Hc & _ & _ & sim & ib & g0 & _ & Hw).
    rewrite Hsplit in Hw.
    apply sample_window_range in Hw; [| exact Hfit].
    split; [assumption|].
    split; [assumption|]. destruct Hw as [[? ?] [? ?]]. lia.
  - intros start stop. now apply sample_window_onto.
  - intros; now apply sample_window_returns.
  - intros; now apply sample_window_empty.
Qed.
End TimeWindow.

Lemma split_config_fits : window_fits split_config.
Proof.
  unfold window_fits. repeat split; apply Z.leb_le; reflexivity.
Qed.

(** Claim C3, as stated, fails: [max_end_tick - min_length], the upper end
    of the interval the claim gives for [start_tick], is never sampled. *)
Lemma reset_never_samples_last_start :
  ~ exists (gauss : Z -> R) (seed_words : Z -> nat -> Z)
           (env env' : MtEnv Book) (sd : option Z) (out : Observation * Info),
      reset BookSimulator gauss seed_words split_config env sd = Ok (env', out)
      /\ start_tick env'
         = (max_end_tick split_config - min_time_split_length split_config)%Z.
Proof.
  intros (gauss & seed_words & env & env' & sd & out & H & Hs).
  apply reset_inv in H as (_ & _ & _ & sim & ib & g0 & _ & Hw). simpl in Hw.
  apply sample_window_range in Hw; [| exact split_config_fits].
  destruct Hw as [[_ Hlt] _].
  rewrite Hs in Hlt. lia.
Qed.

(** ** The history of an episode *)

Section History.
Context {Sim : Type} (S : Simulator Sim).
Variable gauss : Z -> R.
Variable seed_words : Z -> nat -> Z.
Variable cfg : Config Sim.

Lemma step_inv (env env' : MtEnv Sim) (action : list R) (r : StepResult) :
  step S cfg env action = Ok (env', r) ->
  exists orders_info closed_orders_info sim g now before,
    _apply_action S cfg action (simulator env) (np_rng env)
    = Ok (orders_info, closed_orders_info, sim, g)
    /\ py_index (time_points cfg) (current_tick env + 1) = Ok now
    /\ py_index (time_points cfg) (current_tick env + 1 - 1) = Ok before
    /\ simulator env' = tick S sim (now - before)
    /\ np_rng env' = g
    /\ current_tick env' = (current_tick env + 1)%Z
    /\ start_tick env' = start_tick env
    /\ end_tick env' = end_tick env
    /\ initial_balance env' = initial_balance env
    /\ history env' = history env ++ [r_info r]
    /\ truncated env'
       = (if (current_tick env + 1 =? end_tick env)%Z then true else truncated env)
    /\ r_truncated r = truncated env'
    /\ terminal_flag (done_if_equity_zero cfg) (loss_cut cfg)
         (equity S (simulator env')) (initial_balance env)
       = Ok (r_terminated r).
Proof.
  unfold step. intros H.
  inv_bind H. destruct a as [[[oi ci] sim] g]. simpl in H.
  inv_bind H. inv_bind H. inv_bind H. inv_bind H. inv_bind H. inv_bind H.
  inversion H; subst; clear H; simpl.
  exists oi, ci, sim, g, a, a0. repeat split; assumption.
Qed.

Lemma history_length_episode (env : MtEnv Sim) :
  episode S gauss seed_words cfg env ->
  Z.of_nat (List.length (history env))
  = (current_tick env - start_tick env + 1)%Z.
Proof.
  induction 1 as [env sd env' out H | env action env' out Hep IH H].
  - apply reset_inv in H as (Hc & Hh & _). rewrite Hc, Hh. lia.
  - apply step_inv in H
      as (oi & ci & sim & g & now & before & _ & _ & _ & _ & _ & Hc & Hs & _ & _ & Hh & _).
    rewrite Hh, Hc, Hs, length_app. simpl. lia.
Qed.

(** Claim C6.  In every state of an episode, which is what [reset] returns
    and what [step] returns from such a state, the history has
    [current_tick - start_tick + 1] records; [reset] leaves one record with
    the current tick at the start tick, and [step] appends one record and
    moves the current tick by one. *)
Theorem history_length_invariant (env : MtEnv Sim) :
  episode S gauss seed_words cfg env ->
  Z.of_nat (List.length (history env))
  = (current_tick env - start_tick env + 1)%Z
  /\ (forall sd env' out,
        reset S gauss seed_words cfg env sd = Ok (env', out) ->
        List.length (history env') = 1%nat
        /\ current_tick env' = start_tick env')
  /\ (forall action env' r,
        step S cfg env action = Ok (env', r) ->
        history env' = history env ++ [r_info r]
        /\ current_tick env' = (current_tick env + 1)%Z
        /\ start_tick env' = start_tick env
        /\ Z.of_nat (List.length (history env'))
           = (current_tick env' - start_tick env' + 1)%Z).
Proof.
  intros Hep. split; [now apply history_length_episode|]. split.
  - intros sd env' out H. apply reset_inv in H as (Hc & Hh & _). now split.
  - intros action env' r H.
    pose proof (history_length_episode env'
                  (episode_step S gauss seed_words cfg _ _ _ _ Hep H)) as Hlen.
    apply step_inv in H
      as (oi & ci & sim & g & now & before & _ & _ & _ & _ & _ & Hc & Hs & _ & _ & Hh & _).
    auto.
Qed.
End History.

(** ** The terminated flag of a step *)

(** Claim C1 (the code departs from it).  The flag [step] returns is the
    one [terminal_flag] computes from the equity after the tick, and with a
    loss-cut ratio configured it is the loss-cut comparison alone: with the
    zero-equity toggle on, a loss-cut ratio of 0, an equity of exactly 0
    and an initial balance of 10000 the flag is [False], although the
    equity is zero; without a loss-cut ratio the same state terminates. *)
Theorem terminal_flag_loss_cut_overrides_zero_equity :
  terminal_flag true (Some 0) 0 10000 = Ok false
  /\ terminal_flag true None 0 10000 = Ok true
  /\ (forall (r : R) (dez : bool) (equity ib : R),
        ib <> 0 ->
        terminal_flag dez (Some r) equity ib = Ok (Rltb (equity / ib) r))
  /\ (forall (Sim : Type) (S : Simulator Sim) (cfg : Config Sim)
             (env env' : MtEnv Sim) (action : list R) (r : StepResult),
        step S cfg env action = Ok (env', r) ->
        terminal_flag (done_if_equity_zero cfg) (loss_cut cfg)
          (equity S (simulator env')) (initial_balance env)
        = Ok (r_terminated r)).
Proof.
  split; [| split; [| split]].
  - rewrite terminal_flag_spec by lra. f_equal. apply Rltb_false. lra.
  - rewrite terminal_flag_spec by lra. f_equal. simpl. apply Reqb_true.
    reflexivity.
  - intros r dez equity ib Hib. now rewrite terminal_flag_spec.
  - intros Sim S cfg env env' action r H.
    apply step_inv in H
      as (oi & ci & sim & g & now & before & _ & _ & _ & _ & _ & _ & _ & _ & _
          & _ & _ & _ & Ht).
    exact Ht.
Qed.

(** ** Open orders per symbol *)

Lemma sample_closes_selects (prob : list R) :
  forall (orders : list Order) (g g' : Generator) (sel : list (Order * R)),
    sample_closes g prob orders = (sel, g') ->
    exists rest, Permutation orders (map fst sel ++ rest).
Proof.
  induction prob as [| p prob IH]; intros orders g g' sel H.
  - simpl in H. inversion H; subst. exists orders. reflexivity.
  - destruct orders as [| o orders].
    + simpl in H. inversion H; subst. exists []. reflexivity.
    + cbn [sample_closes] in H. destruct (rng_choice g p) as [c g1].
      destruct (sample_closes g1 prob orders) as [sel' g2] eqn:E.
      inversion H; subst; clear H.
      apply IH in E as [rest E].
      destruct c; simpl.
      * exists rest. now apply perm_skip.
      * exists (o :: rest). rewrite E. apply Permutation_middle.
Qed.

Section OrderBound.
Context {Sim : Type} (S : Simulator Sim).
Variable gauss : Z -> R.
Variable seed_words : Z -> nat -> Z.
Variable cfg : Config Sim.
Hypothesis contract : SimulatorContract S.

Lemma close_orders_cons (sim : Sim) (o : Order) (p : R) (sel : list (Order * R)) :
  fst (close_orders S sim ((o, p) :: sel))
  = fst (close_orders S (fst (close_order S sim o)) sel).
Proof.
  simpl. destruct (close_order S sim o) as [sim1 o']. simpl.
  destruct (close_orders S sim1 sel) as [sim2 recs]. reflexivity.
Qed.

Lemma close_orders_removes (s : string) (sel : list (Order * R)) :
  forall (sim : Sim) (rest : list Order),
    Permutation (symbol_orders S sim s) (map fst sel ++ rest) ->
    Permutation (symbol_orders S (fst (close_orders S sim sel)) s) rest.
Proof.
  induction sel as [| [o p] sel IH]; intros sim rest H.
  - exact H.
  - rewrite close_orders_cons. apply IH.
    simpl in H.
    assert (Hin : In o (symbol_orders S sim s)).
    { eapply Permutation_in; [symmetry; exact H | now left]. }
    apply (close_removes S contract) in Hin.
    eapply Permutation_cons_inv with (a := o).
    rewrite <- Hin. exact H.
Qed.

Lemma close_orders_adds_none (s : string) (sel : list (Order * R)) :
  forall sim : Sim,
    (List.length (symbol_orders S (fst (close_orders S sim sel)) s)
     <= List.length (symbol_orders S sim s))%nat.
Proof.
  induction sel as [| [o p] sel IH]; intros sim.
  - simpl. lia.
  - rewrite close_orders_cons.
    etransitivity; [apply IH | apply (close_adds_none S contract)].
Qed.

Lemma close_orders_hedge (sel : list (Order * R)) :
  forall sim : Sim, hedge S (fst (close_orders S sim sel)) = hedge S sim.
Proof.
  induction sel as [| [o p] sel IH]; intros sim.
  - reflexivity.
  - rewrite close_orders_cons, IH. apply (close_hedge S contract).
Qed.

(** What [prepare] leaves: the open orders of the symbol are counted by the
    capacity, no list has grown, and the mode is the same. *)
Lemma prepare_orders (action : list R) (i : nat) (symbol : string)
  (sim : Sim) (g : Generator) (p : Prepared Sim) :
  prepare S cfg action i symbol sim g = Ok p ->
  p_capacity p
  = (Z.of_nat (symbol_max_orders cfg)
     - Z.of_nat (List.length (symbol_orders S (p_sim p) symbol)))%Z
  /\ (forall s, (List.length (symbol_orders S (p_sim p) s)
                 <= List.length (symbol_orders S sim s))%nat)
  /\ hedge S (p_sim p) = hedge S sim.
Proof.
  unfold prepare. intros H.
  inv_bind H. destruct a as [[cp hp] v]. cbv beta iota zeta in H.
  destruct (rng_choice g hp) as [hold g1].
  inv_bind H.
  destruct (sample_closes g1 cp (symbol_orders S sim symbol)) as [sel g2] eqn:Es.
  destruct (close_orders S sim sel) as [sim1 closed] eqn:Ec.
  inversion H; subst; clear H; simpl.
  assert (E1 : sim1 = fst (close_orders S sim sel)) by now rewrite Ec.
  apply sample_closes_selects in Es as [rest Hperm].
  pose proof (close_orders_removes symbol sel sim rest Hperm) as Hrest.
  rewrite <- E1 in Hrest.
  apply Permutation_length in Hperm, Hrest.
  rewrite length_app, length_map in Hperm.
  repeat split.
  - lia.
  - intros s. rewrite E1. apply close_orders_adds_none.
  - rewrite E1. apply close_orders_hedge.
Qed.

Lemma open_order_hedge (symbol : string) (p : Prepared Sim) :
  hedge S (snd (open_order S cfg symbol p)) = hedge S (p_sim p).
Proof.
  unfold open_order.
  destruct (hedge S (p_sim p) && (p_capacity p =? 0)%Z); [reflexivity|].
  destruct (p_hold p); simpl; [reflexivity|].
  unfold request_order.
  destruct (create_order S (p_sim p) _ symbol _ _) as [[o sim'] | e] eqn:Ecr;
    simpl; [| reflexivity].
  exact (create_hedge S contract _ _ _ _ _ _ _ Ecr).
Qed.

Lemma open_order_within_bound (s symbol : string) (p : Prepared Sim) :
  p_capacity p
  = (Z.of_nat (symbol_max_orders cfg)
     - Z.of_nat (List.length (symbol_orders S (p_sim p) symbol)))%Z ->
  within_bound S cfg s (p_sim p) ->
  within_bound S cfg s (snd (open_order S cfg symbol p)).
Proof.
  intros Hcap Hs.
  pose proof (open_order_hedge symbol p) as Hh. revert Hh.
  unfold open_order.
  destruct (hedge S (p_sim p) && (p_capacity p =? 0)%Z) eqn:Hfull;
    [intros _; exact Hs|].
  destruct (p_hold p); cbn [negb]; [intros _; exact Hs|].
  unfold request_order.
  destruct (create_order S (p_sim p) _ symbol _ _) as [[o sim'] | e] eqn:Ecr;
    cbn [snd]; [| intros _; exact Hs].
  intros Hh. unfold within_bound, order_bound in *. rewrite Hh.
  pose proof (create_adds_one S contract _ _ _ _ _ _ _ s Ecr) as Hadd.
  destruct (hedge S (p_sim p)) eqn:Hhedge.
  - simpl in Hfull. apply Z.eqb_neq in Hfull.
    destruct (String.eqb_spec symbol s) as [-> | Hne]; lia.
  - exact (create_unhedged S contract _ _ _ _ _ _ _ s Hhedge Ecr Hs).
Qed.

Lemma apply_symbols_hedge (action : list R) (symbols : list string) :
  forall i sim g oi ci oi' ci' sim' g',
    apply_symbols S cfg action i symbols sim g oi ci = Ok (oi', ci', sim', g') ->
    hedge S sim' = hedge S sim.
Proof.
  induction symbols as [| symbol symbols IH];
    intros i sim g oi ci oi' ci' sim' g' H.
  - simpl in H. now inversion H; subst.
  - cbn [apply_symbols] in H. inv_bind H.
    pose proof (open_order_hedge symbol a) as Hh.
    destruct (open_order S cfg symbol a) as [intent sim1]. simpl in Hh.
    apply prepare_orders in Ha as (_ & _ & Hp).
    apply IH in H. congruence.
Qed.

Lemma apply_symbols_within_bound (s : string) (action : list R)
  (symbols : list string) :
  forall i sim g oi ci oi' ci' sim' g',
    apply_symbols S cfg action i symbols sim g oi ci = Ok (oi', ci', sim', g') ->
    within_bound S cfg s sim ->
    within_bound S cfg s sim'.
Proof.
  induction symbols as [| symbol symbols IH];
    intros i sim g oi ci oi' ci' sim' g' H Hb.
  - simpl in H. now inversion H; subst.
  - cbn [apply_symbols] in H. inv_bind H.
    pose proof (open_order_within_bound s symbol a) as Ho.
    destruct (open_order S cfg symbol a) as [intent sim1]. simpl in Ho.
    apply prepare_orders in Ha as (Hcap & Hle & Hh).
    apply IH in H; [exact H|]. apply Ho; [exact Hcap|].
    unfold within_bound, order_bound in *. rewrite Hh.
    etransitivity; [apply Hle | apply Hb].
Qed.

Lemma initial_conditions_orders (g g0 : Generator) (sim : Sim) (ib : R)
  (s : string) :
  initial_conditions S gauss cfg g = Ok (sim, ib, g0) ->
  symbol_orders S sim s = symbol_orders S (original_simulator cfg) s
  /\ hedge S sim = hedge S (original_simulator cfg).
Proof.
  unfold initial_conditions.
  destruct (randomize_initial_balance cfg).
  - intros H. inv_bind H. destruct a as [x g1]. cbv beta iota zeta in H.
    inversion H; subst.
    rewrite (set_balance_orders S contract), (set_equity_orders S contract).
    rewrite (set_balance_hedge S contract), (set_equity_hedge S contract).
    now split.
  - intros H. inversion H; subst. now split.
Qed.

Lemma reset_simulator (env env' : MtEnv Sim) (sd : option Z)
  (out : Observation * Info) :
  reset S gauss seed_words cfg env sd = Ok (env', out) ->
  (forall s, symbol_orders S (simulator env') s
             = symbol_orders S (original_simulator cfg) s)
  /\ hedge S (simulator env') = hedge S (original_simulator cfg).
Proof.
  unfold reset. intros H.
  inv_bind H. inv_bind H. destruct a0 as [[sim ib] g0].
  assert (Hi : forall s,
             symbol_orders S sim s = symbol_orders S (original_simulator cfg) s
             /\ hedge S sim = hedge S (original_simulator cfg))
    by (intros s; exact (initial_conditions_orders _ _ _ _ s Ha0)).
  inv_bind H. destruct a0 as [[st e] g2]. inv_bind H. inv_bind H.
  inversion H; subst; simpl.
  split.
  - intros s. rewrite (set_current_time_orders S contract). apply Hi.
  - rewrite (set_current_time_hedge S contract). apply (Hi EmptyString).
Qed.

Lemma mapM_ok {A B : Type} (f : A -> Result B) (l : list A) (r : list B) :
  mapM f l = Ok r -> forall a, In a l -> exists b, f a = Ok b.
Proof.
  revert r. induction l as [| a0 l IH]; intros r H a Hin; [destruct Hin|].
  cbn [mapM] in H. inv_bind H. inv_bind H.
  destruct Hin as [<- | Hin]; eauto.
Qed.

(** An observation is built only when no traded symbol has more open
    orders than the order tensor has rows. *)
Lemma observation_rows (sim : Sim) (t : Z) (obs : Observation) (s : string) :
  _get_observation S cfg sim t = Ok obs ->
  In s (trading_symbols cfg) ->
  (List.length (symbol_orders S sim s) <= symbol_max_orders cfg)%nat.
Proof.
  unfold _get_observation. intros H Hin. inv_bind H.
  destruct (mapM_ok _ _ _ Ha s Hin) as [rows Hrows].
  unfold order_rows in Hrows.
  destruct (Nat.ltb_spec (symbol_max_orders cfg)
              (List.length (symbol_orders S sim s))); [discriminate | lia].
Qed.

Lemma reset_observed (env env' : MtEnv Sim) (sd : option Z)
  (out : Observation * Info) :
  reset S gauss seed_words cfg env sd = Ok (env', out) ->
  exists obs,
    _get_observation S cfg (simulator env') (current_tick env') = Ok obs.
Proof.
  unfold reset. intros H.
  inv_bind H. inv_bind H. destruct a0 as [[sim ib] g0].
  inv_bind H. destruct a0 as [[st e] g2]. inv_bind H. inv_bind H.
  inversion H; subst; simpl. eauto.
Qed.

Lemma episode_hedge (env : MtEnv Sim) :
  episode S gauss seed_words cfg env ->
  hedge S (simulator env) = hedge S (original_simulator cfg).
Proof.
  induction 1 as [env sd env' out H | env action env' out Hep IH H].
  - now apply reset_simulator in H.
  - apply step_inv in H
      as (oi & ci & sim & g & now & before & Ha & _ & _ & Hsim & _).
    apply apply_symbols_hedge in Ha.
    rewrite Hsim, (tick_hedge S contract). congruence.
Qed.

Lemma episode_within_bound (env : MtEnv Sim) (s : string) :
  (hedge S (original_simulator cfg) = false -> symbol_max_orders cfg = 1%nat) ->
  episode S gauss seed_words cfg env ->
  In s (trading_symbols cfg)
  \/ within_bound S cfg s (original_simulator cfg) ->
  within_bound S cfg s (simulator env).
Proof.
  intros Hforce Hep Hs.
  induction Hep as [env sd env' out H | env action env' out Hep IH H].
  - destruct (reset_observed _ _ _ _ H) as [obs Hobs].
    apply reset_simulator in H as [Ho Hh].
    unfold within_bound, order_bound in *. rewrite Hh.
    destruct Hs as [Hin | Hinit].
    + pose proof (observation_rows _ _ _ s Hobs Hin) as Hrows.
      destruct (hedge S (original_simulator cfg)); [exact Hrows|].
      rewrite Hforce in Hrows by reflexivity. exact Hrows.
    + rewrite Ho. exact Hinit.
  - apply step_inv in H
      as (oi & ci & sim & g & now & before & Ha & _ & _ & Hsim & _).
    pose proof (apply_symbols_hedge _ _ _ _ _ _ _ _ _ _ _ Ha) as Hh.
    apply (apply_symbols_within_bound s) in Ha; [| exact IH].
    rewrite Hsim.
    unfold within_bound, order_bound in *. rewrite (tick_hedge S contract).
    etransitivity; [apply (tick_adds_none S contract) | apply Ha].
Qed.

(** Claim C7.  Over a simulator that meets its contract, in every state of
    an episode each traded symbol has at most [symbol_max_orders] open
    orders when the simulator hedges and at most one when it does not, and
    so has every other symbol that starts within that bound.  The bound is
    kept by the capacity test of [_apply_action] itself: applying an
    action to a simulator within the bound leaves it within the bound. *)
Theorem open_orders_within_bound (env : MtEnv Sim) :
  (hedge S (original_simulator cfg) = false -> symbol_max_orders cfg = 1%nat) ->
  episode S gauss seed_words cfg env ->
  hedge S (simulator env) = hedge S (original_simulator cfg)
  /\ (forall s,
        In s (trading_symbols cfg) ->
        (List.length (symbol_orders S (simulator env) s)
         <= if hedge S (original_simulator cfg)
            then symbol_max_orders cfg else 1)%nat)
  /\ (forall s,
        (List.length (symbol_orders S (original_simulator cfg) s)
         <= if hedge S (original_simulator cfg)
            then symbol_max_orders cfg else 1)%nat ->
        (List.length (symbol_orders S (simulator env) s)
         <= if hedge S (original_simulator cfg)
            then symbol_max_orders cfg else 1)%nat)
  /\ (forall s action oi ci sim g,
        (List.length (symbol_orders S (simulator env) s)
         <= if hedge S (original_simulator cfg)
            then symbol_max_orders cfg else 1)%nat ->
        _apply_action S cfg action (simulator env) (np_rng env)
        = Ok (oi, ci, sim, g) ->
        (List.length (symbol_orders S sim s)
         <= if hedge S (original_simulator cfg)
            then symbol_max_orders cfg else 1)%nat).
Proof.
  intros Hforce Hep.
  pose proof (episode_hedge env Hep) as Hh.
  split; [exact Hh|]. split; [| split].
  - intros s Hin.
    pose proof (episode_within_bound env s Hforce Hep (or_introl Hin)) as Hb.
    unfold within_bound, order_bound in Hb. now rewrite Hh in Hb.
  - intros s Hinit.
    assert (Hb0 : within_bound S cfg s (original_simulator cfg))
      by exact Hinit.
    pose proof (episode_within_bound env s Hforce Hep (or_intror Hb0)) as Hb.
    unfold within_bound, order_bound in Hb. now rewrite Hh in Hb.
  - intros s action oi ci sim g Hb Ha. unfold _apply_action in Ha.
    pose proof (apply_symbols_hedge _ _ _ _ _ _ _ _ _ _ _ Ha) as Hh'.
    apply (apply_symbols_within_bound s) in Ha.
    + unfold within_bound, order_bound in Ha. now rewrite Hh', Hh in Ha.
    + unfold within_bound, order_bound. now rewrite Hh.
Qed.
End OrderBound.

(** ** The small simulator meets the contract *)

Lemma remove_first_filter (f : Order -> bool) (o : Order) (l : list Order) :
  In o (filter f l) ->
  Permutation (filter f l) (o :: filter f (remove_first o l)).
Proof.
  induction l as [| o' l IH]; simpl; [tauto|].
  destruct (order_eq_dec o o') as [<- | Hne].
  - intros H. destruct (f o) eqn:Ef; [reflexivity|].
    apply filter_In in H as [_ Hf]. congruence.
  - simpl. destruct (f o') eqn:Ef.
    + intros [E | H]; [congruence|].
      rewrite (IH H). apply perm_swap.
    + exact IH.
Qed.

Lemma remove_first_filter_length (f : Order -> bool) (o : Order) (l : list Order) :
  (List.length (filter f (remove_first o l)) <= List.length (filter f l))%nat.
Proof.
  induction l as [| o' l IH]; simpl; [lia|].
  destruct (order_eq_dec o o'); simpl; destruct (f o'); simpl; lia.
Qed.

Lemma filter_filter_length (f k : Order -> bool) (l : list Order) :
  (List.length (filter f (filter k l)) <= List.length (filter f l))%nat.
Proof.
  induction l as [| o l IH]; simpl; [lia|].
  destruct (k o); simpl; destruct (f o); simpl; lia.
Qed.

Lemma filter_other_symbol (s : string) (l : list Order) :
  filter (of_symbol s) (filter (fun o => negb (of_symbol s o)) l) = [].
Proof.
  induction l as [| o l IH]; simpl; [reflexivity|].
  destruct (of_symbol s o) eqn:E; simpl; [exact IH|]. now rewrite E.
Qed.

Lemma book_create_inv (b : Book) (ty : OrderType) (s : string) (v f : R)
  (o : Order) (b' : Book) :
  book_create b ty s v f = inl (o, b') ->
  order_symbol o = s
  /\ b_hedge b' = b_hedge b
  /\ b_orders b'
     = (if b_hedge b then b_orders b
        else filter (fun o' => negb (of_symbol s o')) (b_orders b)) ++ [o].
Proof.
  unfold book_create. destruct (Rltb f 0); [discriminate|].
  intros H. inversion H; subst; clear H. simpl. auto.
Qed.

Lemma book_contract : SimulatorContract BookSimulator.
Proof.
  constructor; intros;
    cbn [symbol_orders hedge create_order close_order tick set_balance
         set_equity set_current_time BookSimulator fst b_orders b_hedge] in *;
    try reflexivity.
  - now apply remove_first_filter.
  - apply remove_first_filter_length.
  - apply book_create_inv in H as (Hs & _ & Ho). rewrite Ho.
    rewrite filter_app, length_app.
    cbn [filter].
    replace (of_symbol s' o) with (String.eqb s s')
      by (unfold of_symbol; now rewrite Hs).
    assert (Hk : (List.length
                    (filter (of_symbol s')
                       (if b_hedge sim then b_orders sim
                        else filter (fun o' => negb (of_symbol s o')) (b_orders sim)))
                  <= List.length (filter (of_symbol s') (b_orders sim)))%nat).
    { destruct (b_hedge sim); [lia | apply filter_filter_length]. }
    destruct (String.eqb s s'); simpl; lia.
  - apply book_create_inv in H0 as (Hs & _ & Ho). rewrite Ho, H.
    rewrite filter_app, length_app.
    cbn [filter].
    replace (of_symbol s' o) with (String.eqb s s')
      by (unfold of_symbol; now rewrite Hs).
    destruct (String.eqb_spec s s') as [<- | Hne]; simpl.
    + rewrite filter_other_symbol. simpl. lia.
    + pose proof (filter_filter_length (of_symbol s')
                    (fun o' => negb (of_symbol s o')) (b_orders sim)). lia.
  - now apply book_create_inv in H as (_ & Hh & _).
Qed.

(** ** The small environment, evaluated *)

Lemma expit_bounds (y : R) : 0 < expit y < 1.
Proof.
  unfold expit. pose proof (exp_pos (- y)) as H. split.
  - apply Rdiv_lt_0_compat; lra.
  - apply Rmult_lt_reg_r with (1 + exp (- y)); [lra|].
    unfold Rdiv. rewrite Rmult_assoc, Rinv_l by lra. lra.
Qed.

Lemma logit_probability_bounds (x : R) : 0 < logit_probability x < 1.
Proof. apply expit_bounds. Qed.

Lemma rng_choice_zero (g : Generator) (p : R) :
  words g (cursor g) = 0%Z -> p < 1 ->
  rng_choice g p = (false, {| words := words g; cursor := S (cursor g) |}).
Proof.
  intros Hw Hp. unfold rng_choice, rng_random, next_word. rewrite Hw.
  change ((0 mod 2 ^ 64) / 2 ^ 11)%Z with 0%Z.
  assert (H : Rltb (0 / IZR (2 ^ 53)) (1 - p) = true).
  { apply Rltb_true. unfold Rdiv. rewrite Rmult_0_l. lra. }
  now rewrite H.
Qed.

Lemma decode_zero (si : SymbolInfo) (h : bool) (f : Fee) (split : bool)
  (i : nat) :
  (i < 2)%nat ->
  decode_action (book_config si h f split) zero_action i
  = Ok ([logit_probability 0], logit_probability 0, 0 * 100).
Proof.
  intros H. destruct i as [| [| i]]; [reflexivity | reflexivity | lia].
Qed.

Lemma prepare_zero (si : SymbolInfo) (f : Fee) (split : bool) (i : nat)
  (symbol : string) :
  (i < 2)%nat ->
  volume_step si <> 0 ->
  prepare BookSimulator (book_config si true f split) zero_action i symbol
          (empty_book true si) {| words := zero_words; cursor := i |}
  = Ok (zero_prepared si i).
Proof.
  intros Hi Hstep. unfold prepare. rewrite decode_zero by assumption.
  cbv beta iota zeta delta [bind].
  rewrite rng_choice_zero
    by (try reflexivity; apply logit_probability_bounds).
  unfold _get_modified_volume.
  cbn [symbols_info BookSimulator b_info empty_book].
  rewrite modified_volume_step by assumption.
  reflexivity.
Qed.

Lemma prepare_first (si : SymbolInfo) (f : Fee) (split : bool) :
  volume_step si <> 0 ->
  prepare BookSimulator (book_config si true f split) zero_action 0 "EURUSD"
          (empty_book true si) zero_rng
  = Ok (first_prepared si).
Proof.
  intros H. apply (prepare_zero si f split 0 "EURUSD"); [lia | exact H].
Qed.

(** ** When [step] returns *)

Lemma log_reward_returns (prev cur : R) :
  exists r, _calculate_log_reward prev cur = Ok r.
Proof.
  destruct (log_reward_cases prev cur)
    as [(_ & _ & _ & ->) | [(_ & _ & _ & ->) | (_ & ->)]]; eauto.
Qed.

Section StepReturns.
Context {Sim : Type} (S : Simulator Sim).
Variable cfg : Config Sim.

Lemma apply_symbols_app (action : list R) (pre post : list string) :
  forall i sim g oi ci,
    apply_symbols S cfg action i (pre ++ post) sim g oi ci
    = '(oi1, ci1, sim1, g1) <- apply_symbols S cfg action i pre sim g oi ci ;;
      apply_symbols S cfg action (i + List.length pre) post sim1 g1 oi1 ci1.
Proof.
  induction pre as [| symbol pre IH]; intros i sim g oi ci.
  - simpl. now rewrite Nat.add_0_r.
  - cbn [app apply_symbols List.length].
    destruct (prepare S cfg action i symbol sim g) as [p | ex];
      cbv beta iota delta [bind]; [| reflexivity].
    destruct (open_order S cfg symbol p) as [intent sim'].
    rewrite IH. now rewrite Nat.add_succ_r.
Qed.

(** [step] returns when the action is applied without an exception, the
    next tick and the one before it are time points, an episode has begun,
    the initial balance is not zero and the observation can be built. *)
Lemma step_returns (env : MtEnv Sim) (action : list R)
  (oi : Dict OrderIntent) (ci : Dict (list ClosedOrder)) (sim : Sim)
  (g : Generator) (now before : Z) (last : Info) (obs : Observation) :
  _apply_action S cfg action (simulator env) (np_rng env) = Ok (oi, ci, sim, g) ->
  py_index (time_points cfg) (current_tick env + 1) = Ok now ->
  py_index (time_points cfg) (current_tick env + 1 - 1) = Ok before ->
  py_index (history env) (-1) = Ok last ->
  initial_balance env <> 0 ->
  _get_observation S cfg (tick S sim (now - before)) (current_tick env + 1)
  = Ok obs ->
  exists env' r,
    step S cfg env action = Ok (env', r)
    /\ info_orders (r_info r) = Some oi
    /\ info_closed_orders (r_info r) = Some ci
    /\ r_observation r = obs
    /\ simulator env' = tick S sim (now - before).
Proof.
  intros Ha Hnow Hbefore Hlast Hib Hobs.
  unfold step. rewrite Ha. cbv beta iota zeta delta [bind].
  rewrite Hnow, Hbefore, Hlast.
  assert (Hr : exists r,
             (if log_reward cfg
              then _calculate_log_reward (info_equity last)
                     (equity S (tick S sim (now - before)))
              else r <- _calculate_reward (info_equity last)
                          (equity S (tick S sim (now - before)))
                          (initial_balance env) ;;
                   Ok (Some r)) = Ok r).
  { destruct (log_reward cfg).
    - destruct (log_reward_returns (info_equity last)
                  (equity S (tick S sim (now - before)))) as [r Hr]. eauto.
    - unfold _calculate_reward. rewrite py_div_ok by assumption.
      cbv beta iota delta [bind]. eauto. }
  destruct Hr as [r Hr]. cbv beta iota zeta delta [bind] in Hr. rewrite Hr.
  rewrite terminal_flag_spec by assumption.
  rewrite Hobs. do 2 eexists. split; [reflexivity|]. simpl. auto.
Qed.

End StepReturns.

(** ** Dictionaries *)

Lemma dict_get_set_same {V : Type} (d : Dict V) (k : string) (v : V) :
  dict_get (dict_set d k v) k = Some v.
Proof.
  induction d as [| [k' v'] d IH]; simpl.
  - now rewrite String.eqb_refl.
  - destruct (String.eqb k' k) eqn:E; simpl; rewrite E; [reflexivity | exact IH].
Qed.

Lemma dict_get_set_other {V : Type} (d : Dict V) (k k' : string) (v : V) :
  k <> k' -> dict_get (dict_set d k v) k' = dict_get d k'.
Proof.
  intros Hne. induction d as [| [k0 v0] d IH]; simpl.
  - destruct (String.eqb_spec k k'); [contradiction | reflexivity].
  - destruct (String.eqb_spec k0 k) as [-> | Hk]; simpl.
    + destruct (String.eqb_spec k k'); [contradiction | reflexivity].
    + destruct (String.eqb_spec k0 k'); [reflexivity | exact IH].
Qed.

Lemma dict_set_key {V : Type} (d : Dict V) (k s : string) (v : V) :
  (exists x, dict_get (dict_set d k v) s = Some x)
  <-> s = k \/ exists x, dict_get d s = Some x.
Proof.
  destruct (string_dec k s) as [<- | Hne].
  - rewrite dict_get_set_same. split; eauto.
  - rewrite dict_get_set_other by exact Hne. split; [eauto|].
    intros [E | H]; [congruence | exact H].
Qed.

Section Entries1.
Context {Sim : Type} (S : Simulator Sim).
Variable cfg : Config Sim.

(** The loop writes the entries of the symbols it goes through and leaves
    the other entries of [orders_info] as they are. *)
Lemma apply_symbols_other (action : list R) (symbols : list string)
  (s : string) :
  ~ In s symbols ->
  forall i sim g oi ci oi' ci' sim' g',
    apply_symbols S cfg action i symbols sim g oi ci = Ok (oi', ci', sim', g') ->
    dict_get oi' s = dict_get oi s.
Proof.
  induction symbols as [| symbol symbols IH];
    intros Hs i sim g oi ci oi' ci' sim' g' H.
  - simpl in H. now inversion H; subst.
  - cbn [apply_symbols] in H. inv_bind H.
    destruct (open_order S cfg symbol a) as [intent sim1].
    apply IH in H; [| intros Hin; apply Hs; now right].
    rewrite H. apply dict_get_set_other.
    intros E. apply Hs. now left.
Qed.

End Entries1.

(** ** Order requests *)

Section Requests.
Context {Sim : Type} (S : Simulator Sim).
Variable cfg : Config Sim.

Lemma prepare_volume (action : list R) (i : nat) (symbol : string)
  (sim : Sim) (g : Generator) (p : Prepared Sim) :
  prepare S cfg action i symbol sim g = Ok p ->
  _get_modified_volume S sim symbol (p_volume p) = Ok (p_modified_volume p).
Proof.
  unfold prepare. intros H.
  inv_bind H. destruct a as [[cp hp] v]. cbv beta iota zeta in H.
  destruct (rng_choice g hp) as [hold g1].
  inv_bind H.
  destruct (sample_closes g1 cp (symbol_orders S sim symbol)) as [sel g2].
  destruct (close_orders S sim sel) as [sim1 closed].
  inversion H; subst; clear H. exact Ha0.
Qed.

Lemma open_order_request (symbol : string) (p : Prepared Sim) :
  hedge S (p_sim p) && (p_capacity p =? 0)%Z = false ->
  p_hold p = false ->
  open_order S cfg symbol p
  = request_order S symbol p (direction (p_volume p))
      (resolve_fee cfg symbol).
Proof. intros Hcap Hhold. unfold open_order. now rewrite Hcap, Hhold. Qed.

Lemma open_order_held (symbol : string) (p : Prepared Sim) :
  hedge S (p_sim p) && (p_capacity p =? 0)%Z = false ->
  open_order S cfg symbol (with_hold p true)
  = (base_intent symbol (with_hold p true), p_sim p).
Proof. intros Hcap. unfold open_order. simpl. now rewrite Hcap. Qed.

Lemma apply_symbols_cons (action : list R) (i : nat) (symbol : string)
  (rest : list string) (sim : Sim) (g : Generator)
  (oi : Dict OrderIntent) (ci : Dict (list ClosedOrder)) (p : Prepared Sim) :
  prepare S cfg action i symbol sim g = Ok p ->
  apply_symbols S cfg action i (symbol :: rest) sim g oi ci
  = apply_symbols S cfg action (Datatypes.S i) rest
      (snd (open_order S cfg symbol p)) (p_rng p)
      (dict_set oi symbol (fst (open_order S cfg symbol p)))
      (dict_set ci symbol
         (match dict_get ci symbol with Some l => l | None => [] end
          ++ p_closed p)).
Proof.
  intros H. cbn [apply_symbols]. rewrite H. cbv beta iota delta [bind].
  now destruct (open_order S cfg symbol p).
Qed.

Lemma direction_buy (volume : R) : direction volume = Buy <-> 0 < volume.
Proof.
  unfold direction. destruct (Rltb 0 volume) eqn:E.
  - apply Rltb_true in E. tauto.
  - apply Rltb_false in E. split; [discriminate | lra].
Qed.

(** Claim C8.  When [_apply_action] reaches the request of a symbol and
    the simulator refuses it with the message [e], the entry of that symbol
    carries [e] as its error and no order id; the simulator handed to the
    remaining symbols is the one a hold would have handed over; the loop
    goes on with the remaining symbols; and [step] returns whenever those
    symbols, the clock and the observation raise nothing.  The info record
    [step] then returns, which is also the record it appends to the
    history, holds the [orders_info] the loop ends with, and in it the
    entry of the refused symbol is the one with the error [e], unless the
    symbol is listed again among the remaining ones. *)
Theorem rejected_order_is_recorded (env : MtEnv Sim) (action : list R)
  (pre : list string) (symbol : string) (rest : list string)
  (oi1 : Dict OrderIntent) (ci1 : Dict (list ClosedOrder))
  (sim1 : Sim) (g1 : Generator) (p : Prepared Sim) (e : string) :
  trading_symbols cfg = pre ++ symbol :: rest ->
  apply_symbols S cfg action 0 pre (simulator env) (np_rng env)
    [] (no_closed_orders cfg) = Ok (oi1, ci1, sim1, g1) ->
  prepare S cfg action (List.length pre) symbol sim1 g1 = Ok p ->
  hedge S (p_sim p) && (p_capacity p =? 0)%Z = false ->
  p_hold p = false ->
  create_order S (p_sim p) (direction (p_volume p)) symbol
    (p_modified_volume p) (resolve_fee cfg symbol) = inr e ->
  open_order S cfg symbol p = (set_error (base_intent symbol p) e, p_sim p)
  /\ i_error (fst (open_order S cfg symbol p)) = e
  /\ i_order_id (fst (open_order S cfg symbol p)) = None
  /\ snd (open_order S cfg symbol p)
     = snd (open_order S cfg symbol (with_hold p true))
  /\ _apply_action S cfg action (simulator env) (np_rng env)
     = apply_symbols S cfg action (Datatypes.S (List.length pre)) rest
         (p_sim p) (p_rng p)
         (dict_set oi1 symbol (set_error (base_intent symbol p) e))
         (dict_set ci1 symbol
            (match dict_get ci1 symbol with Some l => l | None => [] end
             ++ p_closed p))
  /\ (forall oi ci sim g now before last obs,
        apply_symbols S cfg action (Datatypes.S (List.length pre)) rest
          (p_sim p) (p_rng p)
          (dict_set oi1 symbol (set_error (base_intent symbol p) e))
          (dict_set ci1 symbol
             (match dict_get ci1 symbol with Some l => l | None => [] end
              ++ p_closed p))
        = Ok (oi, ci, sim, g) ->
        py_index (time_points cfg) (current_tick env + 1) = Ok now ->
        py_index (time_points cfg) (current_tick env + 1 - 1) = Ok before ->
        py_index (history env) (-1) = Ok last ->
        initial_balance env <> 0 ->
        _get_observation S cfg (tick S sim (now - before))
          (current_tick env + 1) = Ok obs ->
        exists env' r,
          step S cfg env action = Ok (env', r)
          /\ info_orders (r_info r) = Some oi
          /\ history env' = history env ++ [r_info r]
          /\ (~ In symbol rest ->
              dict_get oi symbol = Some (set_error (base_intent symbol p) e)
              /\ exists it,
                   dict_get oi symbol = Some it
                   /\ i_error it = e /\ i_order_id it = None)).
Proof.
  intros Hsyms Hpre Hp Hcap Hhold Hrej.
  assert (Ho : open_order S cfg symbol p
               = (set_error (base_intent symbol p) e, p_sim p)).
  { rewrite open_order_request by assumption.
    unfold request_order. now rewrite Hrej. }
  assert (Ha : _apply_action S cfg action (simulator env) (np_rng env)
               = apply_symbols S cfg action (Datatypes.S (List.length pre)) rest
                   (p_sim p) (p_rng p)
                   (dict_set oi1 symbol (set_error (base_intent symbol p) e))
                   (dict_set ci1 symbol
                      (match dict_get ci1 symbol with
                       | Some l => l
                       | None => []
                       end ++ p_closed p))).
  { unfold _apply_action. fold (no_closed_orders cfg).
    rewrite Hsyms, apply_symbols_app, Hpre.
    cbv beta iota zeta delta [bind]. cbn [Nat.add].
    rewrite (apply_symbols_cons _ _ _ _ _ _ _ _ p Hp), Ho. reflexivity. }
  repeat split.
  - exact Ho.
  - now rewrite Ho.
  - now rewrite Ho.
  - rewrite Ho, open_order_held by assumption. reflexivity.
  - exact Ha.
  - intros oi ci sim g now before last obs Hafter Hnow Hbefore Hlast Hib Hobs.
    pose proof (fun Hs =>
                  apply_symbols_other S cfg action rest symbol Hs
                    _ _ _ _ _ _ _ _ _ Hafter) as Hkeep.
    rewrite <- Ha in Hafter.
    destruct (step_returns S cfg env action oi ci sim g now before last obs
                Hafter Hnow Hbefore Hlast Hib Hobs)
      as (env' & r & Hstep & Hoi & _).
    exists env', r. split; [exact Hstep|]. split; [exact Hoi|].
    split.
    + apply step_inv in Hstep
        as (oi0 & ci0 & sim0 & g0 & now0 & before0 & _ & _ & _ & _ & _ & _
            & _ & _ & _ & Hh & _).
      exact Hh.
    + intros Hs. specialize (Hkeep Hs).
      rewrite dict_get_set_same in Hkeep.
      split; [exact Hkeep|].
      exists (set_error (base_intent symbol p) e).
      split; [exact Hkeep|]. split; reflexivity.
Qed.

(** Claim C10, amended.  When the symbol is not held and there is no
    capacity error, [_apply_action] requests an order whose direction is
    Buy exactly when the scaled volume is positive; a volume of zero gives
    a Sell request.  The quantity requested is the modified volume, which
    is at least [volume_min] when the step is positive and [volume_min] is
    an integer multiple of it, not above [volume_max]. *)
Theorem order_direction (action : list R) (i : nat) (symbol : string)
  (sim : Sim) (g : Generator) (p : Prepared Sim) :
  prepare S cfg action i symbol sim g = Ok p ->
  hedge S (p_sim p) && (p_capacity p =? 0)%Z = false ->
  p_hold p = false ->
  open_order S cfg symbol p
  = match create_order S (p_sim p) (direction (p_volume p)) symbol
            (p_modified_volume p) (resolve_fee cfg symbol) with
    | inl (o, sim') =>
        (set_order (base_intent symbol p) o (direction (p_volume p))
           (resolve_fee cfg symbol), sim')
    | inr e => (set_error (base_intent symbol p) e, p_sim p)
    end
  /\ (direction (p_volume p) = Buy <-> 0 < p_volume p)
  /\ (p_volume p = 0 -> direction (p_volume p) = Sell)
  /\ _get_modified_volume S sim symbol (p_volume p) = Ok (p_modified_volume p)
  /\ (forall (si : SymbolInfo) (a : Z),
        symbols_info S sim symbol = Some si ->
        0 < volume_step si ->
        volume_min si = IZR a * volume_step si ->
        volume_min si <= volume_max si ->
        volume_min si <= p_modified_volume p).
Proof.
  intros Hp Hcap Hhold.
  pose proof (prepare_volume _ _ _ _ _ _ Hp) as Hv.
  repeat split.
  - rewrite open_order_request by assumption. reflexivity.
  - apply direction_buy.
  - apply direction_buy.
  - intros H0. destruct (direction (p_volume p)) eqn:E; [| reflexivity].
    apply direction_buy in E. lra.
  - exact Hv.
  - intros si a Hsi Hstep Hmin Hle.
    unfold _get_modified_volume in Hv. rewrite Hsi in Hv.
    rewrite modified_volume_step in Hv by lra.
    inversion Hv as [Hmv]. now apply modified_volume_lower with a.
Qed.

End Requests.

Lemma negative_fee_refused (b : Book) (ty : OrderType) (s : string) (v : R) :
  book_create b ty s v (-1) = inr "negative fee"%string.
Proof.
  unfold book_create.
  assert (H : Rltb (-1) 0 = true) by (apply Rltb_true; lra). now rewrite H.
Qed.

(** The first symbol of the small environment, on the zero action. *)
Lemma order_direction_example :
  open_order BookSimulator plain_config "EURUSD" (first_prepared lot_info)
  = match create_order BookSimulator (empty_book true lot_info)
            (direction (0 * 100)) "EURUSD"
            (p_modified_volume (first_prepared lot_info))
            (resolve_fee plain_config "EURUSD") with
    | inl (o, sim') =>
        (set_order (base_intent "EURUSD" (first_prepared lot_info)) o
           (direction (0 * 100)) (resolve_fee plain_config "EURUSD"), sim')
    | inr e =>
        (set_error (base_intent "EURUSD" (first_prepared lot_info)) e,
         empty_book true lot_info)
    end
  /\ (direction (0 * 100) = Buy <-> 0 < 0 * 100)
  /\ (0 * 100 = 0 -> direction (0 * 100) = Sell)
  /\ _get_modified_volume BookSimulator (empty_book true lot_info) "EURUSD"
       (0 * 100)
     = Ok (p_modified_volume (first_prepared lot_info))
  /\ (forall (si : SymbolInfo) (a : Z),
        symbols_info BookSimulator (empty_book true lot_info) "EURUSD" = Some si ->
        0 < volume_step si ->
        volume_min si = IZR a * volume_step si ->
        volume_min si <= volume_max si ->
        volume_min si <= p_modified_volume (first_prepared lot_info)).
Proof.
  apply (order_direction BookSimulator plain_config zero_action 0%nat "EURUSD"
           (empty_book true lot_info) zero_rng (first_prepared lot_info)).
  - apply prepare_first. simpl. lra.
  - reflexivity.
  - reflexivity.
Defined.

(** Claim C10, as stated, fails: over the coarse metadata the zero action
    is not held and requests a Sell order of quantity 0, below the
    smallest volume 0.01. *)
Lemma zero_volume_request_below_volume_min :
  prepare BookSimulator coarse_config zero_action 0 "EURUSD"
          (empty_book true coarse_info) zero_rng
  = Ok (first_prepared coarse_info)
  /\ p_hold (first_prepared coarse_info) = false
  /\ p_volume (first_prepared coarse_info) = 0
  /\ i_order_type (fst (open_order BookSimulator coarse_config "EURUSD"
                          (first_prepared coarse_info))) = Some Sell
  /\ i_modified_volume (fst (open_order BookSimulator coarse_config "EURUSD"
                               (first_prepared coarse_info)))
     < volume_min coarse_info.
Proof.
  assert (Hmv : p_modified_volume (first_prepared coarse_info) = 0).
  { pose proof coarse_volume_zero as H.
    rewrite modified_volume_step in H by (simpl; lra).
    now inversion H. }
  assert (Hdir : direction (0 * 100) = Sell).
  { destruct (direction (0 * 100)) eqn:E; [| reflexivity].
    apply direction_buy in E. lra. }
  assert (Hfee : Rltb 0.0005 0 = false) by (apply Rltb_false; lra).
  assert (Ho : open_order BookSimulator coarse_config "EURUSD"
                 (first_prepared coarse_info)
               = request_order BookSimulator "EURUSD"
                   (first_prepared coarse_info) Sell 0.0005).
  { rewrite open_order_request by reflexivity.
    cbn [p_volume first_prepared zero_prepared]. now rewrite Hdir. }
  split; [apply prepare_first; simpl; lra|].
  split; [reflexivity|].
  split; [simpl; lra|].
  rewrite Ho. unfold request_order.
  cbn [create_order BookSimulator]. unfold book_create. rewrite Hfee.
  cbn [fst i_order_type i_modified_volume set_order base_intent].
  split; [reflexivity|]. rewrite Hmv. simpl. lra.
Qed.

(** ** The generator across resets and steps *)

Lemma rng_integers_cursor (g g' : Generator) (low high v : Z) :
  rng_integers g low high = Ok (v, g') ->
  words g' = words g /\ cursor g' = S (cursor g).
Proof.
  unfold rng_integers.
  destruct (low <? int64_min)%Z; [discriminate|].
  destruct (int64_max <? high - 1)%Z; [discriminate|].
  destruct (high <=? low)%Z; [discriminate|].
  intros H. inversion H; subst. now split.
Qed.

Lemma rng_choice_cursor (g : Generator) (p : R) :
  words (snd (rng_choice g p)) = words g
  /\ cursor (snd (rng_choice g p)) = S (cursor g).
Proof. now split. Qed.

Lemma sample_closes_cursor (prob : list R) :
  forall (orders : list Order) (g : Generator),
    words (snd (sample_closes g prob orders)) = words g
    /\ (cursor g <= cursor (snd (sample_closes g prob orders)))%nat.
Proof.
  induction prob as [| p prob IH]; intros orders g.
  - simpl. split; [reflexivity | lia].
  - destruct orders as [| o orders].
    + simpl. split; [reflexivity | lia].
    + cbn [sample_closes].
      pose proof (rng_choice_cursor g p) as [Hw Hc].
      destruct (rng_choice g p) as [c g1]. simpl in Hw, Hc.
      specialize (IH orders g1) as [IHw IHc].
      destruct (sample_closes g1 prob orders) as [sel g2]. simpl in *.
      split; [congruence | lia].
Qed.

Section Determinism.
Context {Sim : Type} (S : Simulator Sim).
Variable gauss : Z -> R.
Variable seed_words : Z -> nat -> Z.
Variable cfg : Config Sim.

Lemma prepare_cursor (action : list R) (i : nat) (symbol : string)
  (sim : Sim) (g : Generator) (p : Prepared Sim) :
  prepare S cfg action i symbol sim g = Ok p ->
  words (p_rng p) = words g /\ (cursor g <= cursor (p_rng p))%nat.
Proof.
  unfold prepare. intros H.
  inv_bind H. destruct a as [[cp hp] v]. cbv beta iota zeta in H.
  pose proof (rng_choice_cursor g hp) as [Hw Hc].
  destruct (rng_choice g hp) as [hold g1]. simpl in Hw, Hc.
  inv_bind H.
  pose proof (sample_closes_cursor cp (symbol_orders S sim symbol) g1) as [Hw2 Hc2].
  destruct (sample_closes g1 cp (symbol_orders S sim symbol)) as [sel g2].
  destruct (close_orders S sim sel) as [sim1 closed].
  inversion H; subst; clear H. simpl in *. split; [congruence | lia].
Qed.

Lemma apply_symbols_cursor (action : list R) (symbols : list string) :
  forall i sim g oi ci oi' ci' sim' g',
    apply_symbols S cfg action i symbols sim g oi ci = Ok (oi', ci', sim', g') ->
    words g' = words g /\ (cursor g <= cursor g')%nat.
Proof.
  induction symbols as [| symbol symbols IH];
    intros i sim g oi ci oi' ci' sim' g' H.
  - simpl in H. inversion H; subst. split; [reflexivity | lia].
  - cbn [apply_symbols] in H. inv_bind H.
    destruct (open_order S cfg symbol a) as [intent sim1].
    apply prepare_cursor in Ha as [Hw Hc].
    apply IH in H as [Hw' Hc']. split; [congruence | lia].
Qed.

Lemma step_generator (env env' : MtEnv Sim) (action : list R) (r : StepResult) :
  step S cfg env action = Ok (env', r) ->
  words (np_rng env') = words (np_rng env)
  /\ (cursor (np_rng env) <= cursor (np_rng env'))%nat.
Proof.
  intros H.
  apply step_inv in H
    as (oi & ci & sim & g & now & before & Ha & _ & _ & _ & Hg & _).
  rewrite Hg. unfold _apply_action in Ha.
  now apply apply_symbols_cursor in Ha.
Qed.

Lemma initial_conditions_cursor (g g0 : Generator) (sim : Sim) (ib : R) :
  initial_conditions S gauss cfg g = Ok (sim, ib, g0) ->
  words g0 = words g
  /\ cursor g0
     = (cursor g + if randomize_initial_balance cfg then 1 else 0)%nat.
Proof.
  unfold initial_conditions.
  destruct (randomize_initial_balance cfg); intros H.
  - inv_bind H. destruct a as [x g1]. cbv beta iota zeta in H.
    inversion H; subst. unfold rng_lognormal in Ha.
    destruct (Rltb _ 0); [discriminate|].
    inversion Ha; subst. simpl. split; [reflexivity | lia].
  - inversion H; subst. split; [reflexivity | lia].
Qed.

Lemma sample_window_cursor (g g' : Generator) (start stop : Z) :
  sample_window cfg g = Ok (start, stop, g') ->
  words g' = words g /\ cursor g' = (cursor g + 2)%nat.
Proof.
  unfold sample_window. intros H.
  inv_bind H. destruct a as [s g1]. cbv beta iota zeta in H.
  inv_bind H. inv_bind H.
  inv_bind H. destruct a1 as [e g2]. cbv beta iota zeta in H.
  inversion H; subst.
  apply rng_integers_cursor in Ha as [Hw1 Hc1], Ha2 as [Hw2 Hc2].
  split; [congruence | lia].
Qed.

Lemma reset_generator (env env' : MtEnv Sim) (sd : option Z)
  (out : Observation * Info) :
  reset S gauss seed_words cfg env sd = Ok (env', out) ->
  words (np_rng env') = words (reset_rng seed_words env sd)
  /\ cursor (np_rng env')
     = (cursor (reset_rng seed_words env sd) + reset_draws cfg)%nat.
Proof.
  intros H. apply reset_inv in H as (_ & _ & _ & sim & ib & g0 & Hi & Hw).
  apply initial_conditions_cursor in Hi as [Hiw Hic].
  unfold reset_draws. destruct (time_split cfg).
  - apply sample_window_cursor in Hw as [Hw Hc]. split; [congruence | lia].
  - destruct Hw as (_ & _ & ->). split; [congruence | lia].
Qed.

Lemma reachable_ticks (env : MtEnv Sim) :
  reachable S gauss seed_words cfg env ->
  time_split cfg = false ->
  start_tick env = initial_start_tick cfg /\ end_tick env = max_end_tick cfg.
Proof.
  intros Hr Hsplit.
  induction Hr as [| env sd env' out Hr IH H | env action env' out Hr IH H].
  - now split.
  - apply reset_inv in H as (_ & _ & _ & sim & ib & g0 & _ & Hw).
    rewrite Hsplit in Hw.
    destruct Hw as (-> & -> & _). exact IH.
  - apply step_inv in H
      as (oi & ci & sim & g & now & before & _ & _ & _ & _ & _ & _ & -> & -> & _).
    exact IH.
Qed.

Lemma reset_seeded (env1 env2 : MtEnv Sim) (sd : Z) :
  reachable S gauss seed_words cfg env1 ->
  reachable S gauss seed_words cfg env2 ->
  reset S gauss seed_words cfg env1 (Some sd)
  = reset S gauss seed_words cfg env2 (Some sd).
Proof.
  intros H1 H2. unfold reset. cbn [reset_rng].
  destruct (time_split cfg) eqn:Hsplit; [reflexivity|].
  destruct (reachable_ticks env1 H1 Hsplit) as [-> ->].
  destruct (reachable_ticks env2 H2 Hsplit) as [-> ->].
  reflexivity.
Qed.

(** Claim C9.  From any two states of an environment, [reset] with the
    same seed returns the same state, observation and info, so the same
    actions give the same results; a seeded [reset] leaves the generator of
    that seed advanced by the words [reset] draws; an unseeded [reset]
    and a [step] keep the generator's stream and only advance it. *)
Theorem seeded_reset_is_reproducible (env1 env2 : MtEnv Sim) (sd : Z)
  (actions : list (list R)) :
  reachable S gauss seed_words cfg env1 ->
  reachable S gauss seed_words cfg env2 ->
  reset S gauss seed_words cfg env1 (Some sd)
  = reset S gauss seed_words cfg env2 (Some sd)
  /\ (forall e1 o1 e2 o2,
        reset S gauss seed_words cfg env1 (Some sd) = Ok (e1, o1) ->
        reset S gauss seed_words cfg env2 (Some sd) = Ok (e2, o2) ->
        o1 = o2 /\ run S cfg e1 actions = run S cfg e2 actions)
  /\ (forall env' out,
        reset S gauss seed_words cfg env1 (Some sd) = Ok (env', out) ->
        words (np_rng env') = seed_words sd
        /\ cursor (np_rng env') = reset_draws cfg)
  /\ (forall env' out,
        reset S gauss seed_words cfg env1 None = Ok (env', out) ->
        words (np_rng env') = words (np_rng env1)
        /\ cursor (np_rng env')
           = (cursor (np_rng env1) + reset_draws cfg)%nat)
  /\ (forall action env' r,
        step S cfg env1 action = Ok (env', r) ->
        words (np_rng env') = words (np_rng env1)
        /\ (cursor (np_rng env1) <= cursor (np_rng env'))%nat).
Proof.
  intros H1 H2.
  pose proof (reset_seeded env1 env2 sd H1 H2) as Heq.
  split; [exact Heq|]. split; [| split; [| split]].
  - intros e1 o1 e2 o2 E1 E2. rewrite Heq, E2 in E1.
    inversion E1; subst. now split.
  - intros env' out H. now apply reset_generator in H.
  - intros env' out H. now apply reset_generator in H.
  - intros action env' r H. now apply step_generator in H.
Qed.

End Determinism.

(** ** The small environment in an episode *)

Lemma state_of_ok {Sim A : Type} (r : Result (MtEnv Sim * A))
  (otherwise : MtEnv Sim) :
  is_ok r = true -> exists out, r = Ok (state_of r otherwise, out).
Proof. destruct r as [[env out] | ex]; [eauto | discriminate]. Qed.

Lemma book_start_plain :
  exists out,
    reset BookSimulator zero_gauss zero_seed plain_config
          (init zero_seed plain_config) None
    = Ok (book_start plain_config, out).
Proof. apply state_of_ok. lazy. reflexivity. Qed.

Lemma book_start_refusing :
  exists out,
    reset BookSimulator zero_gauss zero_seed refusing_config
          (init zero_seed refusing_config) None
    = Ok (book_start refusing_config, out).
Proof. apply state_of_ok. lazy. reflexivity. Qed.

Lemma book_start_split :
  exists out,
    reset BookSimulator zero_gauss zero_seed split_config
          (init zero_seed split_config) None
    = Ok (book_start split_config, out).
Proof. apply state_of_ok. lazy. reflexivity. Qed.

Lemma book_start_episode :
  episode BookSimulator zero_gauss zero_seed plain_config
          (book_start plain_config).
Proof.
  destruct book_start_plain as [out H]. eapply episode_reset. exact H.
Qed.

Lemma book_start_reachable :
  reachable BookSimulator zero_gauss zero_seed plain_config
            (book_start plain_config).
Proof.
  destruct book_start_plain as [out H].
  eapply reachable_reset; [apply reachable_init | exact H].
Qed.

Lemma refused_second_symbol :
  apply_symbols BookSimulator refusing_config zero_action 1 ["GBPCAD"%string]
    (empty_book true lot_info) {| words := zero_words; cursor := 1 |}
    [("EURUSD"%string,
      set_error (base_intent "EURUSD" (zero_prepared lot_info 0)) "negative fee")]
    [("EURUSD"%string, []); ("GBPCAD"%string, [])]
  = Ok ([("EURUSD"%string,
          set_error (base_intent "EURUSD" (zero_prepared lot_info 0))
            "negative fee");
         ("GBPCAD"%string,
          set_error (base_intent "GBPCAD" (zero_prepared lot_info 1))
            "negative fee")],
        [("EURUSD"%string, []); ("GBPCAD"%string, [])],
        empty_book true lot_info,
        {| words := zero_words; cursor := 2 |}).
Proof.
  rewrite (apply_symbols_cons BookSimulator refusing_config _ _ _ _ _ _ _ _
             (zero_prepared lot_info 1)).
  2:{ apply (prepare_zero lot_info (FixedFee (-1)) false 1 "GBPCAD");
      [lia | simpl; lra]. }
  rewrite open_order_request by reflexivity.
  unfold request_order. cbn [create_order BookSimulator].
  rewrite negative_fee_refused. reflexivity.
Qed.

Lemma refused_first_symbol :
  _apply_action BookSimulator refusing_config zero_action
    (empty_book true lot_info) zero_rng
  = Ok ([("EURUSD"%string,
          set_error (base_intent "EURUSD" (zero_prepared lot_info 0))
            "negative fee");
         ("GBPCAD"%string,
          set_error (base_intent "GBPCAD" (zero_prepared lot_info 1))
            "negative fee")],
        [("EURUSD"%string, []); ("GBPCAD"%string, [])],
        empty_book true lot_info,
        {| words := zero_words; cursor := 2 |}).
Proof.
  unfold _apply_action.
  change (trading_symbols refusing_config)
    with ["EURUSD"%string; "GBPCAD"%string].
  rewrite (apply_symbols_cons BookSimulator refusing_config _ _ _ _ _ _ _ _
             (zero_prepared lot_info 0)).
  2:{ apply (prepare_zero lot_info (FixedFee (-1)) false 0 "EURUSD");
      [lia | simpl; lra]. }
  rewrite open_order_request by reflexivity.
  unfold request_order. cbn [create_order BookSimulator].
  rewrite negative_fee_refused.
  exact refused_second_symbol.
Qed.

Lemma step_refusing_returns :
  exists env' r,
    step BookSimulator refusing_config (book_start refusing_config) zero_action
    = Ok (env', r)
    /\ info_orders (r_info r)
       = Some [("EURUSD"%string,
                set_error (base_intent "EURUSD" (zero_prepared lot_info 0))
                  "negative fee");
               ("GBPCAD"%string,
                set_error (base_intent "GBPCAD" (zero_prepared lot_info 1))
                  "negative fee")].
Proof.
  assert (Hobs : exists obs,
             _get_observation BookSimulator refusing_config
               (tick BookSimulator (empty_book true lot_info) (1 - 0))
               (current_tick (book_start refusing_config) + 1) = Ok obs)
    by (eexists; reflexivity).
  destruct Hobs as [obs Hobs].
  destruct (step_returns BookSimulator refusing_config
              (book_start refusing_config) zero_action _ _ _ _ 1%Z 0%Z
              (_create_info BookSimulator (empty_book true lot_info)
                 None None None)
              obs refused_first_symbol)
    as (env' & r & H & Hoi & _);
    try reflexivity; try exact Hobs.
  - replace (initial_balance (book_start refusing_config)) with 10000
      by reflexivity.
    lra.
  - eauto.
Qed.

Lemma book_next_step :
  exists r,
    step BookSimulator refusing_config (book_start refusing_config) zero_action
    = Ok (book_next refusing_config, r).
Proof.
  destruct step_refusing_returns as (env' & r & H & _).
  apply state_of_ok. now rewrite H.
Qed.

Lemma book_next_episode :
  episode BookSimulator zero_gauss zero_seed refusing_config
          (book_next refusing_config).
Proof.
  destruct book_start_refusing as [out Hr]. destruct book_next_step as [r Hs].
  eapply episode_step; [eapply episode_reset; exact Hr | exact Hs].
Qed.

(** ** The statements on the small environment *)

(** The first [reset] of the small environment with random sub-windows. *)
Lemma reset_time_window_example :
  in_window split_config (start_tick (book_start split_config))
            (end_tick (book_start split_config))
  /\ current_tick (book_start split_config)
     = start_tick (book_start split_config)
  /\ (end_tick (book_start split_config) - start_tick (book_start split_config)
      >= min_time_split_length split_config)%Z
  /\ (end_tick (book_start split_config) < max_end_tick split_config)%Z.
Proof.
  destruct book_start_split as [out H].
  exact (proj1 (reset_time_window BookSimulator zero_gauss zero_seed
                  split_config eq_refl split_config_fits)
           (init zero_seed split_config) None (book_start split_config) out H).
Defined.

(** The small environment after a [reset] and a [step]. *)
Lemma history_length_invariant_example :
  Z.of_nat (List.length (history (book_next refusing_config)))
  = (current_tick (book_next refusing_config)
     - start_tick (book_next refusing_config) + 1)%Z.
Proof.
  exact (proj1 (history_length_invariant BookSimulator zero_gauss zero_seed
                  refusing_config (book_next refusing_config)
                  book_next_episode)).
Defined.

(** Both requests of a step refused for their negative fee: the refusals
    are recorded, the step returns, and the info it returns holds the
    refusal of the first symbol. *)
Lemma rejected_order_is_recorded_example :
  open_order BookSimulator refusing_config "EURUSD" (first_prepared lot_info)
  = (set_error (base_intent "EURUSD" (first_prepared lot_info)) "negative fee",
     empty_book true lot_info)
  /\ exists env' r oi,
       step BookSimulator refusing_config (book_start refusing_config)
            zero_action = Ok (env', r)
       /\ info_orders (r_info r) = Some oi
       /\ history env' = history (book_start refusing_config) ++ [r_info r]
       /\ dict_get oi "EURUSD"
          = Some (set_error (base_intent "EURUSD" (first_prepared lot_info))
                    "negative fee").
Proof.
  assert (Hobs : exists obs,
             _get_observation BookSimulator refusing_config
               (tick BookSimulator (empty_book true lot_info) (1 - 0))
               (current_tick (book_start refusing_config) + 1) = Ok obs)
    by (eexists; reflexivity).
  destruct Hobs as [obs Hobs].
  destruct (rejected_order_is_recorded BookSimulator refusing_config
              (book_start refusing_config) zero_action
              [] "EURUSD" ["GBPCAD"%string]
              [] (no_closed_orders refusing_config)
              (empty_book true lot_info) zero_rng
              (first_prepared lot_info) "negative fee")
    as (Ho & _ & _ & _ & _ & Hstep).
  - reflexivity.
  - reflexivity.
  - apply prepare_first. simpl. lra.
  - reflexivity.
  - reflexivity.
  - apply negative_fee_refused.
  - split; [exact Ho|].
    destruct (Hstep
                [("EURUSD"%string,
                  set_error (base_intent "EURUSD" (zero_prepared lot_info 0))
                    "negative fee");
                 ("GBPCAD"%string,
                  set_error (base_intent "GBPCAD" (zero_prepared lot_info 1))
                    "negative fee")]
                [("EURUSD"%string, []); ("GBPCAD"%string, [])]
                (empty_book true lot_info)
                {| words := zero_words; cursor := 2 |}
                1%Z 0%Z
                (_create_info BookSimulator (empty_book true lot_info)
                   None None None) obs)
      as (env' & r & Hs & Hoi & Hh & Hentry).
    + exact refused_second_symbol.
    + reflexivity.
    + reflexivity.
    + reflexivity.
    + replace (initial_balance (book_start refusing_config)) with 10000
        by reflexivity.
      lra.
    + exact Hobs.
    + exists env', r. eexists. split; [exact Hs|]. split; [exact Hoi|].
      split; [exact Hh|]. apply Hentry.
      intros [E | []]. discriminate E.
Defined.

(** The small environment as built and after its first [reset], both
    reset with the seed 7 and then given the zero action twice. *)
Lemma seeded_reset_is_reproducible_example :
  reset BookSimulator zero_gauss zero_seed plain_config
        (init zero_seed plain_config) (Some 7%Z)
  = reset BookSimulator zero_gauss zero_seed plain_config
          (book_start plain_config) (Some 7%Z).
Proof.
  exact (proj1 (seeded_reset_is_reproducible BookSimulator zero_gauss zero_seed
                  plain_config (init zero_seed plain_config)
                  (book_start plain_config) 7%Z [zero_action; zero_action]
                  (reachable_init BookSimulator zero_gauss zero_seed plain_config)
                  book_start_reachable)).
Defined.

(** ** The small environment with open orders *)

Lemma sample_closes_none (prob : list R) :
  forall (orders : list Order) (g : Generator),
    words g = zero_words ->
    Forall (fun p => p < 1) prob ->
    sample_closes g prob orders
    = ([], {| words := zero_words;
              cursor := cursor g
                        + Nat.min (List.length prob) (List.length orders) |}).
Proof.
  induction prob as [| p prob IH]; intros orders g Hw Hp.
  - simpl. destruct g as [w c]. simpl in *. subst w.
    now rewrite Nat.add_0_r.
  - destruct orders as [| o orders].
    + simpl. destruct g as [w c]. simpl in *. subst w.
      now rewrite Nat.add_0_r.
    + cbn [sample_closes]. inversion Hp; subst.
      rewrite rng_choice_zero by (try (rewrite Hw; reflexivity); assumption).
      rewrite IH by (try reflexivity; try assumption; exact Hw).
      cbn [cursor List.length Nat.min]. f_equal. f_equal. lia.
Qed.

Lemma book_prepare_still (si : SymbolInfo) (f : Fee) (split : bool) (i : nat)
  (symbol : string) (sim : Book) (c : nat) :
  (i < 2)%nat ->
  volume_step si <> 0 ->
  b_info sim = si ->
  prepare BookSimulator (book_config si true f split) zero_action i symbol
          sim {| words := zero_words; cursor := c |}
  = Ok (still_prepared si sim
          (List.length (symbol_orders BookSimulator sim symbol))
          (S c + Nat.min 1
                   (List.length (symbol_orders BookSimulator sim symbol)))).
Proof.
  intros Hi Hstep Hb. unfold prepare. rewrite decode_zero by assumption.
  cbv beta iota zeta delta [bind].
  rewrite rng_choice_zero
    by (try reflexivity; apply logit_probability_bounds).
  unfold _get_modified_volume.
  cbn [symbols_info BookSimulator]. rewrite Hb.
  rewrite modified_volume_step by assumption.
  rewrite sample_closes_none;
    [| reflexivity
     | constructor; [apply logit_probability_bounds | constructor]].
  reflexivity.
Qed.

Lemma direction_zero : direction (0 * 100) = Sell.
Proof.
  unfold direction.
  replace (Rltb 0 (0 * 100)) with false; [reflexivity|].
  symmetry. apply Rltb_false. lra.
Qed.

Lemma book_create_accepts (b : Book) (ty : OrderType) (s : string)
  (v f : R) :
  0 <= f ->
  book_create b ty s v f
  = inl ({| order_id := Z.of_nat (List.length (b_orders b)) + 1;
            order_symbol := s; order_type := ty; order_volume := v;
            order_fee := f; order_margin := v; order_profit := 0;
            order_entry_price := 1 |},
         {| b_hedge := b_hedge b; b_balance := b_balance b;
            b_orders :=
              (if b_hedge b then b_orders b
               else filter (fun o' => negb (of_symbol s o')) (b_orders b))
              ++ [{| order_id := Z.of_nat (List.length (b_orders b)) + 1;
                     order_symbol := s; order_type := ty; order_volume := v;
                     order_fee := f; order_margin := v; order_profit := 0;
                     order_entry_price := 1 |}];
            b_time := b_time b; b_info := b_info b |}).
Proof.
  intros H. unfold book_create.
  replace (Rltb f 0) with false; [reflexivity|].
  symmetry. now apply Rltb_false.
Qed.

(** A symbol of the hedging simulator that has no open order: the order
    of the zero action is created. *)
Lemma book_open_order_idle (si : SymbolInfo) (rate : R) (split : bool)
  (symbol : string) (sim : Book) (c : nat) :
  b_hedge sim = true -> 0 <= rate ->
  open_order BookSimulator (book_config si true (FixedFee rate) split) symbol
    (still_prepared si sim 0 c)
  = (set_order (base_intent symbol (still_prepared si sim 0 c))
       (zero_order si rate (Z.of_nat (List.length (b_orders sim)) + 1) symbol)
       Sell rate,
     {| b_hedge := true; b_balance := b_balance sim;
        b_orders :=
          b_orders sim
          ++ [zero_order si rate (Z.of_nat (List.length (b_orders sim)) + 1)
                symbol];
        b_time := b_time sim; b_info := b_info sim |}).
Proof.
  intros Hh Hrate. rewrite open_order_request.
  - unfold request_order.
    cbn [create_order BookSimulator still_prepared p_sim p_volume
         p_modified_volume resolve_fee fee book_config].
    rewrite direction_zero, book_create_accepts by exact Hrate.
    rewrite Hh. reflexivity.
  - cbn [hedge BookSimulator still_prepared p_sim p_capacity].
    rewrite Hh. reflexivity.
  - reflexivity.
Qed.

(** A symbol of the hedging simulator that has its one order open: the
    capacity test refuses, and nothing is requested. *)
Lemma book_open_order_full (si : SymbolInfo) (f : Fee) (split : bool)
  (symbol : string) (sim : Book) (c : nat) :
  b_hedge sim = true ->
  open_order BookSimulator (book_config si true f split) symbol
    (still_prepared si sim 1 c)
  = (set_error (base_intent symbol (still_prepared si sim 1 c))
       "cannot add more orders",
     sim).
Proof.
  intros Hh. unfold open_order.
  cbn [hedge BookSimulator still_prepared p_sim p_capacity].
  rewrite Hh. reflexivity.
Qed.

(** The first action of the small environment opens one order per
    symbol. *)
Lemma traded_first_action (split : bool) (t : Z) :
  exists oi ci,
    _apply_action BookSimulator
      (book_config lot_info true (FixedFee 0.0005) split) zero_action
      (idle_book t) zero_rng
    = Ok (oi, ci, traded_book t, {| words := zero_words; cursor := 2 |}).
Proof.
  assert (Hstep : volume_step lot_info <> 0) by (simpl; lra).
  unfold _apply_action.
  change (trading_symbols (book_config lot_info true (FixedFee 0.0005) split))
    with ["EURUSD"%string; "GBPCAD"%string].
  rewrite (apply_symbols_cons BookSimulator _ _ _ _ _ _ _ _ _ _
             (book_prepare_still lot_info (FixedFee 0.0005) split 0 "EURUSD"
                (idle_book t) 0 (Nat.lt_0_2) Hstep eq_refl)).
  change (List.length
            (symbol_orders BookSimulator (idle_book t) "EURUSD"))
    with 0%nat.
  rewrite book_open_order_idle by (try reflexivity; lra).
  cbn [fst snd still_prepared p_rng Nat.min Nat.add].
  set (book1 := {| b_hedge := true;
                   b_balance := b_balance (idle_book t);
                   b_orders := _; b_time := _; b_info := _ |}).
  rewrite (apply_symbols_cons BookSimulator _ _ _ _ _ _ _ _ _ _
             (book_prepare_still lot_info (FixedFee 0.0005) split 1 "GBPCAD"
                book1 1 (Nat.lt_1_2) Hstep eq_refl)).
  change (List.length (symbol_orders BookSimulator book1 "GBPCAD"))
    with 0%nat.
  rewrite book_open_order_idle by (try reflexivity; lra).
  cbn [fst snd still_prepared p_rng Nat.min Nat.add apply_symbols].
  do 2 eexists. reflexivity.
Qed.

(** The second action finds both symbols full. *)
Lemma traded_second_action (split : bool) (t : Z) :
  exists oi ci,
    _apply_action BookSimulator
      (book_config lot_info true (FixedFee 0.0005) split) zero_action
      (traded_book t) {| words := zero_words; cursor := 2 |}
    = Ok (oi, ci, traded_book t, {| words := zero_words; cursor := 6 |})
    /\ dict_get oi "EURUSD"
       = Some (set_error
                 (base_intent "EURUSD"
                    (still_prepared lot_info (traded_book t) 1 4))
                 "cannot add more orders").
Proof.
  assert (Hstep : volume_step lot_info <> 0) by (simpl; lra).
  unfold _apply_action.
  change (trading_symbols (book_config lot_info true (FixedFee 0.0005) split))
    with ["EURUSD"%string; "GBPCAD"%string].
  rewrite (apply_symbols_cons BookSimulator _ _ _ _ _ _ _ _ _ _
             (book_prepare_still lot_info (FixedFee 0.0005) split 0 "EURUSD"
                (traded_book t) 2 (Nat.lt_0_2) Hstep eq_refl)).
  change (List.length (symbol_orders BookSimulator (traded_book t) "EURUSD"))
    with 1%nat.
  rewrite book_open_order_full by reflexivity.
  cbn [fst snd still_prepared p_rng Nat.min Nat.add].
  rewrite (apply_symbols_cons BookSimulator _ _ _ _ _ _ _ _ _ _
             (book_prepare_still lot_info (FixedFee 0.0005) split 1 "GBPCAD"
                (traded_book t) 4 (Nat.lt_1_2) Hstep eq_refl)).
  change (List.length (symbol_orders BookSimulator (traded_book t) "GBPCAD"))
    with 1%nat.
  rewrite book_open_order_full by reflexivity.
  cbn [fst snd still_prepared p_rng Nat.min Nat.add apply_symbols].
  do 2 eexists. split; reflexivity.
Qed.

(** The first step of the small environment with the default fee. *)
Lemma plain_next_step :
  exists r,
    step BookSimulator plain_config (book_start plain_config) zero_action
    = Ok (book_next plain_config, r)
    /\ simulator (book_next plain_config) = traded_book 1
    /\ np_rng (book_next plain_config)
       = {| words := zero_words; cursor := 2 |}.
Proof.
  destruct (traded_first_action false 0) as (oi & ci & Ha).
  assert (Hobs : exists obs,
             _get_observation BookSimulator plain_config
               (tick BookSimulator (traded_book 0) (1 - 0))
               (current_tick (book_start plain_config) + 1) = Ok obs)
    by (eexists; reflexivity).
  destruct Hobs as [obs Hobs].
  destruct (step_returns BookSimulator plain_config
              (book_start plain_config) zero_action oi ci (traded_book 0)
              {| words := zero_words; cursor := 2 |} 1%Z 0%Z
              (_create_info BookSimulator (empty_book true lot_info)
                 None None None)
              obs Ha)
    as (env' & r & H & _ & _ & _ & Hsim);
    try reflexivity; try exact Hobs.
  - replace (initial_balance (book_start plain_config)) with 10000
      by reflexivity.
    lra.
  - assert (E : book_next plain_config = env')
      by (unfold book_next; now rewrite H).
    rewrite E. exists r. split; [exact H|]. split; [exact Hsim|].
    apply step_inv in H
      as (oi0 & ci0 & sim0 & g0 & now0 & before0 & Ha0 & _ & _ & _ & Hg & _).
    rewrite Hg.
    assert (E0 : Ok (oi0, ci0, sim0, g0)
                 = Ok (oi, ci, traded_book 0,
                       {| words := zero_words; cursor := 2 |}))
      by (rewrite <- Ha0; exact Ha).
    now inversion E0.
Qed.

Lemma plain_next_episode :
  episode BookSimulator zero_gauss zero_seed plain_config
          (book_next plain_config).
Proof.
  destruct plain_next_step as (r & Hs & _).
  eapply episode_step; [exact book_start_episode | exact Hs].
Qed.

(** The small environment after a [reset] and a [step] that opened an
    order for each symbol: each symbol is at its bound of one order, and
    the next action meets the capacity test, which keeps the bound. *)
Lemma open_orders_within_bound_example :
  List.length
    (symbol_orders BookSimulator (simulator (book_next plain_config))
       "EURUSD") = 1%nat
  /\ (List.length
        (symbol_orders BookSimulator (simulator (book_next plain_config))
           "EURUSD")
      <= if hedge BookSimulator (original_simulator plain_config)
         then symbol_max_orders plain_config else 1)%nat
  /\ exists oi ci sim g,
       _apply_action BookSimulator plain_config zero_action
         (simulator (book_next plain_config))
         (np_rng (book_next plain_config)) = Ok (oi, ci, sim, g)
       /\ (exists it,
             dict_get oi "EURUSD" = Some it
             /\ i_error it = "cannot add more orders"%string)
       /\ (List.length (symbol_orders BookSimulator sim "EURUSD")
           <= if hedge BookSimulator (original_simulator plain_config)
              then symbol_max_orders plain_config else 1)%nat.
Proof.
  assert (Hforce : hedge BookSimulator (original_simulator plain_config)
                   = false -> symbol_max_orders plain_config = 1%nat)
    by (intros H; discriminate H).
  destruct (open_orders_within_bound BookSimulator zero_gauss zero_seed
              plain_config book_contract (book_next plain_config) Hforce
              plain_next_episode) as (_ & Hin & _ & Hact).
  assert (Hone : (List.length
                    (symbol_orders BookSimulator
                       (simulator (book_next plain_config)) "EURUSD")
                  <= if hedge BookSimulator (original_simulator plain_config)
                     then symbol_max_orders plain_config else 1)%nat)
    by (apply Hin; simpl; auto).
  destruct plain_next_step as (r & _ & Hsim & Hg).
  destruct (traded_second_action false 1) as (oi & ci & Ha & Hit).
  rewrite <- Hsim, <- Hg in Ha.
  split; [rewrite Hsim; reflexivity|]. split; [exact Hone|].
  exists oi, ci, (simulator (book_next plain_config)),
    {| words := zero_words; cursor := 6 |}.
  split; [exact Ha|]. split.
  - eexists. split; [exact Hit | reflexivity].
  - exact (Hact "EURUSD"%string zero_action oi ci _ _ Hone Ha).
Defined.

(** * Further properties *)

(** ** The probabilities of an action *)

Lemma expit_opp (y : R) : expit (- y) = 1 - expit y.
Proof.
  unfold expit. rewrite Ropp_involutive, exp_Ropp.
  pose proof (exp_pos y) as H. field. split; lra.
Qed.

Lemma expit_increasing (x y : R) : x <= y -> expit x <= expit y.
Proof.
  intros H. unfold expit.
  pose proof (exp_pos (- x)) as Hx. pose proof (exp_pos (- y)) as Hy.
  assert (Hle : exp (- y) <= exp (- x)).
  { destruct (Req_dec x y) as [-> | Hne]; [lra|].
    left. apply exp_increasing. lra. }
  unfold Rdiv. rewrite !Rmult_1_l.
  apply Rinv_le_contravar; lra.
Qed.

Lemma arctanh_opp (c : R) : -1 < c < 1 -> arctanh (- c) = - arctanh c.
Proof.
  intros [Hlo Hhi]. unfold arctanh.
  replace ((1 + - c) / (1 - - c)) with (/ ((1 + c) / (1 - c)))
    by (field; split; lra).
  rewrite ln_Rinv by (apply Rdiv_lt_0_compat; lra). lra.
Qed.

Lemma arctanh_increasing (c d : R) :
  -1 < c -> d < 1 -> c <= d -> arctanh c <= arctanh d.
Proof.
  intros Hc Hd Hle. unfold arctanh.
  apply Rmult_le_compat_l; [lra|].
  destruct (Req_dec c d) as [-> | Hne]; [lra|].
  left. apply ln_increasing; [apply Rdiv_lt_0_compat; lra|].
  apply Rmult_lt_reg_r with ((1 - c) * (1 - d)); [nra|].
  replace ((1 + c) / (1 - c) * ((1 - c) * (1 - d))) with ((1 + c) * (1 - d))
    by (field; lra).
  replace ((1 + d) / (1 - d) * ((1 - c) * (1 - d))) with ((1 + d) * (1 - c))
    by (field; lra).
  nra.
Qed.

Lemma logit_clip_bounds (x : R) :
  -1 < np_clip x (-1 + 1e-3) (1 - 1e-3) < 1.
Proof.
  pose proof (np_clip_bounds x (-1 + 1e-3) (1 - 1e-3)) as H.
  assert (Hle : -1 + 1e-3 <= 1 - 1e-3) by lra. specialize (H Hle). lra.
Qed.

Lemma logit_clip_opp (x : R) :
  np_clip (- x) (-1 + 1e-3) (1 - 1e-3) = - np_clip x (-1 + 1e-3) (1 - 1e-3).
Proof.
  unfold np_clip, Rmax.
  destruct (Rle_dec (- x) (-1 + 1e-3)); destruct (Rle_dec x (-1 + 1e-3));
    unfold Rmin; repeat destruct (Rle_dec _ _); lra.
Qed.

Lemma logit_clip_increasing (x y : R) :
  x <= y ->
  np_clip x (-1 + 1e-3) (1 - 1e-3) <= np_clip y (-1 + 1e-3) (1 - 1e-3).
Proof.
  intros H. unfold np_clip, Rmax.
  destruct (Rle_dec x (-1 + 1e-3)); destruct (Rle_dec y (-1 + 1e-3));
    unfold Rmin; repeat destruct (Rle_dec _ _); lra.
Qed.

(** The probability decoded from an action component lies strictly between
    0 and 1, so that [choice] accepts it; opposite components give
    complementary probabilities, a component of zero the probability one
    half; and a larger component never gives a smaller probability. *)
Theorem logit_probability_valid :
  forall x y : R,
    0 < logit_probability x < 1
    /\ logit_probability (- x) = 1 - logit_probability x
    /\ logit_probability 0 = 1 / 2
    /\ (x <= y -> logit_probability x <= logit_probability y).
Proof.
  intros x y.
  assert (Hopp : forall z, logit_probability (- z) = 1 - logit_probability z).
  { intros z. unfold logit_probability.
    rewrite logit_clip_opp, arctanh_opp by apply logit_clip_bounds.
    apply expit_opp. }
  split; [apply logit_probability_bounds|].
  split; [apply Hopp|]. split.
  - specialize (Hopp 0). rewrite Ropp_0 in Hopp. lra.
  - intros H. unfold logit_probability.
    apply expit_increasing, arctanh_increasing;
      try apply logit_clip_bounds.
    now apply logit_clip_increasing.
Qed.

(** ** The parameters of the initial balance *)

Lemma exp_half (x : R) : exp (x / 2) = sqrt (exp x).
Proof.
  symmetry. apply sqrt_lem_1; [left; apply exp_pos | left; apply exp_pos |].
  rewrite <- exp_plus. f_equal. lra.
Qed.

(** For a mean that is not zero [make_log_normal_parameter] returns finite
    parameters [(mu, sigma)] of a log-normal distribution whose mean
    [exp (mu + sigma ^ 2 / 2)] is the magnitude of the given mean and whose
    variance [(exp (sigma ^ 2) - 1) * exp (2 * mu + sigma ^ 2)] is the
    square of the given standard deviation. *)
Theorem make_log_normal_parameter_moments (mean stddev : R) :
  mean <> 0 ->
  exists mu sigma : R,
    make_log_normal_parameter mean stddev = Ok (Some mu, sigma)
    /\ 0 <= sigma
    /\ exp (mu + sigma ^ 2 / 2) = Rabs mean
    /\ (exp (sigma ^ 2) - 1) * exp (2 * mu + sigma ^ 2) = stddev ^ 2.
Proof.
  intros Hm.
  assert (Hm2 : 0 < mean ^ 2).
  { pose proof (pow2_ge_0 mean). pose proof (pow_nonzero mean 2 Hm). lra. }
  assert (Hs2 : 0 <= stddev ^ 2) by apply pow2_ge_0.
  assert (Hsum : 0 < mean ^ 2 + stddev ^ 2) by lra.
  assert (Hroot : 0 < sqrt (mean ^ 2 + stddev ^ 2)) by now apply sqrt_lt_R0.
  assert (Harg : 0 < mean ^ 2 / sqrt (mean ^ 2 + stddev ^ 2))
    by now apply Rdiv_lt_0_compat.
  assert (Hq : 0 <= (stddev / mean) ^ 2) by apply pow2_ge_0.
  assert (Hln : 0 <= ln (1 + (stddev / mean) ^ 2)).
  { rewrite <- ln_1. destruct (Req_dec ((stddev / mean) ^ 2) 0) as [-> | Hne].
    - rewrite Rplus_0_r. lra.
    - left. apply ln_increasing; lra. }
  unfold make_log_normal_parameter. rewrite py_div_ok by assumption.
  cbv beta iota zeta delta [bind]. unfold np_log.
  apply Rltb_true in Harg as Harg'. rewrite Harg'.
  do 2 eexists. split; [reflexivity|].
  split; [apply sqrt_pos|].
  assert (Hsig : sqrt (ln (1 + (stddev / mean) ^ 2)) ^ 2
                 = ln (1 + (stddev / mean) ^ 2)).
  { now apply pow2_sqrt. }
  rewrite Hsig.
  assert (Hexp : exp (ln (1 + (stddev / mean) ^ 2))
                 = (mean ^ 2 + stddev ^ 2) / mean ^ 2).
  { rewrite exp_ln by lra. field. exact Hm. }
  assert (Hmu : exp (ln (mean ^ 2 / sqrt (mean ^ 2 + stddev ^ 2)))
                = mean ^ 2 / sqrt (mean ^ 2 + stddev ^ 2))
    by now apply exp_ln.
  split.
  - rewrite exp_plus, Hmu, exp_half, Hexp.
    rewrite sqrt_div_alt by assumption.
    replace (sqrt (mean ^ 2)) with (Rabs mean)
      by (rewrite <- sqrt_Rsqr_abs; unfold Rsqr; f_equal; ring).
    assert (Ha : 0 < Rabs mean) by now apply Rabs_pos_lt.
    assert (Hsq : mean ^ 2 = Rabs mean * Rabs mean).
    { rewrite <- Rabs_mult, Rabs_right; [ring | nra]. }
    rewrite Hsq at 1. field. split; lra.
  - replace (2 * ln (mean ^ 2 / sqrt (mean ^ 2 + stddev ^ 2))
             + ln (1 + (stddev / mean) ^ 2))
      with (ln (mean ^ 2 / sqrt (mean ^ 2 + stddev ^ 2))
            + (ln (mean ^ 2 / sqrt (mean ^ 2 + stddev ^ 2))
               + ln (1 + (stddev / mean) ^ 2))) by ring.
    rewrite !exp_plus, Hmu, Hexp.
    assert (Hr : sqrt (mean ^ 2 + stddev ^ 2) * sqrt (mean ^ 2 + stddev ^ 2)
                 = mean ^ 2 + stddev ^ 2) by (apply sqrt_sqrt; lra).
    replace (mean ^ 2 / sqrt (mean ^ 2 + stddev ^ 2)
             * (mean ^ 2 / sqrt (mean ^ 2 + stddev ^ 2)
                * ((mean ^ 2 + stddev ^ 2) / mean ^ 2)))
      with (mean ^ 2 * (mean ^ 2 + stddev ^ 2)
            / (sqrt (mean ^ 2 + stddev ^ 2) * sqrt (mean ^ 2 + stddev ^ 2)))
      by (field; split; lra).
    rewrite Hr. field. split; lra.
Qed.

(** The default of [__init__]: a mean of 10000 and a deviation of 1000. *)
Lemma make_log_normal_parameter_moments_example :
  exists mu sigma : R,
    make_log_normal_parameter 10000 1000 = Ok (Some mu, sigma)
    /\ 0 <= sigma
    /\ exp (mu + sigma ^ 2 / 2) = Rabs 10000
    /\ (exp (sigma ^ 2) - 1) * exp (2 * mu + sigma ^ 2) = 1000 ^ 2.
Proof. apply (make_log_normal_parameter_moments 10000 1000). lra. Defined.

(** ** The layout of the action vector *)

Lemma py_slice_nat {A : Type} (l : list A) (a b : nat) :
  py_slice l (Z.of_nat a) (Z.of_nat b)
  = firstn (Nat.min b (List.length l) - Nat.min a (List.length l))
      (skipn (Nat.min a (List.length l)) l).
Proof.
  unfold py_slice, slice_bound.
  destruct (Z.ltb_spec (Z.of_nat a) 0); [lia|].
  destruct (Z.ltb_spec (Z.of_nat b) 0); [lia|].
  f_equal; [| f_equal]; lia.
Qed.

Lemma py_slice_drop_last_two {A : Type} (l : list A) :
  py_slice l 0 (-2) = firstn (List.length l - 2) l.
Proof.
  unfold py_slice, slice_bound.
  destruct (Z.ltb_spec 0 0); [lia|].
  destruct (Z.ltb_spec (-2) 0); [| lia].
  replace (Z.to_nat (Z.min 0 (Z.of_nat (List.length l)))) with 0%nat by lia.
  simpl skipn. f_equal. lia.
Qed.

Lemma py_index_from_end {A : Type} (l : list A) (d : A) (j : nat) :
  (0 < j <= List.length l)%nat ->
  py_index l (- Z.of_nat j) = Ok (nth (List.length l - j) l d).
Proof.
  intros H. unfold py_index.
  destruct (Z.ltb_spec (- Z.of_nat j) 0); [| lia].
  destruct (Z.ltb_spec (- Z.of_nat j + Z.of_nat (List.length l)) 0); [lia|].
  destruct (Z.leb_spec (Z.of_nat (List.length l))
              (- Z.of_nat j + Z.of_nat (List.length l))); [lia|].
  simpl orb. cbv iota.
  replace (Z.to_nat (- Z.of_nat j + Z.of_nat (List.length l)))
    with (List.length l - j)%nat by lia.
  rewrite (nth_error_nth' l d) by lia. reflexivity.
Qed.

Lemma py_index_short {A : Type} (l : list A) (j : nat) :
  (List.length l < j)%nat -> py_index l (- Z.of_nat j) = Raise IndexError.
Proof.
  intros H. unfold py_index.
  destruct (Z.ltb_spec (- Z.of_nat j) 0); [| lia].
  destruct (Z.ltb_spec (- Z.of_nat j + Z.of_nat (List.length l)) 0); [| lia].
  reflexivity.
Qed.

Section Decode.
Context {Sim : Type}.
Variable cfg : Config Sim.

(** The slot of symbol number [i]. *)
Lemma decode_action_slot (action : list R) (i : nat) :
  decode_action cfg action i
  = (let k := (symbol_max_orders cfg + 2)%nat in
     let slot :=
       firstn (Nat.min (k * (i + 1)) (List.length action)
               - Nat.min (k * i) (List.length action))
         (skipn (Nat.min (k * i) (List.length action)) action) in
     hold_logit <- py_index slot (-2) ;;
     v <- py_index slot (-1) ;;
     Ok (map logit_probability (firstn (List.length slot - 2) slot),
         logit_probability hold_logit, v * 100)).
Proof.
  unfold decode_action. cbv zeta.
  replace (Z.of_nat (symbol_max_orders cfg + 2) * Z.of_nat i)%Z
    with (Z.of_nat ((symbol_max_orders cfg + 2) * i)) by lia.
  replace (Z.of_nat (symbol_max_orders cfg + 2) * (Z.of_nat i + 1))%Z
    with (Z.of_nat ((symbol_max_orders cfg + 2) * (i + 1))) by lia.
  rewrite py_slice_nat, py_slice_drop_last_two. reflexivity.
Qed.

(** Symbol number [i] is decoded exactly when the action vector reaches
    two components into its slot: a shorter vector raises [IndexError], and
    a vector that ends inside the slot is not refused.  When the vector
    covers the whole slot, the slot is read as [symbol_max_orders] close
    probabilities, the hold probability and the volume, scaled by 100. *)
Theorem decode_action_layout (action : list R) (i : nat) :
  ((List.length action < (symbol_max_orders cfg + 2) * i + 2)%nat ->
   decode_action cfg action i = Raise IndexError)
  /\ (((symbol_max_orders cfg + 2) * i + 2 <= List.length action)%nat ->
      exists cp hp v, decode_action cfg action i = Ok (cp, hp, v))
  /\ (((symbol_max_orders cfg + 2) * (i + 1) <= List.length action)%nat ->
      exists cp,
        decode_action cfg action i
        = Ok (cp,
              logit_probability
                (nth ((symbol_max_orders cfg + 2) * i + symbol_max_orders cfg)
                   action 0),
              nth ((symbol_max_orders cfg + 2) * i + symbol_max_orders cfg + 1)
                action 0 * 100)
        /\ List.length cp = symbol_max_orders cfg
        /\ forall j, (j < symbol_max_orders cfg)%nat ->
             nth j cp 0
             = logit_probability
                 (nth ((symbol_max_orders cfg + 2) * i + j) action 0)).
Proof.
  rewrite decode_action_slot. cbv zeta.
  set (k := (symbol_max_orders cfg + 2)%nat).
  set (n := List.length action).
  set (slot := firstn (Nat.min (k * (i + 1)) n - Nat.min (k * i) n)
                 (skipn (Nat.min (k * i) n) action)).
  assert (Hlen : List.length slot
                 = (Nat.min (k * (i + 1)) n - Nat.min (k * i) n)%nat).
  { unfold slot. rewrite length_firstn, length_skipn. fold n. lia. }
  assert (Hk : (k * (i + 1) = k * i + k)%nat) by lia.
  split; [| split].
  - intros H. change (-2)%Z with (- Z.of_nat 2)%Z.
    rewrite py_index_short by lia. reflexivity.
  - intros H. change (-2)%Z with (- Z.of_nat 2)%Z.
    change (-1)%Z with (- Z.of_nat 1)%Z.
    rewrite (py_index_from_end slot 0 2), (py_index_from_end slot 0 1)
      by (unfold k in *; lia).
    cbv beta iota delta [bind]. eauto.
  - intros H. change (-2)%Z with (- Z.of_nat 2)%Z.
    change (-1)%Z with (- Z.of_nat 1)%Z.
    assert (Hlen' : List.length slot = k) by (unfold k in *; lia).
    rewrite (py_index_from_end slot 0 2), (py_index_from_end slot 0 1)
      by (unfold k in *; lia).
    cbv beta iota delta [bind].
    assert (Hnth : forall j, (j < k)%nat ->
                     nth j slot 0 = nth (k * i + j) action 0).
    { intros j Hj. unfold slot.
      rewrite nth_firstn.
      destruct (Nat.ltb_spec j (Nat.min (k * (i + 1)) n - Nat.min (k * i) n));
        [| lia].
      rewrite nth_skipn. f_equal. lia. }
    exists (map logit_probability (firstn (List.length slot - 2) slot)).
    split; [| split].
    + rewrite Hlen'. rewrite !Hnth by (unfold k; lia).
      replace (k * i + (k - 2))%nat
        with ((symbol_max_orders cfg + 2) * i + symbol_max_orders cfg)%nat
        by (unfold k; lia).
      replace (k * i + (k - 1))%nat
        with ((symbol_max_orders cfg + 2) * i + symbol_max_orders cfg + 1)%nat
        by (unfold k; lia).
      reflexivity.
    + rewrite length_map, length_firstn. unfold k in *. lia.
    + intros j Hj.
      rewrite (nth_indep _ 0 (logit_probability 0))
        by (rewrite length_map, length_firstn; unfold k in *; lia).
      rewrite map_nth, nth_firstn.
      destruct (Nat.ltb_spec j (List.length slot - 2));
        [| unfold k in *; lia].
      rewrite Hnth by (unfold k; lia). reflexivity.
Qed.

End Decode.

(** ** The size of an order *)

Lemma py_round_IZR (k : Z) : py_round (IZR k) = k.
Proof. apply py_round_near. lra. Qed.

Lemma py_round_error (x : R) : Rabs (IZR (py_round x) - x) <= 1 / 2.
Proof.
  pose proof (Zfloor_bound x) as [Hlo Hhi].
  unfold py_round.
  destruct (Rlt_dec (x - IZR (Zfloor x)) (1 / 2)) as [Hd | Hd].
  - apply Rabs_le. lra.
  - destruct (Rlt_dec (1 / 2) (x - IZR (Zfloor x))) as [Hu | Hu].
    + rewrite plus_IZR. apply Rabs_le. lra.
    + destruct (Z.even (Zfloor x)); [| rewrite plus_IZR]; apply Rabs_le; lra.
Qed.

Lemma np_clip_inside (x lo hi : R) : lo <= x <= hi -> np_clip x lo hi = x.
Proof.
  intros [Hlo Hhi]. unfold np_clip, Rmax.
  destruct (Rle_dec x lo); unfold Rmin; destruct (Rle_dec _ hi); lra.
Qed.

Section Volume.
Context {Sim : Type} (S : Simulator Sim).

(** The size [_get_modified_volume] gives a symbol with a positive step
    does not depend on the sign of the volume; it is within half a step of
    the magnitude clipped into [[volume_min, volume_max]]; and a magnitude
    that already is a multiple of the step within these bounds is returned
    as it is. *)
Theorem modified_volume_nearest (sim : Sim) (symbol : string)
  (si : SymbolInfo) (volume : R) :
  symbols_info S sim symbol = Some si ->
  0 < volume_step si ->
  exists r : R,
    _get_modified_volume S sim symbol volume = Ok r
    /\ _get_modified_volume S sim symbol (- volume) = Ok r
    /\ Rabs (r - np_clip (Rabs volume) (volume_min si) (volume_max si))
       <= volume_step si / 2
    /\ (forall k : Z,
          Rabs volume = IZR k * volume_step si ->
          volume_min si <= Rabs volume <= volume_max si ->
          r = Rabs volume).
Proof.
  intros Hsi Hstep. unfold _get_modified_volume. rewrite Hsi.
  rewrite !modified_volume_step by lra. rewrite Rabs_Ropp.
  set (v := np_clip (Rabs volume) (volume_min si) (volume_max si)).
  eexists. split; [reflexivity|]. split; [reflexivity|]. split.
  - pose proof (py_round_error (v / volume_step si)) as He.
    replace (IZR (py_round (v / volume_step si)) * volume_step si - v)
      with ((IZR (py_round (v / volume_step si)) - v / volume_step si)
            * volume_step si) by (field; lra).
    rewrite Rabs_mult, (Rabs_right (volume_step si)) by lra.
    apply Rmult_le_reg_r with (/ volume_step si);
      [apply Rinv_0_lt_compat; lra|].
    rewrite Rmult_assoc, Rinv_r by lra.
    replace (volume_step si / 2 * / volume_step si) with (1 / 2)
      by (field; lra).
    lra.
  - intros k Hk Hin. subst v. rewrite np_clip_inside by exact Hin.
    rewrite Hk.
    replace (IZR k * volume_step si / volume_step si) with (IZR k)
      by (field; lra).
    now rewrite py_round_IZR.
Qed.

End Volume.

(** A sale of 0.37 lots of a currency pair. *)
Lemma modified_volume_nearest_example :
  exists r : R,
    _get_modified_volume BookSimulator (empty_book true lot_info) "EURUSD"
      (- 0.37) = Ok r
    /\ _get_modified_volume BookSimulator (empty_book true lot_info) "EURUSD"
         (- - 0.37) = Ok r
    /\ Rabs (r - np_clip (Rabs (- 0.37)) (volume_min lot_info)
                   (volume_max lot_info))
       <= volume_step lot_info / 2
    /\ (forall k : Z,
          Rabs (- 0.37) = IZR k * volume_step lot_info ->
          volume_min lot_info <= Rabs (- 0.37) <= volume_max lot_info ->
          r = Rabs (- 0.37)).
Proof.
  apply (modified_volume_nearest BookSimulator (empty_book true lot_info)
           "EURUSD" lot_info (- 0.37)); [reflexivity | simpl; lra].
Defined.

(** ** Ticks, truncation and the end of the time axis *)

Lemma py_index_range {A : Type} (l : list A) (i : Z) (a : A) :
  py_index l i = Ok a ->
  (- Z.of_nat (List.length l) <= i < Z.of_nat (List.length l))%Z.
Proof.
  unfold py_index.
  set (j := if (i <? 0)%Z then (i + Z.of_nat (List.length l))%Z else i).
  assert (Hj : (0 <= j < Z.of_nat (List.length l))%Z ->
               (- Z.of_nat (List.length l) <= i < Z.of_nat (List.length l))%Z).
  { unfold j. destruct (Z.ltb_spec i 0); lia. }
  destruct (Z.ltb_spec j 0); [discriminate|].
  destruct (Z.leb_spec (Z.of_nat (List.length l)) j); [discriminate|].
  intros _. apply Hj. lia.
Qed.

Lemma py_index_in_range {A : Type} (l : list A) (i : Z) :
  (- Z.of_nat (List.length l) <= i < Z.of_nat (List.length l))%Z ->
  exists a, py_index l i = Ok a.
Proof.
  intros H. unfold py_index.
  set (j := if (i <? 0)%Z then (i + Z.of_nat (List.length l))%Z else i).
  assert (Hj : (0 <= j < Z.of_nat (List.length l))%Z).
  { unfold j. destruct (Z.ltb_spec i 0); lia. }
  destruct (Z.ltb_spec j 0); [lia|].
  destruct (Z.leb_spec (Z.of_nat (List.length l)) j); [lia|]. simpl.
  destruct (nth_error l (Z.to_nat j)) eqn:E; [eauto|].
  apply nth_error_None in E. lia.
Qed.

Lemma py_index_past_end {A : Type} (l : list A) (i : Z) :
  (Z.of_nat (List.length l) <= i)%Z -> py_index l i = Raise IndexError.
Proof.
  intros H. unfold py_index.
  destruct (Z.ltb_spec i 0); [lia|].
  destruct (Z.ltb_spec i 0); [lia|].
  destruct (Z.leb_spec (Z.of_nat (List.length l)) i); [reflexivity | lia].
Qed.

Section Ticks.
Context {Sim : Type} (S : Simulator Sim).
Variable gauss : Z -> R.
Variable seed_words : Z -> nat -> Z.
Variable cfg : Config Sim.

Lemma reset_time_point (env env' : MtEnv Sim) (sd : option Z)
  (out : Observation * Info) :
  reset S gauss seed_words cfg env sd = Ok (env', out) ->
  exists t, py_index (time_points cfg) (current_tick env') = Ok t.
Proof.
  unfold reset. intros H.
  inv_bind H. inv_bind H. destruct a0 as [[sim ib] g0].
  inv_bind H. destruct a0 as [[st e] g2]. inv_bind H. inv_bind H.
  inversion H; subst; simpl. eauto.
Qed.

Lemma episode_time_point (env : MtEnv Sim) :
  episode S gauss seed_words cfg env ->
  exists t, py_index (time_points cfg) (current_tick env) = Ok t.
Proof.
  destruct 1 as [env sd env' out H | env action env' out Hep H].
  - now apply reset_time_point in H.
  - apply step_inv in H
      as (oi & ci & sim & g & now & before & _ & Hnow & _ & _ & _ & Hc & _).
    rewrite Hc. eauto.
Qed.

Lemma episode_history_nonempty (env : MtEnv Sim) :
  episode S gauss seed_words cfg env -> (1 <= List.length (history env))%nat.
Proof.
  destruct 1 as [env sd env' out H | env action env' out Hep H].
  - apply reset_inv in H as (_ & Hh & _). lia.
  - apply step_inv in H
      as (oi & ci & sim & g & now & before & _ & _ & _ & _ & _ & _ & _ & _ & _
          & Hh & _).
    rewrite Hh, length_app. simpl. lia.
Qed.

(** In every state that [reset] or [step] has returned, the current tick
    is at or after the start tick and is the index of a time point; when
    the start tick is not negative it is at most the last index.  At the
    last index no call of [step] returns: it raises for every action, and
    it raises [IndexError] when the action is applied without an exception,
    as the time point after the last one is looked up once the action has
    been applied and the tick incremented. *)
Theorem current_tick_on_time_axis (env : MtEnv Sim) :
  episode S gauss seed_words cfg env ->
  (start_tick env <= current_tick env)%Z
  /\ (exists t, py_index (time_points cfg) (current_tick env) = Ok t)
  /\ ((0 <= start_tick env)%Z ->
      (current_tick env <= max_end_tick cfg)%Z
      /\ ((current_tick env = max_end_tick cfg)%Z ->
          forall action,
            (exists e, step S cfg env action = Raise e)
            /\ (forall oi ci sim g,
                  _apply_action S cfg action (simulator env) (np_rng env)
                  = Ok (oi, ci, sim, g) ->
                  step S cfg env action = Raise IndexError))).
Proof.
  intros Hep.
  pose proof (history_length_episode S gauss seed_words cfg env Hep) as Hlen.
  pose proof (episode_history_nonempty env Hep) as Hne.
  destruct (episode_time_point env Hep) as [t Ht].
  assert (Hstart : (start_tick env <= current_tick env)%Z) by lia.
  split; [exact Hstart|]. split; [eauto|].
  intros H0. apply py_index_range in Ht as Hr. unfold max_end_tick.
  split; [lia|].
  intros Hend action.
  assert (Hpast : py_index (time_points cfg) (current_tick env + 1)
                  = Raise IndexError)
    by (apply py_index_past_end; unfold max_end_tick in Hend; lia).
  split.
  - destruct (step S cfg env action) as [[env' r] | e] eqn:Hs; [| eauto].
    apply step_inv in Hs
      as (oi & ci & sim & g & now & before & _ & Hnow & _).
    rewrite Hpast in Hnow. discriminate.
  - intros oi ci sim g Ha. unfold step. rewrite Ha.
    cbv beta iota zeta delta [bind]. now rewrite Hpast.
Qed.

(** Once an episode whose end tick lies after its start tick has reached
    the end tick it is truncated, and not before. *)
Theorem truncated_from_end_tick (env : MtEnv Sim) :
  episode S gauss seed_words cfg env ->
  (start_tick env < end_tick env)%Z ->
  (truncated env = true <-> (end_tick env <= current_tick env)%Z)
  /\ (forall action env' r,
        step S cfg env action = Ok (env', r) ->
        r_truncated r = truncated env'
        /\ (r_truncated r = true <-> (end_tick env <= current_tick env + 1)%Z)).
Proof.
  intros Hep.
  assert (Hinv : (start_tick env < end_tick env)%Z ->
                 (truncated env = true <-> (end_tick env <= current_tick env)%Z)).
  { induction Hep as [env sd env' out H | env action env' out Hep IH H].
    - apply reset_inv in H as (Hc & _ & Ht & _). rewrite Hc, Ht.
      intros Hlt. split; [discriminate | lia].
    - pose proof (history_length_episode S gauss seed_words cfg env Hep) as Hl.
      apply step_inv in H
        as (oi & ci & sim & g & now & before & _ & _ & _ & _ & _ & Hc & Hs
            & He & _ & _ & Ht & _).
      rewrite Hs, He. intros Hlt. specialize (IH Hlt).
      rewrite Ht, Hc.
      destruct (Z.eqb_spec (current_tick env + 1) (end_tick env)).
      + split; [lia | reflexivity].
      + rewrite IH. lia. }
  intros Hlt. split; [now apply Hinv|].
  intros action env' r H.
  pose proof (episode_step S gauss seed_words cfg _ _ _ _ Hep H) as Hep'.
  specialize (Hinv Hlt).
  apply step_inv in H
    as (oi & ci & sim & g & now & before & _ & _ & _ & _ & _ & Hc & Hs
        & He & _ & _ & Ht & Hr & _).
  split; [exact Hr|]. rewrite Hr, Ht.
  destruct (Z.eqb_spec (current_tick env + 1) (end_tick env)).
  - split; [lia | reflexivity].
  - rewrite Hinv. lia.
Qed.

End Ticks.

(** ** The rewards of an episode *)




Section Rewards.
Context {Sim : Type} (S : Simulator Sim).
Variable gauss : Z -> R.
Variable seed_words : Z -> nat -> Z.
Variable cfg : Config Sim.

(** What a returned [step] has computed for the reward. *)
Lemma step_reward_inv (env env' : MtEnv Sim) (action : list R) (r : StepResult) :
  step S cfg env action = Ok (env', r) ->
  exists (last : Info) (rw : option R),
    py_index (history env) (-1) = Ok last
    /\ info_step_reward (r_info r) = Some rw
    /\ info_equity (r_info r) = equity S (simulator env')
    /\ info_balance (r_info r) = balance S (simulator env')
    /\ (if log_reward cfg
        then _calculate_log_reward (info_equity last)
               (equity S (simulator env')) = Ok rw
        else initial_balance env <> 0
             /\ rw = Some ((equity S (simulator env') - info_equity last)
                           / initial_balance env * 100))
    /\ r_reward r
       = (if risk_premium cfg
          then option_map
                 (fun x => x - balance S (simulator env')
                               * risk_free_rate cfg / 365.25) rw
          else rw).
Proof.
  unfold step. intros H.
  inv_bind H. destruct a as [[[oi ci] sim] g]. cbv beta iota zeta in H.
  inv_bind H. inv_bind H. inv_bind H. inv_bind H. inv_bind H. inv_bind H.
  inversion H; subst; clear H; simpl.
  exists a1, a2. repeat split; try assumption.
  destruct (log_reward cfg); [assumption|].
  unfold _calculate_reward in Ha3. inv_bind Ha3.
  unfold py_div in Ha6.
  destruct (Reqb (initial_balance env) 0) eqn:E; [discriminate|].
  apply Reqb_false in E. inversion Ha6; subst. inversion Ha3; subst.
  now split.
Qed.



(** The risk premium lowers the reward [step] returns by
    [balance * risk_free_rate / 365.25]; the reward recorded in the info,
    and so in the history, is the one before the premium. *)
Theorem risk_premium_not_recorded (env env' : MtEnv Sim) (action : list R)
  (r : StepResult) :
  step S cfg env action = Ok (env', r) ->
  exists rw : option R,
    info_step_reward (r_info r) = Some rw
    /\ last (history env') (r_info r) = r_info r
    /\ r_reward r
       = (if risk_premium cfg
          then option_map
                 (fun x => x - balance S (simulator env')
                               * risk_free_rate cfg / 365.25) rw
          else rw).
Proof.
  intros H.
  pose proof (step_reward_inv _ _ _ _ H) as (l & rw & _ & Hrw & _ & _ & Hm & Hr).
  apply step_inv in H
    as (oi & ci & sim & g & now & before & _ & _ & _ & _ & _ & _ & _ & _ & _
        & Hh & _).
  exists rw. split; [exact Hrw|]. split; [rewrite Hh; apply last_last|].
  exact Hr.
Qed.

End Rewards.

(** ** When [reset] returns *)

Lemma mapM_returns {A B : Type} (f : A -> Result B) (l : list A) :
  (forall a, In a l -> exists b, f a = Ok b) -> exists r, mapM f l = Ok r.
Proof.
  induction l as [| a l IH]; intros H; [simpl; eauto|].
  destruct (H a (or_introl eq_refl)) as [b Hb].
  destruct IH as [r Hr]; [intros a' Ha'; apply H; now right|].
  cbn [mapM]. rewrite Hb. cbv beta iota delta [bind]. rewrite Hr. eauto.
Qed.

Section ResetReturns.
Context {Sim : Type} (S : Simulator Sim).
Variable gauss : Z -> R.
Variable seed_words : Z -> nat -> Z.
Variable cfg : Config Sim.

Lemma observation_returns (sim : Sim) (t : Z) :
  (forall s, In s (trading_symbols cfg) ->
             (List.length (symbol_orders S sim s) <= symbol_max_orders cfg)%nat) ->
  exists obs, _get_observation S cfg sim t = Ok obs.
Proof.
  intros H. unfold _get_observation.
  destruct (mapM_returns
              (fun symbol => order_rows cfg (symbol_orders S sim symbol))
              (trading_symbols cfg)) as [rows Hrows].
  - intros s Hin. unfold order_rows.
    destruct (Nat.ltb_spec (symbol_max_orders cfg)
                (List.length (symbol_orders S sim s))); [| eauto].
    specialize (H s Hin). lia.
  - rewrite Hrows. cbv beta iota delta [bind]. eauto.
Qed.

Lemma observation_returns_inv (sim : Sim) (t : Z) (obs : Observation) :
  _get_observation S cfg sim t = Ok obs ->
  forall s, In s (trading_symbols cfg) ->
            (List.length (symbol_orders S sim s) <= symbol_max_orders cfg)%nat.
Proof.
  intros H s Hin.
  unfold _get_observation in H. inv_bind H.
  destruct (mapM_ok _ _ _ Ha s Hin) as [rows Hrows].
  unfold order_rows in Hrows.
  destruct (Nat.ltb_spec (symbol_max_orders cfg)
              (List.length (symbol_orders S sim s))); [discriminate | lia].
Qed.

Lemma observation_raises_index (sim : Sim) (t : Z) (e : PyExn) :
  _get_observation S cfg sim t = Raise e -> e = IndexError.
Proof.
  intros H. unfold _get_observation in H.
  destruct (mapM _ (trading_symbols cfg)) as [rows | e'] eqn:Hm;
    cbv beta iota delta [bind] in H; [discriminate|].
  inversion H; subst e'. clear H.
  revert Hm. generalize (trading_symbols cfg). intros l.
  induction l as [| s l IH]; cbn [mapM]; [discriminate|].
  unfold order_rows at 1.
  destruct (Nat.ltb _ _); cbv beta iota delta [bind].
  - intros H. now inversion H.
  - destruct (mapM _ l) as [rows | e'];
      cbv beta iota delta [bind]; [discriminate|].
    intros H. apply IH. now inversion H.
Qed.

(** The observation is built exactly when no traded symbol has more open
    orders than [symbol_max_orders]; otherwise [_get_observation] raises
    [IndexError], whatever the tick. *)
Theorem observation_needs_room (sim : Sim) (t : Z) :
  ((forall s, In s (trading_symbols cfg) ->
              (List.length (symbol_orders S sim s) <= symbol_max_orders cfg)%nat)
   <-> exists obs, _get_observation S cfg sim t = Ok obs)
  /\ ((exists s, In s (trading_symbols cfg)
                 /\ (symbol_max_orders cfg
                     < List.length (symbol_orders S sim s))%nat)
      <-> _get_observation S cfg sim t = Raise IndexError).
Proof.
  split; split.
  - apply observation_returns.
  - intros [obs H]. now apply observation_returns_inv with t obs.
  - intros (s & Hin & Hlt).
    destruct (_get_observation S cfg sim t) as [obs | e] eqn:H.
    + pose proof (observation_returns_inv sim t obs H s Hin). lia.
    + now rewrite (observation_raises_index sim t e H).
  - intros H.
    assert (Hex : ~ (forall s, In s (trading_symbols cfg) ->
                     (List.length (symbol_orders S sim s)
                      <= symbol_max_orders cfg)%nat)).
    { intros Hall. destruct (observation_returns sim t Hall) as [obs Ho].
      congruence. }
    clear H. revert Hex. generalize (trading_symbols cfg). intros l.
    induction l as [| s l IH]; intros Hex.
    + exfalso. apply Hex. intros s [].
    + destruct (Nat.ltb_spec (symbol_max_orders cfg)
                  (List.length (symbol_orders S sim s))) as [Hlt | Hle].
      * exists s. split; [now left | exact Hlt].
      * destruct IH as (s' & Hin & Hlt).
        { intros Hall. apply Hex. intros s' [<- | Hin]; [exact Hle | auto]. }
        exists s'. split; [now right | exact Hlt].
Qed.

Lemma gym_reset_ok (sd : option Z) :
  (forall s, sd = Some s -> (0 <= s)%Z) -> gym_reset sd = Ok tt.
Proof.
  intros H. unfold gym_reset. destruct sd as [s |]; [| reflexivity].
  specialize (H s eq_refl).
  destruct (Z.ltb_spec s 0); [lia | reflexivity].
Qed.

Lemma initial_conditions_returns (g : Generator) :
  (randomize_initial_balance cfg = true ->
   0 <= snd (initial_balance_kwargs cfg)) ->
  exists sim ib g0, initial_conditions S gauss cfg g = Ok (sim, ib, g0).
Proof.
  intros H. unfold initial_conditions.
  destruct (randomize_initial_balance cfg); [| eauto].
  unfold rng_lognormal.
  replace (Rltb (snd (initial_balance_kwargs cfg)) 0) with false
    by (symmetry; apply Rltb_false; auto).
  destruct (next_word g) as [w g']. cbv beta iota zeta delta [bind]. eauto.
Qed.

Lemma py_index_raises {A : Type} (l : list A) (i : Z) (e : PyExn) :
  py_index l i = Raise e -> e = IndexError.
Proof.
  unfold py_index.
  destruct ((_ <? 0)%Z || _)%bool; [intros H; now inversion H|].
  destruct (nth_error _ _); [discriminate | intros H; now inversion H].
Qed.

Hypothesis contract : SimulatorContract S.

(** Over a simulator that meets its contract, [reset] returns from every
    state of an environment, with no seed or a seed that is not negative,
    when: the time axis is longer than a window that is not negative; the
    simulator starts with at most [symbol_max_orders] open orders per
    traded symbol; a random initial balance has a [sigma] that is not
    negative; and, with time-windowing, the window, the sub-window lengths
    and the time axis are small enough for the 64-bit sums not to wrap
    around and the two sampling ranges are not empty. *)
Theorem reset_returns (env : MtEnv Sim) (sd : option Z) :
  reachable S gauss seed_words cfg env ->
  (forall s, sd = Some s -> (0 <= s)%Z) ->
  (0 <= window_size cfg < Z.of_nat (List.length (time_points cfg)))%Z ->
  (forall s, In s (trading_symbols cfg) ->
             (List.length (symbol_orders S (original_simulator cfg) s)
              <= symbol_max_orders cfg)%nat) ->
  (randomize_initial_balance cfg = true ->
   0 <= snd (initial_balance_kwargs cfg)) ->
  (time_split cfg = true ->
   window_fits cfg
   /\ (0 <= min_time_split_length cfg < max_time_split_length cfg)%Z
   /\ (window_size cfg + min_time_split_length cfg
       < Z.of_nat (List.length (time_points cfg)))%Z) ->
  exists env' out, reset S gauss seed_words cfg env sd = Ok (env', out).
Proof.
  intros Hr Hseed Hw Horders Hsigma Hsplit. unfold reset.
  rewrite gym_reset_ok by exact Hseed. cbv beta iota zeta delta [bind].
  destruct (initial_conditions_returns (reset_rng seed_words env sd) Hsigma)
    as (sim & ib & g0 & Hic).
  assert (Hi : forall s,
             symbol_orders S sim s = symbol_orders S (original_simulator cfg) s)
    by (intros s;
        exact (proj1 (initial_conditions_orders S gauss cfg contract
                        _ _ _ _ s Hic))).
  rewrite Hic. cbv beta iota zeta delta [bind].
  assert (Hwin : exists start stop g,
             (if time_split cfg then sample_window cfg g0
              else Ok (start_tick env, end_tick env, g0))
             = Ok (start, stop, g)
             /\ (-1 <= start < Z.of_nat (List.length (time_points cfg)))%Z).
  { destruct (time_split cfg) eqn:Es.
    - destruct (Hsplit eq_refl) as (Hfit & Hmin & Hroom).
      destruct (sample_window_returns cfg g0 Hfit) as (start & stop & g & Hs);
        [unfold initial_start_tick, max_end_tick; lia | lia |].
      exists start, stop, g. split; [exact Hs|].
      apply sample_window_range in Hs as [[H1 H2] _]; [| exact Hfit].
      unfold initial_start_tick, max_end_tick in *. lia.
    - destruct (reachable_ticks S gauss seed_words cfg env Hr Es) as [-> _].
      do 3 eexists. split; [reflexivity|].
      unfold initial_start_tick. lia. }
  destruct Hwin as (start & stop & g & -> & Hrange).
  cbv beta iota zeta delta [bind].
  destruct (py_index_in_range (time_points cfg) start) as [t ->]; [lia|].
  cbv beta iota zeta delta [bind].
  destruct (observation_returns (set_current_time S sim t) start) as [obs ->].
  - intros s Hin. rewrite (set_current_time_orders S contract).
    rewrite Hi. now apply Horders.
  - cbv beta iota zeta delta [bind]. eauto.
Qed.

End ResetReturns.

Section ResetWindow.
Context {Sim : Type} (S : Simulator Sim).
Variable gauss : Z -> R.
Variable seed_words : Z -> nat -> Z.
Variable cfg : Config Sim.

(** With time-windowing, no seed or a seed that is not negative, a [sigma]
    that is not negative when the initial balance is random, and the
    window, the sub-window lengths and the time axis small enough for the
    64-bit sums not to wrap around: [reset] raises a [ValueError] exactly
    when the time axis is not longer than the window and the smallest
    sub-window together, or the largest sub-window is not longer than the
    smallest. *)
Theorem reset_window_needs_room (env : MtEnv Sim) (sd : option Z) :
  time_split cfg = true ->
  window_fits cfg ->
  (forall s, sd = Some s -> (0 <= s)%Z) ->
  (randomize_initial_balance cfg = true ->
   0 <= snd (initial_balance_kwargs cfg)) ->
  ((Z.of_nat (List.length (time_points cfg))
    <= window_size cfg + min_time_split_length cfg)%Z
   \/ (max_time_split_length cfg <= min_time_split_length cfg)%Z)
  <-> (exists msg,
         reset S gauss seed_words cfg env sd = Raise (ValueError msg)).
Proof.
  intros Hsplit Hfit Hseed Hsigma. unfold reset.
  rewrite gym_reset_ok by exact Hseed. cbv beta iota zeta delta [bind].
  destruct (initial_conditions_returns S gauss cfg
              (reset_rng seed_words env sd) Hsigma)
    as (sim & ib & g0 & ->).
  cbv beta iota zeta delta [bind].
  rewrite Hsplit. split.
  - intros H.
    destruct (sample_window_empty cfg g0 Hfit) as [msg ->].
    + unfold initial_start_tick, max_end_tick. lia.
    + cbv beta iota zeta delta [bind]. eauto.
  - intros [msg H].
    destruct (Z.le_gt_cases (Z.of_nat (List.length (time_points cfg)))
                (window_size cfg + min_time_split_length cfg)) as [Hl | Hl];
      [now left|].
    destruct (Z.le_gt_cases (max_time_split_length cfg)
                (min_time_split_length cfg)) as [Hm | Hm]; [now right|].
    exfalso.
    destruct (sample_window_returns cfg g0 Hfit) as (start & stop & g & Hs);
      [unfold initial_start_tick, max_end_tick; lia | lia |].
    rewrite Hs in H. cbv beta iota zeta delta [bind] in H.
    destruct (py_index (time_points cfg) start) as [t | e] eqn:Ht;
      cbv beta iota zeta delta [bind] in H.
    + destruct (_get_observation S cfg (set_current_time S sim t) start)
        as [obs | e] eqn:Ho; cbv beta iota zeta delta [bind] in H;
        [discriminate|].
      apply observation_raises_index in Ho.
      subst e. discriminate.
    + apply py_index_raises in Ht. subst e. discriminate.
Qed.

(** With a random initial balance, over a simulator whose balance and
    equity read back what was assigned to them, [reset] leaves an initial
    balance that is the exponential of the drawn variate, hence positive:
    the linear reward and the loss-cut test never divide by zero. *)
Theorem random_initial_balance_positive (env env' : MtEnv Sim)
  (sd : option Z) (out : Observation * Info) :
  (forall sim x, equity S (set_equity S sim x) = x) ->
  (forall sim x, balance S (set_balance S sim x) = x) ->
  randomize_initial_balance cfg = true ->
  reset S gauss seed_words cfg env sd = Ok (env', out) ->
  initial_balance env'
  = exp (fst (initial_balance_kwargs cfg)
         + snd (initial_balance_kwargs cfg)
           * gauss (words (reset_rng seed_words env sd)
                      (cursor (reset_rng seed_words env sd))))
  /\ 0 < initial_balance env'
  /\ (forall prev cur dez lc,
        exists x b,
          _calculate_reward prev cur (initial_balance env') = Ok x
          /\ terminal_flag dez lc cur (initial_balance env') = Ok b).
Proof.
  intros Heq Hbal Hrand H.
  assert (Hib : initial_balance env'
                = exp (fst (initial_balance_kwargs cfg)
                       + snd (initial_balance_kwargs cfg)
                         * gauss (words (reset_rng seed_words env sd)
                                    (cursor (reset_rng seed_words env sd))))).
  { unfold reset in H. inv_bind H. inv_bind H.
    destruct a0 as [[sim ib] g0].
    inv_bind H. destruct a0 as [[st e] g2]. inv_bind H. inv_bind H.
    inversion H; subst; simpl.
    unfold initial_conditions in Ha0. rewrite Hrand in Ha0.
    inv_bind Ha0. destruct a2 as [x g1]. cbv beta iota zeta in Ha0.
    inversion Ha0; subst.
    unfold rng_lognormal, next_word in Ha4.
    destruct (Rltb _ 0); [discriminate|].
    inversion Ha4; subst. now rewrite Hbal, Heq. }
  split; [exact Hib|].
  assert (Hpos : 0 < initial_balance env') by (rewrite Hib; apply exp_pos).
  split; [exact Hpos|].
  intros prev cur dez lc. unfold _calculate_reward.
  rewrite py_div_ok, terminal_flag_spec by lra.
  cbv beta iota delta [bind]. eauto.
Qed.

End ResetWindow.

(** ** The further statements on the small environment *)

Lemma book_next_ticks :
  start_tick (book_next refusing_config) = 0%Z
  /\ end_tick (book_next refusing_config) = 19%Z
  /\ current_tick (book_next refusing_config) = 1%Z.
Proof.
  destruct book_next_step as [r H].
  apply step_inv in H
    as (oi & ci & sim & g & now & before & _ & _ & _ & _ & _ & Hc & Hs & He & _).
  rewrite Hc, Hs, He. repeat split.
Qed.

Lemma book_start_random :
  exists out,
    reset BookSimulator zero_gauss zero_seed random_config
          (init zero_seed random_config) None
    = Ok (book_start random_config, out).
Proof.
  assert (H : exists env' out,
             reset BookSimulator zero_gauss zero_seed random_config
                   (init zero_seed random_config) None = Ok (env', out)).
  { unfold reset. cbn [gym_reset]. cbv beta iota zeta delta [bind].
    destruct (initial_conditions_returns BookSimulator zero_gauss
                random_config
                (reset_rng zero_seed (init zero_seed random_config) None))
      as (sim & ib & g0 & Hic).
    { intros _. cbn [random_config initial_balance_kwargs snd].
      apply sqrt_pos. }
    rewrite Hic. cbv beta iota zeta delta [bind].
    change (time_split random_config) with false. cbv iota.
    cbv beta iota zeta delta [bind].
    destruct (py_index_in_range (time_points random_config)
                (start_tick (init zero_seed random_config))) as [t ->];
      [split; [apply Z.leb_le | apply Z.ltb_lt]; reflexivity|].
    cbv beta iota zeta delta [bind].
    destruct (observation_returns BookSimulator random_config
                (set_current_time BookSimulator sim t)
                (start_tick (init zero_seed random_config))) as [obs ->].
    - intros s Hin.
      rewrite (set_current_time_orders BookSimulator book_contract).
      rewrite (proj1 (initial_conditions_orders BookSimulator zero_gauss
                        random_config book_contract _ _ _ _ s Hic)).
      simpl. lia.
    - cbv beta iota zeta delta [bind]. eauto. }
  destruct H as (env' & out & H). apply state_of_ok.
  now rewrite H.
Qed.

Lemma book_start_brief :
  exists out,
    reset BookSimulator zero_gauss zero_seed brief_config
          (init zero_seed brief_config) None
    = Ok (book_start brief_config, out).
Proof. apply state_of_ok. lazy. reflexivity. Qed.

Lemma book_start_premium :
  exists out,
    reset BookSimulator zero_gauss zero_seed premium_config
          (init zero_seed premium_config) None
    = Ok (book_start premium_config, out).
Proof. apply state_of_ok. lazy. reflexivity. Qed.

(** The small environment of two time points after [reset]: it is on the
    last time point, tick 1, where [step] applies the action and then
    raises for the time point 2. *)
Lemma current_tick_on_time_axis_example :
  (start_tick (book_start brief_config)
   <= current_tick (book_start brief_config))%Z
  /\ (exists t, py_index (time_points brief_config)
                  (current_tick (book_start brief_config)) = Ok t)
  /\ current_tick (book_start brief_config) = max_end_tick brief_config
  /\ (exists oi ci sim g,
        _apply_action BookSimulator brief_config zero_action
          (simulator (book_start brief_config))
          (np_rng (book_start brief_config)) = Ok (oi, ci, sim, g))
  /\ step BookSimulator brief_config (book_start brief_config) zero_action
     = Raise IndexError.
Proof.
  destruct book_start_brief as [out Hr].
  destruct (current_tick_on_time_axis BookSimulator zero_gauss zero_seed
              brief_config (book_start brief_config)
              (episode_reset BookSimulator zero_gauss zero_seed brief_config
                 _ _ _ _ Hr))
    as (H1 & H2 & H3).
  destruct (traded_first_action false 1) as (oi & ci & Ha).
  split; [exact H1|]. split; [exact H2|]. split; [reflexivity|].
  split; [exists oi, ci, (traded_book 1),
            {| words := zero_words; cursor := 2 |}; exact Ha|].
  destruct H3 as [_ H3]; [apply Z.leb_le; reflexivity|].
  exact (proj2 (H3 eq_refl zero_action) oi ci _ _ Ha).
Defined.

(** The small environment after a [reset] and a [step] is not truncated:
    its end tick is 19. *)
Lemma truncated_from_end_tick_example :
  truncated (book_next refusing_config) = false.
Proof.
  destruct book_next_ticks as (Hs & He & Hc).
  destruct (truncated_from_end_tick BookSimulator zero_gauss zero_seed
              refusing_config (book_next refusing_config) book_next_episode)
    as [H _]; [lia|].
  destruct (truncated (book_next refusing_config)); [| reflexivity].
  destruct H as [H _]. specialize (H eq_refl). lia.
Defined.


(** The small environment with random sub-windows, as built, reset with
    the seed 7. *)
Lemma reset_returns_example :
  exists env' out,
    reset BookSimulator zero_gauss zero_seed split_config
          (init zero_seed split_config) (Some 7%Z) = Ok (env', out).
Proof.
  apply (reset_returns BookSimulator zero_gauss zero_seed split_config
           book_contract).
  - apply reachable_init.
  - intros s E. inversion E. lia.
  - split; [apply Z.leb_le | apply Z.ltb_lt]; reflexivity.
  - intros s _. simpl. lia.
  - intros E. discriminate E.
  - intros _. split; [exact split_config_fits|].
    split; [split|]; try (apply Z.leb_le; reflexivity);
      apply Z.ltb_lt; reflexivity.
Defined.

(** The small environment with random sub-windows has twenty time points
    and a window of one.  With sub-windows of ten to two hundred ticks
    [reset] does not raise the error of an empty range; with sub-windows of
    at least nineteen ticks it does. *)
Lemma reset_window_needs_room_example :
  (((Z.of_nat (List.length (time_points split_config))
     <= window_size split_config + min_time_split_length split_config)%Z
    \/ (max_time_split_length split_config
        <= min_time_split_length split_config)%Z)
   <-> (exists msg,
          reset BookSimulator zero_gauss zero_seed split_config
                (init zero_seed split_config) None = Raise (ValueError msg)))
  /\ (exists msg,
        reset BookSimulator zero_gauss zero_seed cramped_config
              (init zero_seed cramped_config) None = Raise (ValueError msg)).
Proof.
  split.
  - apply (reset_window_needs_room BookSimulator zero_gauss zero_seed
             split_config (init zero_seed split_config) None eq_refl
             split_config_fits).
    + intros s E. discriminate E.
    + intros E. discriminate E.
  - apply (reset_window_needs_room BookSimulator zero_gauss zero_seed
             cramped_config (init zero_seed cramped_config) None eq_refl).
    + unfold window_fits. repeat split; apply Z.leb_le; reflexivity.
    + intros s E. discriminate E.
    + intros E. discriminate E.
    + left. apply Z.leb_le. reflexivity.
Defined.

(** The small environment with a random initial balance, after [reset]. *)
Lemma random_initial_balance_positive_example :
  0 < initial_balance (book_start random_config).
Proof.
  destruct book_start_random as [out H].
  exact (proj1 (proj2 (random_initial_balance_positive BookSimulator
                         zero_gauss zero_seed random_config
                         (init zero_seed random_config)
                         (book_start random_config) None out
                         (fun _ _ => eq_refl) (fun _ _ => eq_refl)
                         eq_refl H))).
Defined.

(** The first step of the small environment with the risk premium. *)
Lemma premium_next_step :
  exists env' r,
    step BookSimulator premium_config (book_start premium_config) zero_action
    = Ok (env', r)
    /\ simulator env' = traded_book 1.
Proof.
  destruct (traded_first_action false 0) as (oi & ci & Ha).
  assert (Hobs : exists obs,
             _get_observation BookSimulator premium_config
               (tick BookSimulator (traded_book 0) (1 - 0))
               (current_tick (book_start premium_config) + 1) = Ok obs)
    by (eexists; reflexivity).
  destruct Hobs as [obs Hobs].
  destruct (step_returns BookSimulator premium_config
              (book_start premium_config) zero_action oi ci (traded_book 0)
              {| words := zero_words; cursor := 2 |} 1%Z 0%Z
              (_create_info BookSimulator (empty_book true lot_info)
                 None None None)
              obs Ha)
    as (env' & r & H & _ & _ & _ & Hsim);
    try reflexivity; try exact Hobs.
  - replace (initial_balance (book_start premium_config)) with 10000
      by reflexivity.
    lra.
  - exists env', r. split; [exact H | exact Hsim].
Qed.

(** The first [step] of the small environment with the risk premium on a
    balance of 10000 at the rate 0.02: the reward returned is the reward
    recorded in the info and the history less [10000 * 0.02 / 365.25]. *)
Lemma risk_premium_not_recorded_example :
  exists (env' : MtEnv Book) (r : StepResult) (x : R),
    step BookSimulator premium_config (book_start premium_config) zero_action
    = Ok (env', r)
    /\ risk_premium premium_config = true
    /\ info_step_reward (r_info r) = Some (Some x)
    /\ info_step_reward (last (history env') (r_info r)) = Some (Some x)
    /\ r_reward r = Some (x - 10000 * 0.02 / 365.25).
Proof.
  destruct premium_next_step as (env' & r & H & Hsim).
  destruct (risk_premium_not_recorded BookSimulator premium_config _ _ _ _ H)
    as (rw & Hrw & Hlast & Hr).
  destruct (step_reward_inv BookSimulator premium_config _ _ _ _ H)
    as (l & rw' & _ & Hrw' & _ & _ & Hlin & _).
  change (log_reward premium_config) with false in Hlin. cbv iota in Hlin.
  destruct Hlin as [_ Hx].
  assert (E : rw = rw') by congruence. rewrite Hx in E.
  exists env', r,
    ((equity BookSimulator (simulator env') - info_equity l)
     / initial_balance (book_start premium_config) * 100).
  split; [exact H|]. split; [reflexivity|].
  rewrite Hlast, Hrw, Hr, E, Hsim. repeat split.
Defined.

(** ** The entries of [orders_info] and [closed_orders_info] *)

Lemma no_closed_orders_keys {Sim : Type} (cfg : Config Sim) (s : string) :
  (exists l, dict_get (no_closed_orders cfg) s = Some l)
  <-> In s (trading_symbols cfg).
Proof.
  unfold no_closed_orders.
  assert (H : forall (symbols : list string) (d : Dict (list ClosedOrder)),
             (exists l, dict_get
                          (fold_left (fun d symbol => dict_set d symbol [])
                             symbols d) s = Some l)
             <-> In s symbols \/ exists l, dict_get d s = Some l).
  { induction symbols as [| symbol symbols IH]; intros d; simpl.
    - tauto.
    - rewrite IH, dict_set_key. intuition. }
  rewrite H. simpl. split; [| tauto].
  intros [Hin | [l Hl]]; [exact Hin | discriminate].
Qed.

Section Entries.
Context {Sim : Type} (S : Simulator Sim).
Variable cfg : Config Sim.

(** What the capacity test and the request leave in the entry of a
    symbol. *)
Lemma open_order_intent (symbol : string) (p : Prepared Sim) :
  i_symbol (fst (open_order S cfg symbol p)) = symbol
  /\ (i_order_id (fst (open_order S cfg symbol p)) = None
      <-> i_order_type (fst (open_order S cfg symbol p)) = None)
  /\ (i_order_type (fst (open_order S cfg symbol p)) = None ->
      i_fee (fst (open_order S cfg symbol p)) = None
      /\ i_margin (fst (open_order S cfg symbol p)) = None)
  /\ (i_order_type (fst (open_order S cfg symbol p)) <> None ->
      i_hold (fst (open_order S cfg symbol p)) = false
      /\ i_error (fst (open_order S cfg symbol p)) = EmptyString
      /\ i_order_type (fst (open_order S cfg symbol p))
         = Some (direction (i_volume (fst (open_order S cfg symbol p))))
      /\ i_fee (fst (open_order S cfg symbol p))
         = Some (resolve_fee cfg symbol)).
Proof.
  unfold open_order.
  destruct (hedge S (p_sim p) && (p_capacity p =? 0)%Z) eqn:Hfull.
  - simpl. repeat split; try tauto; intros H; congruence.
  - destruct (p_hold p) eqn:Hhold; cbn [negb].
    + simpl. repeat split; try tauto; intros H; congruence.
    + unfold request_order.
      destruct (create_order S (p_sim p) _ symbol _ _) as [[o sim'] | e];
        simpl.
      * repeat split; try congruence; try discriminate.
      * repeat split; try tauto; intros H; congruence.
Qed.

Lemma apply_symbols_entries (P : string -> OrderIntent -> Prop)
  (action : list R) (symbols : list string) :
  (forall symbol p, P symbol (fst (open_order S cfg symbol p))) ->
  forall i sim g oi ci oi' ci' sim' g',
    apply_symbols S cfg action i symbols sim g oi ci = Ok (oi', ci', sim', g') ->
    (forall s it, dict_get oi s = Some it -> P s it) ->
    forall s it, dict_get oi' s = Some it -> P s it.
Proof.
  intros HP.
  induction symbols as [| symbol symbols IH];
    intros i sim g oi ci oi' ci' sim' g' H Hoi.
  - simpl in H. inversion H; subst. exact Hoi.
  - cbn [apply_symbols] in H. inv_bind H.
    pose proof (HP symbol a) as Hp.
    destruct (open_order S cfg symbol a) as [intent sim1]. simpl in Hp.
    refine (IH _ _ _ _ _ _ _ _ _ H _).
    intros s it. destruct (string_dec symbol s) as [<- | Hne].
    + rewrite dict_get_set_same. intros E. inversion E; subst. exact Hp.
    + rewrite dict_get_set_other by exact Hne. apply Hoi.
Qed.

Lemma apply_symbols_keys (action : list R) (symbols : list string) :
  forall i sim g oi ci oi' ci' sim' g',
    apply_symbols S cfg action i symbols sim g oi ci = Ok (oi', ci', sim', g') ->
    forall s,
      ((exists it, dict_get oi' s = Some it)
       <-> In s symbols \/ exists it, dict_get oi s = Some it)
      /\ ((exists l, dict_get ci' s = Some l)
          <-> In s symbols \/ exists l, dict_get ci s = Some l).
Proof.
  induction symbols as [| symbol symbols IH];
    intros i sim g oi ci oi' ci' sim' g' H s.
  - simpl in H. inversion H; subst. simpl. tauto.
  - cbn [apply_symbols] in H. inv_bind H.
    destruct (open_order S cfg symbol a) as [intent sim1].
    destruct (IH _ _ _ _ _ _ _ _ _ H s) as [Ho Hc].
    rewrite Ho, Hc, !dict_set_key. simpl. intuition.
Qed.

Lemma apply_action_intents (action : list R) (sim sim' : Sim)
  (g g' : Generator) (oi : Dict OrderIntent) (ci : Dict (list ClosedOrder))
  (s : string) (it : OrderIntent) :
  _apply_action S cfg action sim g = Ok (oi, ci, sim', g') ->
  dict_get oi s = Some it ->
  i_symbol it = s
  /\ (i_order_id it = None <-> i_order_type it = None)
  /\ (i_order_type it = None -> i_fee it = None /\ i_margin it = None)
  /\ (i_order_type it <> None ->
      i_hold it = false
      /\ i_error it = EmptyString
      /\ i_order_type it = Some (direction (i_volume it))
      /\ i_fee it = Some (resolve_fee cfg s)).
Proof.
  unfold _apply_action. intros H Hit.
  refine (apply_symbols_entries
            (fun s it =>
               i_symbol it = s
               /\ (i_order_id it = None <-> i_order_type it = None)
               /\ (i_order_type it = None ->
                   i_fee it = None /\ i_margin it = None)
               /\ (i_order_type it <> None ->
                   i_hold it = false
                   /\ i_error it = EmptyString
                   /\ i_order_type it = Some (direction (i_volume it))
                   /\ i_fee it = Some (resolve_fee cfg s)))
            action (trading_symbols cfg) open_order_intent
            _ _ _ _ _ _ _ _ _ H _ s it Hit).
  intros s' it' E. discriminate E.
Qed.

(** When [_apply_action] returns, [orders_info] and [closed_orders_info]
    have an entry for every traded symbol and for no other key.  The entry
    of a symbol in [orders_info] names that symbol; it has an order id
    exactly when it has an order type, and then the symbol was not held,
    there is no error, the type is the direction of the volume and the fee
    is the configured one; without an order type the fee and the margin
    stay unset. *)
Theorem apply_action_entries (action : list R) (sim sim' : Sim)
  (g g' : Generator) (oi : Dict OrderIntent) (ci : Dict (list ClosedOrder)) :
  _apply_action S cfg action sim g = Ok (oi, ci, sim', g') ->
  (forall s, (exists it, dict_get oi s = Some it)
             <-> In s (trading_symbols cfg))
  /\ (forall s, (exists l, dict_get ci s = Some l)
                <-> In s (trading_symbols cfg))
  /\ (forall s it,
        dict_get oi s = Some it ->
        i_symbol it = s
        /\ (i_order_id it = None <-> i_order_type it = None)
        /\ (i_order_type it = None -> i_fee it = None /\ i_margin it = None)
        /\ (i_order_type it <> None ->
            i_hold it = false
            /\ i_error it = EmptyString
            /\ i_order_type it = Some (direction (i_volume it))
            /\ i_fee it = Some (resolve_fee cfg s))).
Proof.
  intros H.
  pose proof (apply_symbols_keys _ _ _ _ _ _ _ _ _ _ _ H) as Hk.
  split; [| split].
  - intros s. rewrite (proj1 (Hk s)). simpl. split; [| tauto].
    intros [Hin | [it Hit]]; [exact Hin | discriminate].
  - intros s. rewrite (proj2 (Hk s)).
    pose proof (no_closed_orders_keys cfg s) as Hn.
    unfold no_closed_orders in Hn. tauto.
  - intros s it Hit. exact (apply_action_intents _ _ _ _ _ _ _ _ _ H Hit).
Qed.

End Entries.

(** ** The markers of the simple figure *)

Lemma py_bool_true (s : string) : py_bool s = true <-> s <> EmptyString.
Proof. destruct s; simpl; split; congruence. Qed.

Lemma mark_record_spec (symbol : string) (tick : Z) (record : Info)
  (m : Markers) (oi : Dict OrderIntent) (ci : Dict (list ClosedOrder)) :
  info_orders record = Some oi ->
  info_closed_orders record = Some ci ->
  (forall it, dict_get oi symbol = Some it ->
              i_order_type it <> None -> i_error it = EmptyString) ->
  exists m',
    mark_record symbol tick record m = Ok m'
    /\ buy_error_ticks m' = buy_error_ticks m
    /\ (forall t, In t (sell_error_ticks m')
                  <-> In t (sell_error_ticks m)
                      \/ (t = tick
                          /\ exists it, dict_get oi symbol = Some it
                                        /\ i_hold it = false
                                        /\ i_error it <> EmptyString))
    /\ (forall t, In t (marked_ticks m') -> In t (marked_ticks m) \/ t = tick).
Proof.
  intros Ho Hc Hinv. unfold mark_record. rewrite Ho, Hc.
  cbv beta iota zeta delta [bind info_key].
  eexists. split; [reflexivity|].
  destruct (dict_get oi symbol) as [it |] eqn:Hit.
  - specialize (Hinv it eq_refl). unfold mark_order.
    destruct (i_hold it) eqn:Hhold; cbn [negb];
      [| destruct (i_order_type it) as [[|] |] eqn:Hty;
         (destruct (py_bool (i_error it)) eqn:Herr;
          [apply py_bool_true in Herr
          | assert (Herr' : i_error it = EmptyString)
              by (destruct (i_error it); [reflexivity | discriminate])])];
      destruct (0 <? _)%nat; unfold marked_ticks; cbn -[In];
      try (exfalso; apply Herr; apply Hinv; discriminate);
      (split; [reflexivity|]); split; intros t;
      rewrite ?in_app_iff; cbn [In];
      try (intuition (eauto; congruence); fail);
      try (split;
           [ intros [H | [H | []]]; [now left | right; split; [auto|]; eauto]
           | intros [H | (-> & it' & E & Hh & He)]; [now left|];
             inversion E; subst; try congruence; tauto ]);
      try (split;
           [ tauto
           | intros [H | (-> & it' & E & Hh & He)]; [exact H|];
             inversion E; subst; congruence ]).
  - destruct (0 <? _)%nat; unfold marked_ticks; cbn -[In];
      (split; [reflexivity|]); split; intros t;
      rewrite ?in_app_iff; cbn [In];
      try (intuition (eauto; congruence); fail);
      (split; [tauto | intros [H | (_ & it' & E & _)];
                       [exact H | discriminate]]).
Qed.

Lemma mark_records_spec (symbol : string) (start : Z) (records : list Info) :
  Forall (fun record =>
            exists oi ci,
              info_orders record = Some oi
              /\ info_closed_orders record = Some ci
              /\ forall it, dict_get oi symbol = Some it ->
                            i_order_type it <> None ->
                            i_error it = EmptyString) records ->
  forall (i : nat) (m : Markers),
  exists m',
    mark_records symbol start i records m = Ok m'
    /\ buy_error_ticks m' = buy_error_ticks m
    /\ (forall t, In t (sell_error_ticks m')
                  <-> In t (sell_error_ticks m)
                      \/ exists k record oi it,
                           nth_error records k = Some record
                           /\ t = (start + Z.of_nat (i + k) - 1)%Z
                           /\ info_orders record = Some oi
                           /\ dict_get oi symbol = Some it
                           /\ i_hold it = false
                           /\ i_error it <> EmptyString)
    /\ (forall t, In t (marked_ticks m') ->
                  In t (marked_ticks m)
                  \/ (start + Z.of_nat i - 1 <= t
                      < start + Z.of_nat i - 1
                        + Z.of_nat (List.length records))%Z).
Proof.
  induction 1 as [| record records (oi & ci & Ho & Hc & Hinv) _ IH];
    intros i m.
  - exists m. simpl. repeat split; try tauto.
    intros [H | (k & record & oi & it & Hk & _)]; [exact H|].
    destruct k; discriminate.
  - destruct (mark_record_spec symbol (start + Z.of_nat i - 1) record m oi ci
                Ho Hc Hinv) as (m1 & Hm1 & Hb1 & Hs1 & Ha1).
    destruct (IH (S i) m1) as (m' & Hm' & Hb' & Hs' & Ha').
    exists m'. cbn [mark_records]. rewrite Hm1.
    cbv beta iota delta [bind]. split; [exact Hm'|].
    split; [congruence|]. split.
    + intros t. rewrite Hs', Hs1. split.
      * intros [[H | (-> & it & Hit & Hh & He)]
               | (k & r & oi' & it & Hk & -> & Hrest)].
        -- now left.
        -- right. exists 0%nat, record, oi, it. simpl.
           repeat split; auto. f_equal. lia.
        -- right. exists (S k), r, oi', it. simpl.
           split; [exact Hk|]. split; [lia | exact Hrest].
      * intros [H | (k & r & oi' & it & Hk & -> & Ho' & Hit & Hh & He)].
        -- left. now left.
        -- destruct k as [| k]; simpl in Hk.
           ++ inversion Hk; subst r. left. right.
              split; [lia|]. exists it. rewrite Ho in Ho'.
              inversion Ho'; subst oi'. auto.
           ++ right. exists k, r, oi', it.
              split; [exact Hk|]. split; [lia | auto].
    + intros t Ht. apply Ha' in Ht as [Ht | Ht].
      * apply Ha1 in Ht as [Ht | ->]; [now left|].
        right. cbn [List.length]. lia.
      * right. cbn [List.length]. lia.
Qed.

Section Render.
Context {Sim : Type} (S : Simulator Sim).
Variable gauss : Z -> R.
Variable seed_words : Z -> nat -> Z.
Variable cfg : Config Sim.

(** What a returned [step] has put into its info record. *)
Lemma step_info_inv (env env' : MtEnv Sim) (action : list R) (r : StepResult) :
  step S cfg env action = Ok (env', r) ->
  exists oi ci sim g,
    _apply_action S cfg action (simulator env) (np_rng env) = Ok (oi, ci, sim, g)
    /\ info_orders (r_info r) = Some oi
    /\ info_closed_orders (r_info r) = Some ci
    /\ history env' = history env ++ [r_info r].
Proof.
  unfold step. intros H.
  inv_bind H. destruct a as [[[oi ci] sim] g]. cbv beta iota zeta in H.
  inv_bind H. inv_bind H. inv_bind H. inv_bind H. inv_bind H. inv_bind H.
  inversion H; subst; clear H; simpl.
  exists oi, ci, sim, g. repeat split; assumption.
Qed.

(** Every record of an episode after the first holds the two dictionaries
    of [_apply_action], and no entry with an order type has an error. *)
Lemma episode_records (env : MtEnv Sim) (symbol : string) :
  episode S gauss seed_words cfg env ->
  Forall (fun record =>
            exists oi ci,
              info_orders record = Some oi
              /\ info_closed_orders record = Some ci
              /\ forall it, dict_get oi symbol = Some it ->
                            i_order_type it <> None ->
                            i_error it = EmptyString)
         (tl (history env)).
Proof.
  induction 1 as [env sd env' out H | env action env' out Hep IH H].
  - apply reset_inv in H as (_ & Hh & _).
    destruct (history env') as [| x [| y h]]; simpl in *;
      [constructor | constructor | discriminate].
  - pose proof (episode_history_nonempty S gauss seed_words cfg env Hep)
      as Hne.
    apply step_info_inv in H as (oi & ci & sim & g & Ha & Ho & Hc & Hh).
    rewrite Hh. destruct (history env) as [| x h]; [simpl in Hne; lia|].
    simpl in *. apply Forall_app. split; [exact IH|].
    constructor; [| constructor].
    exists oi, ci. split; [exact Ho|]. split; [exact Hc|].
    intros it Hit Hty.
    destruct (apply_action_intents S cfg _ _ _ _ _ _ _ _ _ Ha Hit)
      as (_ & _ & _ & H4).
    now destruct (H4 Hty) as (_ & He & _).
Qed.

(** In every state of an episode the loop of [_render_simple_figure] over
    the history ends without an exception, and for every symbol: no tick is
    marked as a buy error; every marked tick is at or after the start tick
    and before the current tick; and the ticks marked as sell errors are
    those of the steps whose entry for the symbol is not held and has an
    error, whatever the sign of its volume. *)
Theorem simple_figure_markers_of_episode (env : MtEnv Sim) (symbol : string) :
  episode S gauss seed_words cfg env ->
  exists m,
    simple_figure_markers env symbol = Ok m
    /\ buy_error_ticks m = []
    /\ (forall t, In t (marked_ticks m) ->
                  (start_tick env <= t < current_tick env)%Z)
    /\ (forall t, In t (sell_error_ticks m)
                  <-> exists k record oi it,
                        nth_error (history env) (Datatypes.S k) = Some record
                        /\ t = (start_tick env + Z.of_nat k)%Z
                        /\ info_orders record = Some oi
                        /\ dict_get oi symbol = Some it
                        /\ i_hold it = false
                        /\ i_error it <> EmptyString).
Proof.
  intros Hep.
  pose proof (history_length_episode S gauss seed_words cfg env Hep) as Hlen.
  pose proof (episode_history_nonempty S gauss seed_words cfg env Hep) as Hne.
  destruct (mark_records_spec symbol (start_tick env) (tl (history env))
              (episode_records env symbol Hep) 1 no_markers)
    as (m & Hm & Hb & Hs & Ha).
  exists m. split; [exact Hm|]. split; [exact Hb|].
  destruct (history env) as [| x h] eqn:Eh; [simpl in Hne; lia|].
  cbn [tl List.length] in *. split.
  - intros t Ht. apply Ha in Ht as [[] | Ht]. lia.
  - intros t. rewrite Hs. cbn [sell_error_ticks no_markers In nth_error].
    split.
    + intros [[] | (k & r & oi & it & Hk & -> & Hrest)].
      exists k, r, oi, it. split; [exact Hk|]. split; [lia | exact Hrest].
    + intros (k & r & oi & it & Hk & -> & Hrest).
      right. exists k, r, oi, it. split; [exact Hk|].
      split; [lia | exact Hrest].
Qed.

End Render.

(** The small environment after a [reset] and a [step] whose two requests
    were refused. *)
Lemma simple_figure_markers_of_episode_example :
  exists m,
    simple_figure_markers (book_next refusing_config) "EURUSD" = Ok m
    /\ buy_error_ticks m = []
    /\ (forall t, In t (marked_ticks m) ->
                  (start_tick (book_next refusing_config) <= t
                   < current_tick (book_next refusing_config))%Z).
Proof.
  destruct (simple_figure_markers_of_episode BookSimulator zero_gauss
              zero_seed refusing_config (book_next refusing_config) "EURUSD"
              book_next_episode) as (m & Hm & Hb & Ht & _).
  exists m. auto.
Defined.

(** ** When [step] returns in an episode *)

Section StepTotal.
Context {Sim : Type} (S : Simulator Sim).
Variable gauss : Z -> R.
Variable seed_words : Z -> nat -> Z.
Variable cfg : Config Sim.

Lemma decode_action_returns (action : list R) (i : nat) :
  ((symbol_max_orders cfg + 2) * i + 2 <= List.length action)%nat ->
  exists cp hp v, decode_action cfg action i = Ok (cp, hp, v).
Proof.
  intros H. rewrite decode_action_slot. cbv zeta.
  set (slot := firstn _ _).
  assert (Hlen : (2 <= List.length slot)%nat).
  { unfold slot. rewrite length_firstn, length_skipn. lia. }
  change (-2)%Z with (- Z.of_nat 2)%Z. change (-1)%Z with (- Z.of_nat 1)%Z.
  rewrite (py_index_from_end slot 0 2), (py_index_from_end slot 0 1) by lia.
  cbv beta iota delta [bind]. eauto.
Qed.

Lemma decode_action_fails (action : list R) (i : nat) :
  (List.length action < (symbol_max_orders cfg + 2) * i + 2)%nat ->
  decode_action cfg action i = Raise IndexError.
Proof.
  intros H. rewrite decode_action_slot. cbv zeta.
  set (slot := firstn _ _).
  assert (Hlen : (List.length slot < 2)%nat).
  { unfold slot. rewrite length_firstn, length_skipn. lia. }
  change (-2)%Z with (- Z.of_nat 2)%Z.
  rewrite py_index_short by lia. reflexivity.
Qed.

Lemma prepare_returns (action : list R) (i : nat) (symbol : string)
  (sim : Sim) (g : Generator) (si : SymbolInfo) :
  ((symbol_max_orders cfg + 2) * i + 2 <= List.length action)%nat ->
  symbols_info S sim symbol = Some si ->
  volume_step si <> 0 ->
  exists p, prepare S cfg action i symbol sim g = Ok p.
Proof.
  intros Hlen Hsi Hstep. unfold prepare.
  destruct (decode_action_returns action i Hlen) as (cp & hp & v & ->).
  cbv beta iota zeta delta [bind].
  destruct (rng_choice g hp) as [hold g1].
  unfold _get_modified_volume. rewrite Hsi.
  rewrite modified_volume_step by exact Hstep.
  destruct (sample_closes g1 cp (symbol_orders S sim symbol)) as [sel g2].
  destruct (close_orders S sim sel) as [sim1 closed]. eauto.
Qed.

Lemma prepare_decoded (action : list R) (i : nat) (symbol : string)
  (sim : Sim) (g : Generator) (p : Prepared Sim) :
  prepare S cfg action i symbol sim g = Ok p ->
  ((symbol_max_orders cfg + 2) * i + 2 <= List.length action)%nat.
Proof.
  intros H. unfold prepare in H.
  destruct (Nat.le_gt_cases ((symbol_max_orders cfg + 2) * i + 2)
              (List.length action)) as [Hle | Hgt]; [exact Hle|].
  rewrite decode_action_fails in H by lia. discriminate.
Qed.

Hypothesis close_keeps_info : forall sim o s,
  symbols_info S (fst (close_order S sim o)) s = symbols_info S sim s.
Hypothesis create_keeps_info : forall sim ty s v f o sim' s',
  create_order S sim ty s v f = inl (o, sim') ->
  symbols_info S sim' s' = symbols_info S sim s'.

Lemma close_orders_info (s : string) (sel : list (Order * R)) :
  forall sim : Sim,
    symbols_info S (fst (close_orders S sim sel)) s = symbols_info S sim s.
Proof.
  induction sel as [| [o p] sel IH]; intros sim; [reflexivity|].
  simpl. pose proof (close_keeps_info sim o s) as Hc.
  destruct (close_order S sim o) as [sim1 o']. simpl in Hc.
  specialize (IH sim1).
  destruct (close_orders S sim1 sel) as [sim2 recs]. simpl in *. congruence.
Qed.

Lemma prepare_info (action : list R) (i : nat) (symbol : string)
  (sim : Sim) (g : Generator) (p : Prepared Sim) (s : string) :
  prepare S cfg action i symbol sim g = Ok p ->
  symbols_info S (p_sim p) s = symbols_info S sim s.
Proof.
  unfold prepare. intros H.
  inv_bind H. destruct a as [[cp hp] v]. cbv beta iota zeta in H.
  destruct (rng_choice g hp) as [hold g1].
  inv_bind H.
  destruct (sample_closes g1 cp (symbol_orders S sim symbol)) as [sel g2].
  pose proof (close_orders_info s sel sim) as Hc.
  destruct (close_orders S sim sel) as [sim1 closed].
  inversion H; subst; clear H. exact Hc.
Qed.

Lemma open_order_info (symbol : string) (p : Prepared Sim) (s : string) :
  symbols_info S (snd (open_order S cfg symbol p)) s
  = symbols_info S (p_sim p) s.
Proof.
  unfold open_order.
  destruct (hedge S (p_sim p) && (p_capacity p =? 0)%Z); [reflexivity|].
  destruct (p_hold p); cbn [negb]; [reflexivity|].
  unfold request_order.
  destruct (create_order S (p_sim p) _ symbol _ _) as [[o sim'] | e] eqn:Ecr;
    [| reflexivity].
  exact (create_keeps_info _ _ _ _ _ _ _ s Ecr).
Qed.

Lemma apply_symbols_returns (action : list R) (symbols : list string) :
  forall i sim g oi ci,
    (forall s, In s symbols ->
               exists si, symbols_info S sim s = Some si
                          /\ volume_step si <> 0) ->
    (forall j, (j < List.length symbols)%nat ->
               ((symbol_max_orders cfg + 2) * (i + j) + 2
                <= List.length action)%nat) ->
    exists oi' ci' sim' g',
      apply_symbols S cfg action i symbols sim g oi ci = Ok (oi', ci', sim', g').
Proof.
  induction symbols as [| symbol symbols IH]; intros i sim g oi ci Hinfo Hlen.
  - simpl. eauto.
  - cbn [apply_symbols].
    destruct (Hinfo symbol (or_introl eq_refl)) as (si & Hsi & Hstep).
    assert (Hlen0 : ((symbol_max_orders cfg + 2) * i + 2
                     <= List.length action)%nat).
    { specialize (Hlen 0%nat). simpl in Hlen.
      rewrite Nat.add_0_r in Hlen. apply Hlen. lia. }
    destruct (prepare_returns action i symbol sim g si Hlen0 Hsi Hstep)
      as [p Hp].
    rewrite Hp. cbv beta iota delta [bind].
    pose proof (open_order_info symbol p) as Ho.
    destruct (open_order S cfg symbol p) as [intent sim1]. simpl in Ho.
    apply IH.
    + intros s Hin. rewrite Ho, (prepare_info _ _ _ _ _ _ s Hp).
      apply Hinfo. now right.
    + intros j Hj. specialize (Hlen (Datatypes.S j)). simpl in Hlen.
      replace (Datatypes.S i + j)%nat with (i + Datatypes.S j)%nat by lia.
      apply Hlen. lia.
Qed.

Lemma apply_symbols_decoded (action : list R) (symbols : list string) :
  forall i sim g oi ci oi' ci' sim' g',
    apply_symbols S cfg action i symbols sim g oi ci = Ok (oi', ci', sim', g') ->
    forall j, (j < List.length symbols)%nat ->
              ((symbol_max_orders cfg + 2) * (i + j) + 2
               <= List.length action)%nat.
Proof.
  induction symbols as [| symbol symbols IH];
    intros i sim g oi ci oi' ci' sim' g' H j Hj.
  - simpl in Hj. lia.
  - cbn [apply_symbols] in H. inv_bind H.
    destruct (open_order S cfg symbol a) as [intent sim1].
    destruct j as [| j].
    + rewrite Nat.add_0_r. eapply prepare_decoded. exact Ha.
    + replace (i + Datatypes.S j)%nat with (Datatypes.S i + j)%nat by lia.
      eapply IH; [exact H|]. simpl in Hj. lia.
Qed.

Hypothesis contract : SimulatorContract S.

Lemma step_returns_when_decoded (env : MtEnv Sim) (action : list R) :
  (hedge S (original_simulator cfg) = false -> symbol_max_orders cfg = 1%nat) ->
  episode S gauss seed_words cfg env ->
  (0 <= start_tick env)%Z ->
  (current_tick env < max_end_tick cfg)%Z ->
  initial_balance env <> 0 ->
  (forall s, In s (trading_symbols cfg) ->
             exists si, symbols_info S (simulator env) s = Some si
                        /\ volume_step si <> 0) ->
  (forall j, (j < List.length (trading_symbols cfg))%nat ->
             ((symbol_max_orders cfg + 2) * j + 2 <= List.length action)%nat) ->
  exists env' r, step S cfg env action = Ok (env', r).
Proof.
  intros Hforce Hep Hstart Hend Hib Hinfo Hlen.
  pose proof (history_length_episode S gauss seed_words cfg env Hep)
    as Hhist.
  pose proof (episode_history_nonempty S gauss seed_words cfg env Hep)
    as Hne.
  destruct (apply_symbols_returns action (trading_symbols cfg) 0
              (simulator env) (np_rng env) [] (no_closed_orders cfg)
              Hinfo Hlen)
    as (oi & ci & sim & g & Ha).
  unfold max_end_tick in Hend.
  destruct (py_index_in_range (time_points cfg) (current_tick env + 1))
    as [now Hnow]; [lia|].
  destruct (py_index_in_range (time_points cfg) (current_tick env + 1 - 1))
    as [before Hbefore]; [lia|].
  destruct (py_index_in_range (history env) (-1)) as [last Hlast]; [lia|].
  destruct (observation_returns S cfg (tick S sim (now - before))
              (current_tick env + 1)) as [obs Hobs].
  { intros s Hin.
    pose proof (episode_within_bound S gauss seed_words cfg contract env s
                  Hforce Hep (or_introl Hin)) as Hb.
    pose proof (apply_symbols_hedge S cfg contract _ _ _ _ _ _ _ _ _ _ _ Ha)
      as Hh.
    apply (apply_symbols_within_bound S cfg contract s) in Ha as Hb';
      [| exact Hb].
    pose proof (episode_hedge S gauss seed_words cfg contract env Hep) as He.
    unfold within_bound, order_bound in Hb'. rewrite Hh, He in Hb'.
    etransitivity; [apply (tick_adds_none S contract)|].
    destruct (hedge S (original_simulator cfg)); [exact Hb'|].
    rewrite Hforce by reflexivity. exact Hb'. }
  destruct (step_returns S cfg env action oi ci sim g now before last obs
              Ha Hnow Hbefore Hlast Hib Hobs) as (env' & r & H & _).
  eauto.
Qed.

(** Over a simulator that meets its contract and keeps the metadata of
    the symbols when orders are closed and created, in a state of an
    episode that started at a tick that is not negative, is before the last
    time point, has an initial balance that is not zero and knows every
    traded symbol with a volume step that is not zero: [step] returns
    exactly when the action vector reaches two components into the slot of
    every traded symbol.  So the slot of the last symbol may be cut short
    of its close components, and a longer vector is accepted too. *)
Theorem step_returns_in_episode (env : MtEnv Sim) (action : list R) :
  (hedge S (original_simulator cfg) = false -> symbol_max_orders cfg = 1%nat) ->
  episode S gauss seed_words cfg env ->
  (0 <= start_tick env)%Z ->
  (current_tick env < max_end_tick cfg)%Z ->
  initial_balance env <> 0 ->
  (forall s, In s (trading_symbols cfg) ->
             exists si, symbols_info S (simulator env) s = Some si
                        /\ volume_step si <> 0) ->
  (exists env' r, step S cfg env action = Ok (env', r))
  <-> (forall j, (j < List.length (trading_symbols cfg))%nat ->
                 ((symbol_max_orders cfg + 2) * j + 2
                  <= List.length action)%nat).
Proof.
  intros Hforce Hep Hstart Hend Hib Hinfo. split.
  - intros (env' & r & H) j Hj.
    apply step_inv in H as (oi & ci & sim & g & now & before & Ha & _).
    unfold _apply_action in Ha.
    exact (apply_symbols_decoded _ _ _ _ _ _ _ _ _ _ _ Ha j Hj).
  - now apply step_returns_when_decoded.
Qed.

End StepTotal.

(** ** The markers of the advanced figure *)

Lemma fold_left_Rmax (l : list R) :
  forall x : R,
    (fold_left Rmax l x = x \/ In (fold_left Rmax l x) l)
    /\ x <= fold_left Rmax l x
    /\ forall y, In y l -> y <= fold_left Rmax l x.
Proof.
  induction l as [| a l IH]; intros x; simpl.
  - split; [now left|]. split; [lra | intros y []].
  - destruct (IH (Rmax x a)) as (Hin & Hle & Hall).
    pose proof (Rmax_l x a). pose proof (Rmax_r x a).
    split; [| split].
    + destruct Hin as [E | Hin]; [| right; now right].
      rewrite E. unfold Rmax. destruct (Rle_dec x a); [right | left]; auto.
    + lra.
    + intros y [<- | Hy]; [lra | now apply Hall].
Qed.

Lemma py_max_spec (l : list R) :
  l <> [] ->
  exists m, py_max l = Ok m /\ In m l /\ forall x, In x l -> x <= m.
Proof.
  destruct l as [| x l]; [congruence|]. intros _.
  destruct (fold_left_Rmax l x) as (Hin & Hle & Hall).
  exists (fold_left Rmax l x). split; [reflexivity|]. split.
  - destruct Hin as [-> | Hin]; [now left | now right].
  - intros y [<- | Hy]; [exact Hle | now apply Hall].
Qed.

Lemma trade_records_spec (symbol : string) (start : Z) (tmv : R)
  (records : list Info) :
  Forall (fun record =>
            exists oi ci,
              info_orders record = Some oi
              /\ info_closed_orders record = Some ci
              /\ forall it, dict_get oi symbol = Some it ->
                            i_order_type it <> None ->
                            i_error it = EmptyString) records ->
  forall (i : nat) (trades : list Trade) (closes : list Z),
    (tmv <> 0 ->
     exists trades' closes',
       trade_records symbol start i records tmv trades closes
       = Ok (trades', closes')
       /\ (forall t, In t trades' ->
             In t trades
             \/ exists record oi it,
                  In record records
                  /\ info_orders record = Some oi
                  /\ dict_get oi symbol = Some it
                  /\ i_hold it = false
                  /\ (start + Z.of_nat i - 1 <= t_tick t
                      < start + Z.of_nat i - 1
                        + Z.of_nat (List.length records))%Z
                  /\ t_size t = 8 + 22 * (i_modified_volume it / tmv)
                  /\ ~ (t_marker t = TriangleUp /\ t_color t = Gray))
       /\ (forall c, In c closes' ->
             In c closes
             \/ (start + Z.of_nat i - 1 <= c
                 < start + Z.of_nat i - 1
                   + Z.of_nat (List.length records))%Z))
    /\ (tmv = 0 ->
        (exists record oi it,
           In record records
           /\ info_orders record = Some oi
           /\ dict_get oi symbol = Some it
           /\ i_hold it = false) ->
        trade_records symbol start i records tmv trades closes
        = Raise ZeroDivisionError).
Proof.
  induction 1 as [| record records (oi & ci & Ho & Hc & Hinv) _ IH];
    intros i trades closes.
  - split.
    + intros _. exists trades, closes. simpl. split; [reflexivity|].
      split; intros x Hx; now left.
    + intros _ (record & oi & it & [] & _).
  - cbn [trade_records]. rewrite Ho, Hc.
    cbv beta iota zeta delta [info_key]. cbn [bind].
    set (tick := (start + Z.of_nat i - 1)%Z).
    set (closes1 := if (0 <? _)%nat then closes ++ [tick] else closes).
    assert (Hcl : forall c, In c closes1 -> In c closes \/ c = tick).
    { intros c. unfold closes1. destruct (0 <? _)%nat; [| now left].
      rewrite in_app_iff. simpl. intuition. }
    destruct (dict_get oi symbol) as [it |] eqn:Hit.
    + destruct (i_hold it) eqn:Hhold; cbn [negb].
      * cbn [bind].
        destruct (IH (S i) trades closes1) as [IHok IHzero]. split.
        -- intros Hne. destruct (IHok Hne) as (tr & cl & Hr & Htr & Hclr).
           exists tr, cl. split; [exact Hr|]. split.
           ++ intros t Ht. apply Htr in Ht
                as [Ht | (r & oi' & it' & Hin & H1 & H2 & H3 & H4 & H5 & H6)];
                [now left|].
              right. exists r, oi', it'. split; [now right|].
              repeat split; try assumption; cbn [List.length]; lia.
           ++ intros c Hcin. apply Hclr in Hcin as [Hcin | Hcin].
              ** apply Hcl in Hcin as [Hcin | ->]; [now left|].
                 right. cbn [List.length]. unfold tick. lia.
              ** right. cbn [List.length]. lia.
        -- intros Hz (r & oi' & it' & [<- | Hin] & H1 & H2 & H3).
           ++ rewrite Ho in H1. inversion H1; subst oi'. congruence.
           ++ apply IHzero; [exact Hz|]. exists r, oi', it'. auto.
      * unfold trade_marker. split.
        -- intros Hne. rewrite py_div_ok by exact Hne. cbn [bind].
           set (t0 := match i_order_type it with
                      | Some Buy => _
                      | _ => _
                      end).
           destruct (IH (S i) (trades ++ [t0]) closes1) as [IHok _].
           destruct (IHok Hne) as (tr & cl & Hr & Htr & Hclr).
           exists tr, cl. split; [exact Hr|]. split.
           ++ intros t Ht. apply Htr in Ht
                as [Ht | (r & oi' & it' & Hin & H1 & H2 & H3 & H4 & H5 & H6)].
              ** apply in_app_or in Ht as [Ht | [<- | []]]; [now left|].
                 right. exists record, oi, it. split; [now left|].
                 split; [exact Ho|]. split; [exact Hit|].
                 split; [exact Hhold|].
                 unfold t0.
                 destruct (i_order_type it) as [[|] |] eqn:Hty; cbn.
                 --- split; [unfold tick; lia|]. split; [reflexivity|].
                     intros [_ Hg]. rewrite Hinv in Hg by congruence.
                     discriminate.
                 --- split; [unfold tick; lia|]. split; [reflexivity|].
                     intros [Hu _]. discriminate.
                 --- split; [unfold tick; lia|]. split; [reflexivity|].
                     intros [Hu _]. discriminate.
              ** right. exists r, oi', it'. split; [now right|].
                 repeat split; try assumption; cbn [List.length]; lia.
           ++ intros c Hcin. apply Hclr in Hcin as [Hcin | Hcin].
              ** apply Hcl in Hcin as [Hcin | ->]; [now left|].
                 right. cbn [List.length]. unfold tick. lia.
              ** right. cbn [List.length]. lia.
        -- intros Hz _. subst tmv. unfold py_div.
           replace (Reqb 0 0) with true
             by (symmetry; now apply Reqb_true).
           reflexivity.
    + cbn [bind].
      destruct (IH (S i) trades closes1) as [IHok IHzero]. split.
      * intros Hne. destruct (IHok Hne) as (tr & cl & Hr & Htr & Hclr).
        exists tr, cl. split; [exact Hr|]. split.
        -- intros t Ht. apply Htr in Ht
             as [Ht | (r & oi' & it' & Hin & H1 & H2 & H3 & H4 & H5 & H6)];
             [now left|].
           right. exists r, oi', it'. split; [now right|].
           repeat split; try assumption; cbn [List.length]; lia.
        -- intros c Hcin. apply Hclr in Hcin as [Hcin | Hcin].
           ++ apply Hcl in Hcin as [Hcin | ->]; [now left|].
              right. cbn [List.length]. unfold tick. lia.
           ++ right. cbn [List.length]. lia.
      * intros Hz (r & oi' & it' & [<- | Hin] & H1 & H2 & H3).
        -- rewrite Ho in H1. inversion H1; subst oi'. congruence.
        -- apply IHzero; [exact Hz|]. exists r, oi', it'. auto.
Qed.

Section Advanced.
Context {Sim : Type} (S : Simulator Sim).
Variable gauss : Z -> R.
Variable seed_words : Z -> nat -> Z.
Variable cfg : Config Sim.

(** The first record of an episode is the one of [reset], which has no
    orders. *)
Lemma episode_first_record (env : MtEnv Sim) :
  episode S gauss seed_words cfg env ->
  exists x h, history env = x :: h /\ info_orders x = None.
Proof.
  induction 1 as [env sd env' out H | env action env' out Hep IH H].
  - unfold reset in H.
    inv_bind H. inv_bind H. destruct a0 as [[sim ib] g0].
    inv_bind H. destruct a0 as [[st e] g2]. inv_bind H. inv_bind H.
    inversion H; subst; simpl. eauto.
  - destruct IH as (x & h & Hh & Hx).
    apply step_inv in H
      as (oi & ci & sim & g & now & before & _ & _ & _ & _ & _ & _ & _ & _ & _
          & Hh' & _).
    rewrite Hh', Hh. simpl. eauto.
Qed.

(** In every state of an episode [trade_max_volume] is computed, is not
    negative and is the largest modified volume the records hold for the
    symbol, 0 for a record without one.  When it is
    zero and the symbol has an entry that is not held, the loop of
    [_render_advanced_figure] divides by it and raises
    [ZeroDivisionError].  When it is not zero the loop ends without an
    exception; every trade it marks is at a tick from the start tick on and
    before the current tick, has a size of at most 30, and is never a gray
    triangle pointing up: a request with an error has no order type. *)
Theorem advanced_figure_markers_of_episode (env : MtEnv Sim)
  (symbol : string) :
  episode S gauss seed_words cfg env ->
  exists tmv,
    py_max (map (entry_volume symbol) (history env)) = Ok tmv
    /\ 0 <= tmv
    /\ In tmv (map (entry_volume symbol) (history env))
    /\ (forall h, In h (history env) -> entry_volume symbol h <= tmv)
    /\ (tmv = 0 ->
        (exists record oi it,
           In record (history env)
           /\ info_orders record = Some oi
           /\ dict_get oi symbol = Some it
           /\ i_hold it = false) ->
        advanced_figure_markers env symbol = Raise ZeroDivisionError)
    /\ (tmv <> 0 ->
        exists trades closes,
          advanced_figure_markers env symbol = Ok (trades, closes)
          /\ (forall t, In t trades ->
                (start_tick env <= t_tick t < current_tick env)%Z
                /\ t_size t <= 30
                /\ ~ (t_marker t = TriangleUp /\ t_color t = Gray))
          /\ (forall c, In c closes ->
                (start_tick env <= c < current_tick env)%Z)).
Proof.
  intros Hep.
  pose proof (history_length_episode S gauss seed_words cfg env Hep) as Hlen.
  pose proof (episode_records S gauss seed_words cfg env symbol Hep) as Hrec.
  destruct (episode_first_record env Hep) as (x & h & Hh & Hx).
  destruct (py_max_spec (map (entry_volume symbol) (history env)))
    as (tmv & Hmax & Hin & Hall).
  { rewrite Hh. discriminate. }
  assert (Hbound : forall r, In r (history env) -> entry_volume symbol r <= tmv).
  { intros r Hr. apply Hall. now apply in_map. }
  assert (Hpos : 0 <= tmv).
  { replace 0 with (entry_volume symbol x)
      by (unfold entry_volume; now rewrite Hx).
    apply Hbound. rewrite Hh. now left. }
  exists tmv. split; [exact Hmax|]. split; [exact Hpos|].
  split; [exact Hin|]. split; [exact Hbound|].
  unfold advanced_figure_markers. rewrite Hmax. cbn [bind].
  rewrite Hh in *. cbn [tl List.length] in *.
  destruct (trade_records_spec symbol (start_tick env) tmv h Hrec 1 [] [])
    as [Hok Hzero].
  split.
  - intros Hz (r & oi & it & [<- | Hr] & Ho & Hit & Hhold).
    + congruence.
    + apply Hzero; [exact Hz|]. exists r, oi, it. auto.
  - intros Hne. destruct (Hok Hne) as (trades & closes & Hr & Htr & Hcl).
    exists trades, closes. split; [exact Hr|]. split.
    + intros t Ht. apply Htr in Ht
        as [[] | (r & oi & it & Hin' & Ho & Hit & Hhold & Htick & Hsize & Hg)].
      split; [lia|]. split; [| exact Hg].
      rewrite Hsize.
      assert (Hle : i_modified_volume it <= tmv).
      { replace (i_modified_volume it) with (entry_volume symbol r)
          by (unfold entry_volume; now rewrite Ho, Hit).
        apply Hbound. now right. }
      assert (Hq : i_modified_volume it / tmv <= 1).
      { apply Rmult_le_reg_r with tmv; [lra|].
        unfold Rdiv. rewrite Rmult_assoc, Rinv_l by lra. lra. }
      lra.
    + intros c Hc. apply Hcl in Hc as [[] | Hc]. lia.
Qed.

End Advanced.

(** *** The small environment with the coarse metadata *)

Lemma book_close_keeps_info (sim : Book) (o : Order) (s : string) :
  symbols_info BookSimulator (fst (close_order BookSimulator sim o)) s
  = symbols_info BookSimulator sim s.
Proof. reflexivity. Qed.

Lemma book_create_keeps_info (sim : Book) (ty : OrderType) (s : string)
  (v f : R) (o : Order) (sim' : Book) (s' : string) :
  create_order BookSimulator sim ty s v f = inl (o, sim') ->
  symbols_info BookSimulator sim' s' = symbols_info BookSimulator sim s'.
Proof.
  cbn [create_order BookSimulator]. unfold book_create.
  destruct (Rltb f 0); [discriminate|].
  intros H. inversion H; subst. reflexivity.
Qed.

Lemma open_order_copies {Sim : Type} (S : Simulator Sim) (cfg : Config Sim)
  (symbol : string) (p : Prepared Sim) :
  i_hold (fst (open_order S cfg symbol p)) = p_hold p
  /\ i_modified_volume (fst (open_order S cfg symbol p))
     = p_modified_volume p.
Proof.
  unfold open_order.
  destruct (hedge S (p_sim p) && (p_capacity p =? 0)%Z); [now split|].
  destruct (p_hold p) eqn:Hhold; cbn [negb]; [simpl; now split|].
  unfold request_order.
  destruct (create_order S (p_sim p) _ symbol _ _) as [[o sim'] | e];
    simpl; now split.
Qed.

Lemma coarse_prepare_zero (i : nat) (symbol : string) (sim : Book)
  (g : Generator) (p : Prepared Book) :
  (i < 2)%nat ->
  b_info sim = coarse_info ->
  words g = zero_words ->
  prepare BookSimulator coarse_config zero_action i symbol sim g = Ok p ->
  p_hold p = false
  /\ p_modified_volume p = 0
  /\ b_info (p_sim p) = coarse_info
  /\ words (p_rng p) = zero_words.
Proof.
  intros Hi Hb Hw H.
  pose proof (prepare_info BookSimulator coarse_config book_close_keeps_info
                _ _ _ _ _ _ symbol H) as Hinfo.
  pose proof (prepare_cursor BookSimulator coarse_config _ _ _ _ _ _ H)
    as [Hw' _].
  cbn [symbols_info BookSimulator] in Hinfo.
  unfold prepare, coarse_config in H.
  rewrite (decode_zero coarse_info true (FixedFee 0.0005) false i Hi) in H.
  cbv beta iota zeta delta [bind] in H.
  rewrite rng_choice_zero in H
    by (try (rewrite Hw; reflexivity); apply logit_probability_bounds).
  unfold _get_modified_volume in H.
  cbn [symbols_info BookSimulator] in H.
  rewrite Hb, coarse_volume_zero in H.
  destruct (sample_closes _ _ _) as [sel g2].
  destruct (close_orders BookSimulator sim sel) as [sim1 closed].
  inversion H; subst; clear H. simpl in *.
  repeat split; congruence.
Qed.

Lemma coarse_apply_symbols_zero (symbols : list string) :
  forall i sim g oi ci oi' ci' sim' g',
    (i + List.length symbols <= 2)%nat ->
    b_info sim = coarse_info ->
    words g = zero_words ->
    apply_symbols BookSimulator coarse_config zero_action i symbols sim g oi ci
    = Ok (oi', ci', sim', g') ->
    (forall s it, dict_get oi s = Some it ->
                  i_hold it = false /\ i_modified_volume it = 0) ->
    forall s it, dict_get oi' s = Some it ->
                 i_hold it = false /\ i_modified_volume it = 0.
Proof.
  induction symbols as [| symbol symbols IH];
    intros i sim g oi ci oi' ci' sim' g' Hi Hb Hw H Hoi.
  - simpl in H. inversion H; subst. exact Hoi.
  - cbn [apply_symbols] in H. inv_bind H. cbn [List.length] in Hi.
    destruct (coarse_prepare_zero i symbol sim g a) as (Hh & Hv & Hb' & Hw');
      [lia | exact Hb | exact Hw | exact Ha |].
    pose proof (open_order_copies BookSimulator coarse_config symbol a)
      as [Hc1 Hc2].
    pose proof (open_order_info BookSimulator coarse_config
                  book_create_keeps_info symbol a symbol) as Hinfo.
    destruct (open_order BookSimulator coarse_config symbol a)
      as [intent sim1].
    cbn [fst snd symbols_info BookSimulator] in *.
    refine (IH _ _ _ _ _ _ _ _ _ _ _ _ H _); [lia | congruence | exact Hw' |].
    intros s it. destruct (string_dec symbol s) as [<- | Hne].
    + rewrite dict_get_set_same. intros E. inversion E; subst.
      split; congruence.
    + rewrite dict_get_set_other by exact Hne. apply Hoi.
Qed.

Lemma book_start_coarse :
  exists out,
    reset BookSimulator zero_gauss zero_seed coarse_config
          (init zero_seed coarse_config) None
    = Ok (book_start coarse_config, out).
Proof. apply state_of_ok. lazy. reflexivity. Qed.

Lemma coarse_start_episode :
  episode BookSimulator zero_gauss zero_seed coarse_config
          (book_start coarse_config).
Proof.
  destruct book_start_coarse as [out H]. eapply episode_reset. exact H.
Qed.

Lemma coarse_next_step :
  exists r,
    step BookSimulator coarse_config (book_start coarse_config) zero_action
    = Ok (book_next coarse_config, r).
Proof.
  destruct (step_returns_when_decoded BookSimulator zero_gauss zero_seed
              coarse_config book_close_keeps_info book_create_keeps_info
              book_contract (book_start coarse_config) zero_action)
    as (env' & r & H).
  - intros H. discriminate H.
  - exact coarse_start_episode.
  - lazy. discriminate.
  - reflexivity.
  - replace (initial_balance (book_start coarse_config)) with 10000
      by reflexivity.
    lra.
  - intros s _. exists coarse_info. split; [reflexivity|]. simpl. lra.
  - intros j Hj. simpl in *. lia.
  - apply state_of_ok. unfold book_next. now rewrite H.
Qed.

(** The small environment with the coarse metadata after a [reset] and a
    [step] on the zero action: both symbols are traded with a modified
    volume of zero. *)
Lemma advanced_figure_markers_of_episode_example :
  advanced_figure_markers (book_next coarse_config) "EURUSD"
  = Raise ZeroDivisionError.
Proof.
  destruct coarse_next_step as [r Hs].
  assert (Hep : episode BookSimulator zero_gauss zero_seed coarse_config
                  (book_next coarse_config))
    by (eapply episode_step; [exact coarse_start_episode | exact Hs]).
  destruct (advanced_figure_markers_of_episode BookSimulator zero_gauss
              zero_seed coarse_config (book_next coarse_config) "EURUSD" Hep)
    as (tmv & _ & _ & Hin & _ & Hzero & _).
  apply (step_info_inv BookSimulator coarse_config) in Hs
    as (oi & ci & sim & g & Ha & Ho & Hc & Hh).
  unfold _apply_action in Ha.
  assert (Hkey : exists it, dict_get oi "EURUSD" = Some it).
  { apply (proj1 (apply_symbols_keys BookSimulator coarse_config
                    _ _ _ _ _ _ _ _ _ _ _ Ha "EURUSD"%string)).
    left. simpl. now left. }
  destruct Hkey as [it Hit].
  assert (Hinv : forall s it, dict_get oi s = Some it ->
                              i_hold it = false /\ i_modified_volume it = 0).
  { refine (coarse_apply_symbols_zero _ _ _ _ _ _ _ _ _ _ _ _ _ Ha _);
      [simpl; lia | reflexivity | reflexivity |].
    intros s it' E. discriminate E. }
  destruct (Hinv "EURUSD"%string it Hit) as [Hhold Hvol].
  apply Hzero.
  - rewrite Hh, map_app in Hin. apply in_app_or in Hin as [Hin | Hin].
    + apply in_map_iff in Hin as (x & <- & Hx).
      destruct (episode_first_record BookSimulator zero_gauss zero_seed
                  coarse_config _ coarse_start_episode)
        as (x0 & h & Hh0 & Hx0).
      destruct book_start_coarse as [out Hr].
      apply reset_inv in Hr as (_ & Hlen & _).
      rewrite Hh0 in Hlen, Hx. destruct h; [| discriminate].
      destruct Hx as [<- | []]. unfold entry_volume. now rewrite Hx0.
    + destruct Hin as [<- | []]. unfold entry_volume. now rewrite Ho, Hit.
  - exists (r_info r), oi, it. rewrite Hh.
    split; [apply in_or_app; right; now left|]. auto.
Defined.

(** ** The capacity of a symbol *)

Section Capacity.
Context {Sim : Type} (S : Simulator Sim).
Variable cfg : Config Sim.

Lemma close_orders_records (sel : list (Order * R)) :
  forall sim : Sim,
    List.length (snd (close_orders S sim sel)) = List.length sel.
Proof.
  induction sel as [| [o p] sel IH]; intros sim; [reflexivity|].
  simpl. destruct (close_order S sim o) as [sim1 o'].
  specialize (IH sim1).
  destruct (close_orders S sim1 sel) as [sim2 recs]. simpl in *. lia.
Qed.

Lemma prepare_closed (action : list R) (i : nat) (symbol : string)
  (sim : Sim) (g : Generator) (p : Prepared Sim) :
  prepare S cfg action i symbol sim g = Ok p ->
  p_capacity p
  = (Z.of_nat (symbol_max_orders cfg)
     - (Z.of_nat (List.length (symbol_orders S sim symbol))
        - Z.of_nat (List.length (p_closed p))))%Z.
Proof.
  unfold prepare. intros H.
  inv_bind H. destruct a as [[cp hp] v]. cbv beta iota zeta in H.
  destruct (rng_choice g hp) as [hold g1].
  inv_bind H.
  destruct (sample_closes g1 cp (symbol_orders S sim symbol)) as [sel g2].
  pose proof (close_orders_records sel sim) as Hc.
  destruct (close_orders S sim sel) as [sim1 closed].
  inversion H; subst; clear H. simpl in *. now rewrite Hc.
Qed.

Hypothesis contract : SimulatorContract S.

(** Over a simulator that meets its contract, when an iteration of
    [_apply_action] reaches the capacity test: the capacity it records is
    [symbol_max_orders] less the orders of the symbol still open, and the
    closed orders recorded and the orders still open are those that were
    open before.  Under hedging, a symbol with [symbol_max_orders] orders
    still open gets the error [cannot add more orders], held or not, and
    nothing is requested; without hedging the capacity is not looked at. *)
Theorem capacity_counts_open_orders (action : list R) (i : nat)
  (symbol : string) (sim : Sim) (g : Generator) (p : Prepared Sim) :
  prepare S cfg action i symbol sim g = Ok p ->
  p_capacity p
  = (Z.of_nat (symbol_max_orders cfg)
     - Z.of_nat (List.length (symbol_orders S (p_sim p) symbol)))%Z
  /\ (List.length (p_closed p)
      + List.length (symbol_orders S (p_sim p) symbol)
      = List.length (symbol_orders S sim symbol))%nat
  /\ (hedge S sim = true ->
      List.length (symbol_orders S (p_sim p) symbol) = symbol_max_orders cfg ->
      open_order S cfg symbol p
      = (set_error (base_intent symbol p) "cannot add more orders", p_sim p))
  /\ (hedge S sim = false ->
      open_order S cfg symbol p
      = if p_hold p then (base_intent symbol p, p_sim p)
        else request_order S symbol p (direction (p_volume p))
               (resolve_fee cfg symbol)).
Proof.
  intros H.
  pose proof (prepare_closed _ _ _ _ _ _ H) as Hc.
  destruct (prepare_orders S cfg contract _ _ _ _ _ _ H) as (Hcap & Hle & Hh).
  split; [exact Hcap|]. split; [specialize (Hle symbol); lia|].
  unfold open_order. rewrite Hh. split.
  - intros -> Hfull. simpl.
    replace (p_capacity p =? 0)%Z with true
      by (symmetry; apply Z.eqb_eq; lia).
    reflexivity.
  - intros ->. simpl. now destruct (p_hold p).
Qed.

End Capacity.

Lemma logit_probability_zero_half : logit_probability 0 = / 2.
Proof.
  unfold logit_probability.
  replace (np_clip 0 (-1 + 1e-3) (1 - 1e-3)) with 0.
  - unfold arctanh, expit.
    replace ((1 + 0) / (1 - 0)) with 1 by field.
    rewrite ln_1, Rmult_0_r, Ropp_0, exp_0. lra.
  - unfold np_clip, Rmax, Rmin.
    destruct (Rle_dec 0 (-1 + 1e-3)) as [H | H]; [lra|].
    destruct (Rle_dec 0 (1 - 1e-3)) as [H' | H']; lra.
Qed.

Lemma rng_choice_ones (g : Generator) (p : R) :
  words g (cursor g) = (2 ^ 64 - 1)%Z -> / 2 <= p ->
  rng_choice g p = (true, {| words := words g; cursor := S (cursor g) |}).
Proof.
  intros Hw Hp. unfold rng_choice, rng_random, next_word. rewrite Hw.
  change (((2 ^ 64 - 1) mod 2 ^ 64) / 2 ^ 11)%Z with (2 ^ 53 - 1)%Z.
  assert (H : Rltb (IZR (2 ^ 53 - 1) / IZR (2 ^ 53)) (1 - p) = false).
  { apply Rltb_false.
    assert (H53 : 2 <= IZR (2 ^ 53)) by (apply IZR_le; apply Z.leb_le; reflexivity).
    rewrite minus_IZR. unfold Rdiv.
    rewrite Rmult_minus_distr_r, Rinv_r by lra.
    assert (Hi : / IZR (2 ^ 53) <= / 2)
      by (apply Rinv_le_contravar; lra).
    lra. }
  now rewrite H.
Qed.

(** On the stream of one bits the first symbol of the small environment is
    held and its open order is closed. *)
Lemma book_prepare_closing (t : Z) :
  exists p : Prepared Book,
    prepare BookSimulator plain_config zero_action 0 "EURUSD" (traded_book t)
            {| words := ones_words; cursor := 2 |} = Ok p
    /\ p_hold p = true
    /\ List.length (p_closed p) = 1%nat.
Proof.
  unfold prepare, plain_config. rewrite decode_zero by lia.
  cbv beta iota zeta delta [bind].
  rewrite rng_choice_ones
    by (try reflexivity; rewrite logit_probability_zero_half; lra).
  unfold _get_modified_volume.
  cbn [symbols_info BookSimulator traded_book b_info].
  rewrite modified_volume_step by (simpl; lra).
  change (symbol_orders BookSimulator (traded_book t) "EURUSD")
    with [zero_order lot_info 0.0005 1 "EURUSD"].
  cbn [sample_closes].
  rewrite rng_choice_ones
    by (try reflexivity; rewrite logit_probability_zero_half; lra).
  pose proof (close_orders_records BookSimulator
                [(zero_order lot_info 0.0005 1 "EURUSD", logit_probability 0)]
                (traded_book t)) as Hc.
  destruct (close_orders BookSimulator (traded_book t)
              [(zero_order lot_info 0.0005 1 "EURUSD", logit_probability 0)])
    as [sim1 closed].
  eexists. split; [reflexivity|]. split; [reflexivity | exact Hc].
Qed.

(** The first symbol of the small environment once it has its one order
    open, on the zero action.  On the stream of zeros no order is closed,
    the capacity left is zero, and the capacity test refuses without a
    request; on the stream of one bits the order is closed, and the
    capacity left is one. *)
Lemma capacity_counts_open_orders_example :
  prepare BookSimulator plain_config zero_action 0 "EURUSD" (traded_book 1)
          {| words := zero_words; cursor := 2 |}
  = Ok (still_prepared lot_info (traded_book 1) 1 4)
  /\ List.length (symbol_orders BookSimulator (traded_book 1) "EURUSD")
     = symbol_max_orders plain_config
  /\ p_capacity (still_prepared lot_info (traded_book 1) 1 4) = 0%Z
  /\ p_capacity (still_prepared lot_info (traded_book 1) 1 4)
     = (Z.of_nat (symbol_max_orders plain_config)
        - Z.of_nat (List.length
                      (symbol_orders BookSimulator
                         (p_sim (still_prepared lot_info (traded_book 1) 1 4))
                         "EURUSD")))%Z
  /\ (List.length (p_closed (still_prepared lot_info (traded_book 1) 1 4))
      + List.length
          (symbol_orders BookSimulator
             (p_sim (still_prepared lot_info (traded_book 1) 1 4)) "EURUSD")
      = List.length (symbol_orders BookSimulator (traded_book 1) "EURUSD"))%nat
  /\ open_order BookSimulator plain_config "EURUSD"
       (still_prepared lot_info (traded_book 1) 1 4)
     = (set_error
          (base_intent "EURUSD" (still_prepared lot_info (traded_book 1) 1 4))
          "cannot add more orders",
        traded_book 1)
  /\ (exists p : Prepared Book,
        prepare BookSimulator plain_config zero_action 0 "EURUSD"
                (traded_book 1) {| words := ones_words; cursor := 2 |} = Ok p
        /\ List.length (p_closed p) = 1%nat
        /\ List.length (symbol_orders BookSimulator (p_sim p) "EURUSD") = 0%nat
        /\ p_capacity p = 1%Z).
Proof.
  assert (Hp : prepare BookSimulator plain_config zero_action 0 "EURUSD"
                 (traded_book 1) {| words := zero_words; cursor := 2 |}
               = Ok (still_prepared lot_info (traded_book 1) 1 4)).
  { apply (book_prepare_still lot_info (FixedFee 0.0005) false 0 "EURUSD"
             (traded_book 1) 2); [lia | simpl; lra | reflexivity]. }
  destruct (capacity_counts_open_orders BookSimulator plain_config
              book_contract zero_action 0 "EURUSD" (traded_book 1)
              {| words := zero_words; cursor := 2 |}
              (still_prepared lot_info (traded_book 1) 1 4) Hp)
    as (H1 & H2 & H3 & _).
  split; [exact Hp|]. split; [reflexivity|]. split; [reflexivity|].
  split; [exact H1|]. split; [exact H2|].
  split; [apply H3; reflexivity|].
  destruct (book_prepare_closing 1) as (q & Hq & _ & Hclosed).
  destruct (capacity_counts_open_orders BookSimulator plain_config
              book_contract zero_action 0 "EURUSD" (traded_book 1)
              {| words := ones_words; cursor := 2 |} q Hq)
    as (Hcap & Hsum & _).
  rewrite Hclosed in Hsum.
  assert (Hopen : List.length
                    (symbol_orders BookSimulator (p_sim q) "EURUSD") = 0%nat)
    by (exact (eq_add_S _ _ Hsum)).
  exists q. split; [exact Hq|]. split; [exact Hclosed|].
  split; [exact Hopen|]. rewrite Hcap, Hopen. reflexivity.
Defined.

(** ** The shape of an observation *)

Lemma mapM_length {A B : Type} (f : A -> Result B) (l : list A) (r : list B) :
  mapM f l = Ok r ->
  List.length r = List.length l
  /\ forall b, In b r -> exists a, In a l /\ f a = Ok b.
Proof.
  revert r. induction l as [| x l IH]; intros r H.
  - simpl in H. inversion H; subst. split; [reflexivity | intros b []].
  - cbn [mapM] in H. inv_bind H. inv_bind H. inversion H; subst.
    destruct (IH a0 eq_refl) as [Hlen Hin]. split; [simpl; lia|].
    intros b [<- | Hb].
    + exists x. split; [now left | assumption].
    + destruct (Hin b Hb) as (a' & Ha' & Hf).
      exists a'. split; [now right | exact Hf].
Qed.

Lemma py_slice_window {A : Type} (l : list A) (t w : Z) :
  (0 <= w - 1 <= t)%Z -> (t < Z.of_nat (List.length l))%Z ->
  List.length (py_slice l (t - w + 1) (t + 1)) = Z.to_nat w.
Proof.
  intros Hw Ht. unfold py_slice, slice_bound.
  destruct (Z.ltb_spec (t - w + 1) 0); [lia|].
  destruct (Z.ltb_spec (t + 1) 0); [lia|].
  rewrite length_firstn, length_skipn. lia.
Qed.

Section Shape.
Context {Sim : Type} (S : Simulator Sim).
Variable cfg : Config Sim.

(** An observation that is built has the shapes of the observation space:
    one balance, one equity and one margin; for every traded symbol
    [symbol_max_orders] rows of three numbers; and, at a tick from
    [window_size - 1] on that is an index of the signal features,
    [window_size] rows of features. *)
Theorem observation_shape (sim : Sim) (t : Z) (obs : Observation) :
  _get_observation S cfg sim t = Ok obs ->
  List.length (obs_balance obs) = 1%nat
  /\ List.length (obs_equity obs) = 1%nat
  /\ List.length (obs_margin obs) = 1%nat
  /\ List.length (obs_orders obs) = List.length (trading_symbols cfg)
  /\ (forall rows, In rows (obs_orders obs) ->
                   List.length rows = symbol_max_orders cfg
                   /\ forall row, In row rows -> List.length row = 3%nat)
  /\ ((0 <= window_size cfg - 1 <= t)%Z ->
      (t < Z.of_nat (List.length (signal_features cfg)))%Z ->
      List.length (obs_features obs) = Z.to_nat (window_size cfg)).
Proof.
  unfold _get_observation. intros H. inv_bind H.
  inversion H; subst; clear H. cbn [obs_balance obs_equity obs_margin
                                     obs_orders obs_features].
  apply mapM_length in Ha as [Hlen Hrows].
  repeat split; try reflexivity.
  - rewrite length_map. exact Hlen.
  - apply in_map_iff in H as (rows0 & <- & Hin).
    destruct (Hrows rows0 Hin) as (symbol & _ & Hr).
    unfold order_rows in Hr.
    destruct (Nat.ltb_spec (symbol_max_orders cfg)
                (List.length (symbol_orders S sim symbol))); [discriminate|].
    inversion Hr; subst.
    rewrite length_map, length_app, length_map, repeat_length. lia.
  - intros row Hrow.
    apply in_map_iff in H as (rows0 & <- & Hin).
    apply in_map_iff in Hrow as (row0 & <- & Hin0).
    rewrite length_map.
    destruct (Hrows rows0 Hin) as (symbol & _ & Hr).
    unfold order_rows in Hr.
    destruct (Nat.ltb _ _); [discriminate|].
    inversion Hr; subst.
    apply in_app_or in Hin0 as [Hin0 | Hin0].
    + apply in_map_iff in Hin0 as (o & <- & _). reflexivity.
    + apply repeat_spec in Hin0. now subst.
  - intros Hw Ht. rewrite length_map. now apply py_slice_window.
Qed.

End Shape.

(** The first observation of the small environment: two symbols, a window
    of one tick. *)
Lemma observation_shape_example :
  exists obs,
    _get_observation BookSimulator plain_config (empty_book true lot_info) 0
    = Ok obs
    /\ List.length (obs_orders obs) = 2%nat
    /\ List.length (obs_features obs) = 1%nat.
Proof.
  assert (H : exists obs,
             _get_observation BookSimulator plain_config
               (empty_book true lot_info) 0 = Ok obs)
    by (eexists; reflexivity).
  destruct H as [obs H]. exists obs. split; [exact H|].
  destruct (observation_shape BookSimulator plain_config _ _ _ H)
    as (_ & _ & _ & Ho & _ & Hf).
  split; [exact Ho|]. apply Hf; simpl; lia.
Defined.

(** ** More statements on the small environment *)

(** The two requests of the first step, both refused. *)
Lemma apply_action_entries_example :
  (forall s,
     (exists it,
        dict_get
          [("EURUSD"%string,
            set_error (base_intent "EURUSD" (zero_prepared lot_info 0))
              "negative fee");
           ("GBPCAD"%string,
            set_error (base_intent "GBPCAD" (zero_prepared lot_info 1))
              "negative fee")] s = Some it)
     <-> In s (trading_symbols refusing_config))
  /\ (forall s,
        (exists l,
           dict_get [("EURUSD"%string, []); ("GBPCAD"%string, [])] s
           = Some (l : list ClosedOrder))
        <-> In s (trading_symbols refusing_config)).
Proof.
  destruct (apply_action_entries BookSimulator refusing_config _ _ _ _ _ _ _
              refused_first_symbol) as (H1 & H2 & _).
  split; [exact H1 | exact H2].
Defined.

(** The first step of the small environment, on the zero action. *)
Lemma step_returns_in_episode_example :
  exists env' r,
    step BookSimulator plain_config (book_start plain_config) zero_action
    = Ok (env', r).
Proof.
  apply (step_returns_in_episode BookSimulator zero_gauss zero_seed
           plain_config).
  - intros sim o s. reflexivity.
  - intros sim ty s v f o sim' s' H.
    cbn [create_order BookSimulator] in H. unfold book_create in H.
    destruct (Rltb f 0); [discriminate|].
    inversion H; subst. reflexivity.
  - exact book_contract.
  - intros H. discriminate H.
  - exact book_start_episode.
  - lazy. discriminate.
  - reflexivity.
  - replace (initial_balance (book_start plain_config)) with 10000
      by reflexivity.
    lra.
  - intros s _. exists lot_info. split; [reflexivity|]. simpl. lra.
  - intros j Hj. simpl in *. lia.
Defined.
